(** * DocuExtract AI: the Markdown export engine and the analysis result

    A shallow embedding of [exportToPDF], [exportToWord] (the export
    service) and of the result construction of
    [GeminiService.analyzeContent], with the properties of the export
    engine stated over it.

    Conventions.
    - A JavaScript string is a [string]: one [ascii] per code unit, for
      code units below 256.
    - Page coordinates (millimetres) and percentages are rationals.
    - [linkRegex] is a module-level regular expression with the [g] flag;
      its [lastIndex] is the one piece of state shared by every call, and
      is threaded explicitly through every function that touches it.
    - jsPDF's text measurement and the grid-table plugin are not part of
      the repository; the PDF sink takes them as the variables of a
      section. *)

From Stdlib Require Import String Ascii List Bool Arith ZArith QArith Lia Lqa.
Import ListNotations.

Close Scope Q_scope.
Open Scope string_scope.
Open Scope list_scope.
Open Scope nat_scope.

(** String concatenation, written apart from list concatenation. *)
Infix "+++" := String.append (right associativity, at level 60).

(** ** JavaScript string primitives *)

Module JsString.

(** White space stripped by [String.prototype.trim]: TAB, LF, VT, FF, CR,
    SPACE and NBSP. *)
Definition isWhiteSpace (c : ascii) : bool :=
  let n := nat_of_ascii c in
  ((9 <=? n) && (n <=? 13)) || (n =? 32) || (n =? 160).

(** Line terminators, which the regular-expression atom [.] refuses. *)
Definition isLineTerminator (c : ascii) : bool :=
  let n := nat_of_ascii c in (n =? 10) || (n =? 13).

Fixpoint trimStart (s : string) : string :=
  match s with
  | EmptyString => EmptyString
  | String c s' => if isWhiteSpace c then trimStart s' else s
  end.

Fixpoint trimEnd (s : string) : string :=
  match s with
  | EmptyString => EmptyString
  | String c s' =>
      match trimEnd s' with
      | EmptyString => if isWhiteSpace c then EmptyString else String c EmptyString
      | t => String c t
      end
  end.

Definition trim (s : string) : string := trimEnd (trimStart s).

Definition startsWith (s p : string) : bool := prefix p s.

Fixpoint drop (n : nat) (s : string) : string :=
  match n, s with
  | S k, String _ s' => drop k s'
  | _, _ => s
  end.

(** [s.substring(a, b)]: the code units from [min a b] up to [max a b]. *)
Definition substring2 (s : string) (a b : nat) : string :=
  substring (Nat.min a b) (Nat.max a b - Nat.min a b) s.

(** [s.substring(a)]: from [a] to the end. *)
Definition substringFrom (s : string) (a : nat) : string := drop a s.

Fixpoint includes (s pat : string) : bool :=
  prefix pat s ||
  match s with
  | EmptyString => false
  | String _ s' => includes s' pat
  end.

(** [s.split(sep)] for a one-character separator. *)
Fixpoint split (sep : ascii) (s : string) : list string :=
  match s with
  | EmptyString => [EmptyString]
  | String c s' =>
      if Ascii.eqb c sep then EmptyString :: split sep s'
      else match split sep s' with
           | h :: t => String c h :: t
           | [] => [String c EmptyString]
           end
  end.

(** [s.replace(/pat/g, rep)] for a pattern of literal characters: every
    occurrence, leftmost first, without overlap.  [skip] counts the
    characters of the current occurrence still to be passed over. *)
Fixpoint replaceAllFrom (pat rep : string) (skip : nat) (s : string) : string :=
  match s with
  | EmptyString => EmptyString
  | String c s' =>
      match skip with
      | S k => replaceAllFrom pat rep k s'
      | O => if prefix pat s
             then rep +++ replaceAllFrom pat rep (String.length pat - 1) s'
             else String c (replaceAllFrom pat rep 0 s')
      end
  end.

Definition replaceAll (pat rep s : string) : string :=
  match pat with
  | EmptyString => s
  | _ => replaceAllFrom pat rep 0 s
  end.

(** [s.replace(pat, rep)] for a string pattern: the first occurrence only. *)
Fixpoint replaceFirst (pat rep s : string) : string :=
  if prefix pat s then rep +++ drop (String.length pat) s
  else match s with
       | EmptyString => EmptyString
       | String c s' => String c (replaceFirst pat rep s')
       end.

(** Lower case of a code unit below 256: the letters A to Z, and the
    accented capitals of Latin-1 (all of 192..222 but the multiplication
    sign, 215). *)
Definition toLowerChar (c : ascii) : ascii :=
  let n := nat_of_ascii c in
  if ((65 <=? n) && (n <=? 90))
     || ((192 <=? n) && (n <=? 222) && negb (n =? 215))
  then ascii_of_nat (n + 32) else c.

Fixpoint toLowerCase (s : string) : string :=
  match s with
  | EmptyString => EmptyString
  | String c s' => String (toLowerChar c) (toLowerCase s')
  end.

(** Case-insensitive variants, for a regular expression with the [i] flag. *)
Fixpoint prefix_ci (p s : string) : bool :=
  match p, s with
  | EmptyString, _ => true
  | String a p', String b s' => Ascii.eqb (toLowerChar a) (toLowerChar b) && prefix_ci p' s'
  | String _ _, EmptyString => false
  end.

Fixpoint removeAllCIFrom (pat : string) (skip : nat) (s : string) : string :=
  match s with
  | EmptyString => EmptyString
  | String c s' =>
      match skip with
      | S k => removeAllCIFrom pat k s'
      | O => if prefix_ci pat s
             then removeAllCIFrom pat (String.length pat - 1) s'
             else String c (removeAllCIFrom pat 0 s')
      end
  end.

Definition isEmpty (s : string) : bool :=
  match s with EmptyString => true | _ => false end.

End JsString.
Import JsString.

(** ** The shared regular expression [linkRegex = /\[(.*?)\]\((.*?)\)/g] *)

Module LinkRegex.

(** The result of a successful [exec]: [match.index], the length of
    [match[0]], [match[1]] and [match[2]]. *)
Record RegExpMatch : Type := mkMatch
  { index : nat; matchLength : nat; group1 : string; group2 : string }.

(** [(.*?)\)] : the shortest run of non-terminators followed by [)].
    Returns the group and the number of code units consumed. *)
Fixpoint lazyUrl (s : string) : option (string * nat) :=
  match s with
  | EmptyString => None
  | String c s' =>
      if Ascii.eqb c ")" then Some (EmptyString, 1)
      else if isLineTerminator c then None
      else match lazyUrl s' with
           | Some (u, n) => Some (String c u, S n)
           | None => None
           end
  end.

(** [(.*?)\]\((.*?)\)] : at each length of the first group, try the rest
    of the pattern; on failure let the group take one more character. *)
Fixpoint lazyLabel (s : string) : option (string * string * nat) :=
  match s with
  | EmptyString => None
  | String c s' =>
      match (if prefix "](" s then lazyUrl (drop 2 s) else None) with
      | Some (u, n) => Some (EmptyString, u, 2 + n)
      | None =>
          if isLineTerminator c then None
          else match lazyLabel s' with
               | Some (l, u, n) => Some (String c l, u, S n)
               | None => None
               end
      end
  end.

(** The whole pattern anchored at the first character of [s]. *)
Definition matchHere (s : string) : option (string * string * nat) :=
  match s with
  | String c s' =>
      if Ascii.eqb c "[" then
        match lazyLabel s' with
        | Some (l, u, n) => Some (l, u, S n)
        | None => None
        end
      else None
  | EmptyString => None
  end.

(** Leftmost match in [s], whose first character has index [i]. *)
Fixpoint searchFrom (s : string) (i : nat) : option RegExpMatch :=
  match matchHere s with
  | Some (l, u, n) => Some (mkMatch i n l u)
  | None =>
      match s with
      | EmptyString => None
      | String _ s' => searchFrom s' (S i)
      end
  end.

(** [linkRegex.exec(text)] when [linkRegex.lastIndex] is [lastIndex]:
    the match, if any, and the new [lastIndex]. *)
Definition exec (text : string) (lastIndex : nat) : option RegExpMatch * nat :=
  if String.length text <? lastIndex then (None, 0)
  else match searchFrom (drop lastIndex text) lastIndex with
       | Some m => (Some m, index m + matchLength m)
       | None => (None, 0)
       end.

(** [while ((match = linkRegex.exec(text)) !== null) body], with the loop
    state [acc].  The body also sees [linkRegex.lastIndex] as left by
    [exec].  [None] when the fuel runs out before [exec] returns [null]. *)
Fixpoint execLoop {A : Type} (fuel : nat) (text : string)
         (body : RegExpMatch -> nat -> A -> A) (acc : A) (lastIndex : nat)
  : option (A * nat) :=
  match fuel with
  | O => None
  | S fuel' =>
      match exec text lastIndex with
      | (None, li) => Some (acc, li)
      | (Some m, li) => execLoop fuel' text body (body m li acc) li
      end
  end.

(** [text.replace(linkRegex, '$1')]: [lastIndex] is reset, then every
    match is replaced by its first group. *)
Definition replaceWithGroup1 (text : string) (lastIndex : nat) : string * nat :=
  let body (m : RegExpMatch) (li : nat) (acc : string * nat) :=
    let '(out, pos) := acc in
    (out +++ substring2 text pos (index m) +++ group1 m, li) in
  match execLoop (S (String.length text)) text body (EmptyString, 0) 0 with
  | Some ((out, pos), li) => (out +++ substringFrom text pos, li)
  | None => (text, lastIndex)
  end.

(** [text.split(linkRegex)]: the pieces between matches, each match
    contributing its two groups.  The splitter is a fresh copy of the
    expression, so [lastIndex] is neither read nor written. *)
Definition splitParts (text : string) : list string :=
  let body (m : RegExpMatch) (li : nat) (acc : list string * nat) :=
    let '(parts, pos) := acc in
    (parts ++ [substring2 text pos (index m); group1 m; group2 m], li) in
  match execLoop (S (String.length text)) text body ([], 0) 0 with
  | Some ((parts, pos), _) => parts ++ [substringFrom text pos]
  | None => [text]
  end.

End LinkRegex.
Import LinkRegex.

(** The default value of the [filename] parameter of both exports. *)
Definition defaultFilename : string := "extraction-report".

(** ** Table rows, shared by both sinks *)

(** [c => c.trim() !== ''] *)
Definition nonBlank (c : string) : bool := negb (isEmpty (trim c)).

(** [line.split('|').filter(c => c.trim() !== '')] *)
Definition pipeFields (line : string) : list string :=
  filter nonBlank (split "|" line).

(** [line.split('|').filter(c => c.trim() !== '').map(c => c.trim())] *)
Definition pipeCells (line : string) : list string :=
  map trim (pipeFields line).

(** ** The Word sink: [exportToWord] *)

Module Word.

Inductive HeadingLevel : Type := TITLE | HEADING_1 | HEADING_2 | HEADING_3.

(** The inline children of a paragraph.  An [ExternalHyperlink] holds one
    run with the [Hyperlink] style, colour [0000FF], single underline. *)
Inductive Run : Type :=
| TextRun (text : string)
| ExternalHyperlink (text : string) (link : string).

Record Spacing : Type := mkSpacing
  { before : option nat; after : option nat }.

Record Paragraph : Type := mkParagraph
  { p_text : option string;
    p_children : list Run;
    p_heading : option HeadingLevel;
    p_spacing : option Spacing }.

(** Every cell has the same four single borders of colour [CBD5E1]. *)
Record TableCell : Type := mkTableCell
  { c_children : list Paragraph;
    c_width : Q;                 (* percent *)
    c_fill : string }.

Record TableRow : Type := mkTableRow { r_children : list TableCell }.

Inductive Node : Type :=
| NParagraph (p : Paragraph)
| NTable (rows : list TableRow).    (* width: 100 percent *)

(** [parseMarkdownToDocxChildren]; the second component is
    [linkRegex.lastIndex] on return. *)
Definition parseMarkdownToDocxChildren (text : string) (re : nat)
  : list Run * nat :=
  let body (m : RegExpMatch) (li : nat) (acc : list Run * nat) :=
    let '(children, lastIndex) := acc in
    let children :=
      if lastIndex <? index m
      then children ++ [TextRun (substring2 text lastIndex (index m))]
      else children in
    (children ++ [ExternalHyperlink (group1 m) (group2 m)], li) in
  match execLoop (S (String.length text)) text body ([], 0) 0 with
  | Some ((children, lastIndex), re') =>
      (if lastIndex <? String.length text
       then children ++ [TextRun (substringFrom text lastIndex)]
       else children, re')
  | None => ([], re)
  end.

Record State : Type := mkState
  { children : list Node;
    inTable : bool;
    tableRows : list TableRow;
    linkRegex_lastIndex : nat }.

Definition titleParagraph : Paragraph :=
  mkParagraph (Some "DocuExtract AI Report") [] (Some TITLE) None.

Definition init (re : nat) : State :=
  mkState [NParagraph titleParagraph] false [] re.

Definition flushTable (st : State) : State :=
  mkState
    (if 0 <? length (tableRows st)
     then children st
            ++ [NTable (tableRows st);
                NParagraph (mkParagraph (Some "") [] None None)]
     else children st)
    false [] (linkRegex_lastIndex st).

Definition flushIfInTable (st : State) : State :=
  if inTable st then flushTable st else st.

(** One of the three heading branches. *)
Definition pushHeading (st : State) (line marker : string)
           (level : HeadingLevel) (sp_before sp_after : nat) : State :=
  let st := flushIfInTable st in
  let '(runs, re) :=
    parseMarkdownToDocxChildren (replaceFirst marker "" line)
                                (linkRegex_lastIndex st) in
  mkState
    (children st
       ++ [NParagraph (mkParagraph None runs (Some level)
                         (Some (mkSpacing (Some sp_before) (Some sp_after))))])
    (inTable st) (tableRows st) re.

(** The callback of [cells.map]: one cell from one trimmed field. *)
Definition makeCell (ncells nrows : nat) (text : string) (re : nat)
  : TableCell * nat :=
  let cleanText := replaceAll "<br>" (String "010" "") (replaceAll "**" "" text) in
  let '(runs, re') := parseMarkdownToDocxChildren cleanText re in
  (mkTableCell [mkParagraph None runs None None]
               (100 / inject_Z (Z.of_nat ncells))%Q
               (if nrows =? 0 then "F1F5F9" else "FFFFFF"),
   re').

(** [Array.prototype.map] with a callback that touches [linkRegex]. *)
Fixpoint mapRe {A B : Type} (f : A -> nat -> B * nat) (l : list A) (re : nat)
  : list B * nat :=
  match l with
  | [] => ([], re)
  | a :: l' =>
      let '(b, re1) := f a re in
      let '(bs, re2) := mapRe f l' re1 in
      (b :: bs, re2)
  end.

(** The body of the [for] loop, for the line [lines[i]]. *)
Definition step (st : State) (rawLine : string) : State :=
  let line := trim rawLine in
  if startsWith line "### " then pushHeading st line "### " HEADING_3 200 100
  else if startsWith line "## " then pushHeading st line "## " HEADING_2 300 150
  else if startsWith line "# " then pushHeading st line "# " HEADING_1 400 200
  else if startsWith line "|" then
    let st :=
      if negb (inTable st)
      then mkState (children st) true [] (linkRegex_lastIndex st)
      else st in
    if includes line "---" then st
    else
      let cells := pipeCells line in
      let '(rowCells, re) :=
        mapRe (makeCell (length cells) (length (tableRows st))) cells
              (linkRegex_lastIndex st) in
      mkState (children st) (inTable st)
              (tableRows st ++ [mkTableRow rowCells]) re
  else
    let st := flushIfInTable st in
    if 0 <? String.length line then
      let '(runs, re) :=
        parseMarkdownToDocxChildren line (linkRegex_lastIndex st) in
      mkState
        (children st
           ++ [NParagraph (mkParagraph None runs None
                             (Some (mkSpacing None (Some 120))))])
        (inTable st) (tableRows st) re
    else st.

Definition run (st : State) (lines : list string) : State :=
  fold_left step lines st.

(** The document handed to [Packer.toBlob], and the name it is saved
    under. *)
Record Output : Type := mkOutput
  { sections_children : list Node; savedAs : string }.

(** [exportToWord content filename] started with [linkRegex.lastIndex = re];
    returns the output and the final [lastIndex]. *)
Definition exportToWord (content filename : string) (re : nat) : Output * nat :=
  let st := flushIfInTable (run (init re) (split "010" content)) in
  (mkOutput (children st) (filename +++ ".docx"), linkRegex_lastIndex st).

End Word.

(** ** The PDF sink: [exportToPDF] *)

Module Pdf.

(** [PDFCellObj | string]: what a body cell of the grid table holds. *)
Inductive Cell : Type :=
| CellString (s : string)
| CellObj (content : string) (link : string).

(** [(.*?)\)$] *)
Fixpoint lazyUrlEnd (s : string) : option string :=
  match s with
  | EmptyString => None
  | String c s' =>
      if Ascii.eqb c ")" && isEmpty s' then Some EmptyString
      else if isLineTerminator c then None
      else match lazyUrlEnd s' with
           | Some u => Some (String c u)
           | None => None
           end
  end.

(** [(.*?)\]\((.*?)\)$] *)
Fixpoint lazyLabelEnd (s : string) : option (string * string) :=
  match s with
  | EmptyString => None
  | String c s' =>
      match (if prefix "](" s then lazyUrlEnd (drop 2 s) else None) with
      | Some u => Some (EmptyString, u)
      | None =>
          if isLineTerminator c then None
          else match lazyLabelEnd s' with
               | Some (l, u) => Some (String c l, u)
               | None => None
               end
      end
  end.

(** [text.match(/^\[(.*?)\]\((.*?)\)$/)]: a regular expression of its own,
    without the [g] flag, so no state is involved. *)
Definition wholeCellLink (text : string) : option (string * string) :=
  match text with
  | String c s' => if Ascii.eqb c "[" then lazyLabelEnd s' else None
  | EmptyString => None
  end.

Definition parseCellForPDF (text : string) : Cell :=
  match wholeCellLink text with
  | Some (l, u) => CellObj l u
  | None => CellString (replaceAll "<br>" (String "010" "") (replaceAll "**" "" text))
  end.

(** [cleanMarkdown]; the second component is [linkRegex.lastIndex] on
    return. *)
Definition cleanMarkdown (md : string) (re : nat) : string * nat :=
  let '(s, re') := replaceWithGroup1 md re in
  (replaceAll "<br>" (String "010" "")
     (replaceAll "`" ""
        (replaceAll "#" ""
           (replaceAll "*" ""
              (replaceAll "**" "" s)))),
   re').

(** The calls made on the jsPDF document, in order. *)
Inductive Op : Type :=
| SetFont (family style : string)
| SetFontSize (size : nat)
| SetTextColor (r g b : nat)
| SetDrawColor (r g b : nat)
| Text (txt : string) (x y : Q)
| TextLines (txts : list string) (x y : Q)
| TextWithLink (txt : string) (x y : Q) (url : string)
| Line (x1 y1 x2 y2 : Q)
| Link (x y w h : Q) (url : string)
| AddPage
| AutoTable (startY : Q) (head : list string) (body : list (list Cell))
| Save (name : string).

Inductive TableSection : Type := SectionHead | SectionBody.

(** [raw && typeof raw === 'object' && raw.link] *)
Definition hasLink (raw : Cell) : option string :=
  match raw with
  | CellObj _ link => if isEmpty link then None else Some link
  | CellString _ => None
  end.

(** The [didDrawCell] hook handed to the grid-table plugin. *)
Definition didDrawCell (raw : Cell) (x y w h : Q) : list Op :=
  match hasLink raw with
  | Some url => [Link x y w h url]
  | None => []
  end.

(** The [willDrawCell] hook. *)
Definition willDrawCell (raw : Cell) (section : TableSection) : list Op :=
  match hasLink raw with
  | Some _ => [SetTextColor 0 0 255]
  | None => match section with
            | SectionBody => [SetTextColor 51 65 85]
            | SectionHead => []
            end
  end.

Record State : Type := mkState
  { ops : list Op;
    y : Q;
    inTable : bool;
    tableHeader : list string;
    tableBody : list (list Cell);
    linkRegex_lastIndex : nat }.

Definition margin : Q := 14.

(** [y > 270] *)
Definition pastThreshold (y : Q) : bool := negb (Qle_bool y 270).

Section Backend.

(** jsPDF and the grid-table plugin.  What they answer depends on the
    state of the document (current font, current page), which is
    determined by the calls made on it since [new jsPDF()]: each query
    takes that history. *)
Variable pageWidth : Q.
Variable getTextWidth : list Op -> string -> Q.
Variable splitTextToSize : list Op -> string -> Q -> list string.
(** [doc.lastAutoTable.finalY], once the [AutoTable] call that ends the
    history has drawn its table. *)
Variable lastAutoTable_finalY : list Op -> Q.

Definition maxLineWidth : Q := (pageWidth - margin * 2)%Q.

Definition init (re : nat) : State :=
  mkState
    [SetFont "helvetica" "bold"; SetFontSize 20; SetTextColor 15 23 42;
     Text "DocuExtract AI Report" margin 20;
     SetDrawColor 203 213 225;
     Line margin 24 (pageWidth - margin)%Q 24]
    35 false [] [] re.

Definition flushTable (st : State) : State :=
  if 0 <? length (tableHeader st) then
    let ops' := ops st ++ [AutoTable (y st) (tableHeader st) (tableBody st)] in
    mkState ops' (lastAutoTable_finalY ops' + 10)%Q false [] []
            (linkRegex_lastIndex st)
  else
    mkState (ops st) (y st) false (tableHeader st) (tableBody st)
            (linkRegex_lastIndex st).

Definition flushIfInTable (st : State) : State :=
  if inTable st then flushTable st else st.

(** [if (y > 270) { doc.addPage(); y = 20; }] *)
Definition pageBreak (st : State) : State :=
  if pastThreshold (y st)
  then mkState (ops st ++ [AddPage]) 20 (inTable st) (tableHeader st)
               (tableBody st) (linkRegex_lastIndex st)
  else st.

Definition emit (st : State) (new : list Op) (y' : Q) (re : nat) : State :=
  mkState (ops st ++ new) y' (inTable st) (tableHeader st) (tableBody st) re.

(** The body of the drawing loop of a paragraph with links; the state of
    the loop is the calls made so far, [cursorX] and [lastIdx]. *)
Definition drawLink (trimmed : string) (y : Q)
           (m : RegExpMatch) (li : nat) (acc : list Op * Q * nat)
  : list Op * Q * nat :=
  let '(ops, cursorX, lastIdx) := acc in
  let preText := substring2 trimmed lastIdx (index m) in
  let '(ops, cursorX) :=
    if isEmpty preText then (ops, cursorX)
    else
      let ops := ops ++ [SetTextColor 71 85 105; Text preText cursorX y] in
      (ops, (cursorX + getTextWidth ops preText)%Q) in
  let ops := ops ++ [SetTextColor 0 0 255;
                     TextWithLink (group1 m) cursorX y (group2 m)] in
  (ops, (cursorX + getTextWidth ops (group1 m))%Q, li).

(** The paragraph branch ([trimmed.length > 0]). *)
Definition paragraph (st : State) (trimmed : string) : State :=
  let st := emit st [SetFont "helvetica" "normal"; SetFontSize 10;
                     SetTextColor 71 85 105]
                 (y st) (linkRegex_lastIndex st) in
  let parts := splitParts trimmed in
  if 1 <? length parts then
    match execLoop (S (String.length trimmed)) trimmed
                   (drawLink trimmed (y st)) (ops st, margin, 0) 0 with
    | Some ((ops', cursorX, lastIdx), re) =>
        let ops' :=
          if lastIdx <? String.length trimmed
          then ops' ++ [SetTextColor 71 85 105;
                        Text (substringFrom trimmed lastIdx) cursorX (y st)]
          else ops' in
        mkState ops' (y st + 6)%Q (inTable st) (tableHeader st)
                (tableBody st) re
    | None => st
    end
  else
    let '(clean, re) := cleanMarkdown trimmed (linkRegex_lastIndex st) in
    let textLines := splitTextToSize (ops st) clean maxLineWidth in
    emit st [TextLines textLines margin (y st)]
         (y st + (inject_Z (Z.of_nat (length textLines)) * 5 + 2))%Q re.

(** The callback of [lines.forEach]. *)
Definition step (st : State) (line : string) : State :=
  let trimmed := trim line in
  let st := pageBreak st in
  if startsWith trimmed "|" then
    if negb (inTable st) then
      mkState (ops st) (y st) true
              (map (fun c => replaceAll "**" "" (trim c)) (pipeFields trimmed))
              (tableBody st) (linkRegex_lastIndex st)
    else if negb (includes trimmed "---") then
      mkState (ops st) (y st) (inTable st) (tableHeader st)
              (tableBody st
                 ++ [map (fun c => parseCellForPDF (trim c)) (pipeFields trimmed)])
              (linkRegex_lastIndex st)
    else st
  else
    let st := flushIfInTable st in
    if startsWith trimmed "# " then
      emit st [SetFont "helvetica" "bold"; SetFontSize 16;
               SetTextColor 30 41 59;
               Text (replaceFirst "# " "" trimmed) margin (y st)]
           (y st + 10)%Q (linkRegex_lastIndex st)
    else if startsWith trimmed "## " then
      emit st [SetFont "helvetica" "bold"; SetFontSize 14;
               SetTextColor 51 65 85;
               Text (replaceFirst "## " "" trimmed) margin (y st)]
           (y st + 8)%Q (linkRegex_lastIndex st)
    else if 0 <? String.length trimmed then paragraph st trimmed
    else st.

Definition run (st : State) (lines : list string) : State :=
  fold_left step lines st.

(** [exportToPDF content filename] started with
    [linkRegex.lastIndex = re]: the calls made on the document, and the
    final [lastIndex]. *)
Definition exportToPDF (content filename : string) (re : nat)
  : list Op * nat :=
  let st := flushIfInTable (run (init re) (split "010" content)) in
  (ops st ++ [Save (filename +++ ".pdf")], linkRegex_lastIndex st).

End Backend.

Definition isAddPage (o : Op) : bool :=
  match o with AddPage => true | _ => false end.

Definition addedPages (l : list Op) : nat := length (filter isAddPage l).

(** The number of pages of a document without tables: the one it is
    created with, plus one per [addPage] of the sink.  (The grid-table
    plugin adds pages of its own for a table that does not fit, which the
    sink does not see.) *)
Definition pageCount (l : list Op) : nat := S (addedPages l).

(** A fixed-pitch stand-in for jsPDF, to evaluate the sink on examples:
    an A4 page, two millimetres per character, no wrapping, and a grid
    table whose rows are 9.65125 millimetres high: one line of text at
    size 9 (line height 1.15, that is 3.65125 millimetres) between two
    paddings of 3, as the styles handed to the plugin give for cells of
    one line.  The table is taken to fit on its page: the plugin breaks a
    longer one over pages of its own, which this stand-in does not
    model. *)
Definition demoPageWidth : Q := 210.
Definition demoTextWidth (_ : list Op) (s : string) : Q :=
  (inject_Z (Z.of_nat (String.length s)) * 2)%Q.
Definition demoSplit (_ : list Op) (s : string) (_ : Q) : list string := [s].
Definition demoFinalY (l : list Op) : Q :=
  match last l AddPage with
  | AutoTable startY _ body =>
      (startY + inject_Z (Z.of_nat (S (length body))) * (7721 # 800))%Q
  | _ => 0
  end.

Definition demoExport (content : string) : list Op :=
  fst (exportToPDF demoPageWidth demoTextWidth demoSplit demoFinalY
                   content defaultFilename 0).

End Pdf.


(** ** The analysis result: the end of [GeminiService.analyzeContent] *)

Module Gemini.

Inductive InputKind : Type := Base64 | Url | PlainText.

(** [ExtractedData]; the optional [metadata] is never set by
    [analyzeContent]. *)
Record ExtractedData : Type := mkExtractedData
  { rawText : string;
    markdown : string;
    summary : string;
    detectedType : string }.

(** What the [try] block meets before it builds the result: an exception
    (from scraping or from the model call) with its message, or a response
    whose [text] may be undefined. *)
Inductive Reply : Type :=
| Thrown (message : string)
| Response (text : option string).

(** [response.text || "No content extracted."] *)
Definition textOrDefault (t : option string) : string :=
  match t with
  | Some s => if isEmpty s then "No content extracted." else s
  | None => "No content extracted."
  end.

(** [text.replace(/```markdown/gi, '').replace(/```/g, '').trim()] *)
Definition cleanup (text : string) : string :=
  trim (replaceAll "```" "" (removeAllCIFrom "```markdown" 0 text)).

Definition detectType (text : string) (inputType : InputKind) : string :=
  let lowerText := toLowerCase text in
  if includes lowerText "invoice" || includes lowerText "total"
     || includes lowerText "bill to"
  then "Financial Document"
  else if includes lowerText "|"
          && (includes lowerText "price" || includes lowerText "product")
  then "Product List"
  else match inputType with
       | Url => "Web Page"
       | _ => "General Document"
       end.

(** The outcome of [analyzeContent]: the data, or the message of the
    [Error] it throws. *)
Definition analyzeContent (reply : Reply) (inputType : InputKind)
  : ExtractedData + string :=
  match reply with
  | Thrown message =>
      inr (if isEmpty message then "Failed to analyze content" else message)
  | Response t =>
      let text := cleanup (textOrDefault t) in
      inl (mkExtractedData text text
             (substring2 text 0 200 +++ "...")
             (detectType text inputType))
  end.

End Gemini.


(** ** Vocabulary of the statements *)

Definition newline : string := String "010" "".

Fixpoint allChars (p : ascii -> bool) (s : string) : bool :=
  match s with
  | EmptyString => true
  | String c s' => p c && allChars p s'
  end.

(** *** Links *)

(** The Markdown source of a link, [[label](url)]. *)
Definition linkSpan (label url : string) : string :=
  "[" +++ label +++ "](" +++ url +++ ")".

(** Text that opens no link. *)
Definition noOpenBracket (s : string) : Prop :=
  allChars (fun c => negb (Ascii.eqb c "[")) s = true.

(** A label: no closing bracket, no line terminator. *)
Definition labelText (s : string) : Prop :=
  allChars (fun c => negb (Ascii.eqb c "]") && negb (isLineTerminator c)) s = true.

(** A URL: no closing parenthesis, no line terminator. *)
Definition urlText (s : string) : Prop :=
  allChars (fun c => negb (Ascii.eqb c ")") && negb (isLineTerminator c)) s = true.

(** Text in which [linkRegex] finds nothing. *)
Definition noLink (s : string) : Prop := searchFrom s 0 = None.

(** *** Runs *)

(** The text run for a non-empty piece of text, nothing for an empty one. *)
Definition textRun (s : string) : list Word.Run :=
  if isEmpty s then [] else [Word.TextRun s].

Definition runContent (r : Word.Run) : string :=
  match r with
  | Word.TextRun t => t
  | Word.ExternalHyperlink t _ => t
  end.

(** The run contents, concatenated. *)
Definition visibleText (runs : list Word.Run) : string :=
  fold_right (fun r rest => runContent r +++ rest) "" runs.

Fixpoint linkTargets (runs : list Word.Run) : list string :=
  match runs with
  | [] => []
  | Word.TextRun _ :: rest => linkTargets rest
  | Word.ExternalHyperlink _ url :: rest => url :: linkTargets rest
  end.

(** The runs the PDF sink has drawn: its [text] calls of one string and
    its [textWithLink] calls, in order. *)
Fixpoint drawnRuns (l : list Pdf.Op) : list Word.Run :=
  match l with
  | [] => []
  | Pdf.Text t _ _ :: rest => Word.TextRun t :: drawnRuns rest
  | Pdf.TextWithLink t _ _ url :: rest => Word.ExternalHyperlink t url :: drawnRuns rest
  | _ :: rest => drawnRuns rest
  end.

(** *** Sink states and lines *)

(** A sink state with [linkRegex.lastIndex] forgotten: what is left is
    everything the state holds of the document under construction. *)
Definition pdfLayout (st : Pdf.State) : Pdf.State :=
  Pdf.mkState (Pdf.ops st) (Pdf.y st) (Pdf.inTable st) (Pdf.tableHeader st)
              (Pdf.tableBody st) 0.

Definition wordLayout (st : Word.State) : Word.State :=
  Word.mkState (Word.children st) (Word.inTable st) (Word.tableRows st) 0.

(** A line that is not a table row, and the lines that are not blank, as
    the sinks test them. *)
Definition notTableLine (line : string) : Prop :=
  startsWith (trim line) "|" = false.

Definition nonBlankLines (lines : list string) : list string :=
  filter (fun l => negb (isEmpty (trim l))) lines.

(** *** Table cells *)

(** The cell of the Word table built from one trimmed field. *)
Definition wordCell (ncells nrows : nat) (text : string) : Word.TableCell :=
  fst (Word.makeCell ncells nrows text 0).

(** The text of a field as the Word sink cleans it before extracting its
    runs: [text.replace(/\*\*/g, '').replace(/<br>/g, '\n')]. *)
Definition cleanCell (text : string) : string :=
  replaceAll "<br>" (String "010" "") (replaceAll "**" "" text).

(** The row of the Word table built from one trimmed table line, when the
    table already holds [nrows] rows. *)
Definition wordRow (nrows : nat) (line : string) : Word.TableRow :=
  Word.mkTableRow
    (map (wordCell (length (pipeCells line)) nrows) (pipeCells line)).

(** The splitting rule as the specification words it: split on the pipe,
    trim each field, and drop the empty fields at the two ends only. *)
Fixpoint dropLeadingEmpty (l : list string) : list string :=
  match l with
  | [] => []
  | c :: l' => if isEmpty c then dropLeadingEmpty l' else l
  end.

Fixpoint dropTrailingEmpty (l : list string) : list string :=
  match l with
  | [] => []
  | c :: l' =>
      match dropTrailingEmpty l' with
      | [] => if isEmpty c then [] else [c]
      | t => c :: t
      end
  end.

Definition specCells (line : string) : list string :=
  dropTrailingEmpty (dropLeadingEmpty (map trim (split "|" line))).

(** *** Reading documents back *)

(** The Word document of a text, under the default file name. *)
Definition wordExport (content : string) : list Word.Node :=
  Word.sections_children (fst (Word.exportToWord content defaultFilename 0)).

Fixpoint wordTables (nodes : list Word.Node) : list (list Word.TableRow) :=
  match nodes with
  | [] => []
  | Word.NTable rows :: rest => rows :: wordTables rest
  | Word.NParagraph _ :: rest => wordTables rest
  end.

Definition cellRuns (c : Word.TableCell) : list Word.Run :=
  flat_map Word.p_children (Word.c_children c).

Definition rowTexts (r : Word.TableRow) : list string :=
  map (fun c => visibleText (cellRuns c)) (Word.r_children r).

Definition rowWidths (r : Word.TableRow) : list Q :=
  map Word.c_width (Word.r_children r).

(** The paragraphs of a Word document, title first, each with its heading
    level and its runs. *)
Fixpoint wordParagraphs (nodes : list Word.Node)
  : list (option Word.HeadingLevel * list Word.Run) :=
  match nodes with
  | [] => []
  | Word.NParagraph p :: rest =>
      (Word.p_heading p, Word.p_children p) :: wordParagraphs rest
  | Word.NTable _ :: rest => wordParagraphs rest
  end.

(** The grid tables handed to the plugin, header and body. *)
Fixpoint pdfTables (l : list Pdf.Op) : list (list string * list (list Pdf.Cell)) :=
  match l with
  | [] => []
  | Pdf.AutoTable _ head body :: rest => (head, body) :: pdfTables rest
  | _ :: rest => pdfTables rest
  end.

(** *** Sample inputs *)

(** [n] paragraphs of one letter, one per line. *)
Fixpoint paragraphs (n : nat) : string :=
  match n with
  | O => ""
  | S k => "a" +++ newline +++ paragraphs k
  end.

(** [n] table lines of one cell, one per line. *)
Fixpoint bodyRows (n : nat) : string :=
  match n with
  | O => ""
  | S k => "| r |" +++ newline +++ bodyRows k
  end.


(** ** Vocabulary of the further properties *)

(** The Markdown source of a run, and of a run sequence. *)
Definition runSource (r : Word.Run) : string :=
  match r with
  | Word.TextRun t => t
  | Word.ExternalHyperlink t url => linkSpan t url
  end.

Definition unparse (runs : list Word.Run) : string :=
  fold_right (fun r rest => runSource r +++ rest) "" runs.

(** A run that is not an empty text run. *)
Definition nonEmptyRun (r : Word.Run) : Prop :=
  match r with
  | Word.TextRun t => t <> ""
  | Word.ExternalHyperlink _ _ => True
  end.

(** Text without line terminators. *)
Definition oneLine (s : string) : Prop :=
  allChars (fun c => negb (isLineTerminator c)) s = true.


(** A call that sets a text style or draws text at the height [y], and
    nothing else (no table, no page, no line, no file). *)
Definition drawnAt (y : Q) (o : Pdf.Op) : Prop :=
  match o with
  | Pdf.SetFont _ _ | Pdf.SetFontSize _ | Pdf.SetTextColor _ _ _ => True
  | Pdf.Text _ _ y' | Pdf.TextLines _ _ y' | Pdf.TextWithLink _ _ y' _ => y' = y
  | _ => False
  end.

(** A call that draws no text, or whose text starts within the page: the
    baseline the call is given, that of its first line, lies between the
    top margin and the page-break threshold.  (The later lines of a
    paragraph wrapped over several lines are laid out below that baseline
    by jsPDF; nothing bounds them.) *)
Definition startsWithinPage (o : Pdf.Op) : Prop :=
  match o with
  | Pdf.Text _ _ y | Pdf.TextLines _ _ y | Pdf.TextWithLink _ _ y _ =>
      (20 <= y /\ y <= 270)%Q
  | _ => True
  end.

(** A line that is blank once trimmed. *)
Definition blankLine (line : string) : Prop := trim line = "".


(** Text free of the markers [cleanMarkdown] strips: asterisk, hash and
    backtick. *)
Definition markerFree (s : string) : Prop :=
  allChars (fun c => negb (Ascii.eqb c "*") && negb (Ascii.eqb c "#")
                     && negb (Ascii.eqb c "`")) s = true.

(** A table cell whose whole text is one link with a target: [[l](u)] for
    one-line [l] and [u], [u] not empty. *)
Definition linkCell (text : string) : Prop :=
  exists l u, text = linkSpan l u /\ oneLine l /\ oneLine u /\ u <> "".

(** *** Table blocks *)

(** A line that is a table row, as the sinks test it. *)
Definition tableLine (line : string) : Prop :=
  startsWith (trim line) "|" = true.

(** The rows the Word sink builds from the lines of a table block, when
    the table already holds [k] rows: separator lines give no row. *)
Fixpoint wordRowsFrom (k : nat) (lines : list string) : list Word.TableRow :=
  match lines with
  | [] => []
  | l :: ls =>
      if includes (trim l) "---" then wordRowsFrom k ls
      else wordRow k (trim l) :: wordRowsFrom (S k) ls
  end.

(** The body rows the PDF sink builds from the lines of a table block that
    follow its first line. *)
Fixpoint pdfBodyRows (lines : list string) : list (list Pdf.Cell) :=
  match lines with
  | [] => []
  | l :: ls =>
      if includes (trim l) "---" then pdfBodyRows ls
      else map Pdf.parseCellForPDF (pipeCells (trim l)) :: pdfBodyRows ls
  end.

(** The header the PDF sink builds from the first line of a table block. *)
Definition pdfHeader (line : string) : list string :=
  map (replaceAll "**" "") (pipeCells (trim line)).

(** The empty paragraph that follows every Word table. *)
Definition spacer : Word.Paragraph := Word.mkParagraph (Some "") [] None None.

(** *** Shape of the Word document *)

(** A cell of the row of index [k] that holds [ncells] cells: one plain
    paragraph, an equal share of the width, the header shade in the first
    row only. *)
Definition wellFormedCell (ncells k : nat) (c : Word.TableCell) : Prop :=
  Word.c_width c = (100 / inject_Z (Z.of_nat ncells))%Q
  /\ Word.c_fill c = (if k =? 0 then "F1F5F9" else "FFFFFF")
  /\ exists runs, Word.c_children c = [Word.mkParagraph None runs None None].

Fixpoint wellFormedRows (k : nat) (rows : list Word.TableRow) : Prop :=
  match rows with
  | [] => True
  | r :: rest =>
      Forall (wellFormedCell (length (Word.r_children r)) k) (Word.r_children r)
      /\ wellFormedRows (S k) rest
  end.

Definition wellFormedTable (rows : list Word.TableRow) : Prop :=
  rows <> [] /\ wellFormedRows 0 rows.

(** Every table is followed at once by the empty paragraph. *)
Fixpoint tablesSpaced (nodes : list Word.Node) : Prop :=
  match nodes with
  | [] => True
  | Word.NTable _ :: rest =>
      match rest with
      | Word.NParagraph p :: _ => p = spacer
      | _ => False
      end /\ tablesSpaced rest
  | Word.NParagraph _ :: rest => tablesSpaced rest
  end.

(** What every state of the Word sink satisfies. *)
Definition wordShape (st : Word.State) : Prop :=
  (exists rest, Word.children st = Word.NParagraph Word.titleParagraph :: rest)
  /\ Forall wellFormedTable (wordTables (Word.children st))
  /\ tablesSpaced (Word.children st)
  /\ wellFormedRows 0 (Word.tableRows st).


(** *** Reading a Word document back as Markdown *)

Definition headingMarker (h : option Word.HeadingLevel) : string :=
  match h with
  | Some Word.HEADING_1 => "# "
  | Some Word.HEADING_2 => "## "
  | Some Word.HEADING_3 => "### "
  | _ => ""
  end.

(** The Markdown source of a paragraph: the marker of its heading level,
    then its runs. *)
Definition paragraphSource (p : Word.Paragraph) : string :=
  headingMarker (Word.p_heading p) +++ unparse (Word.p_children p).


(** * Properties *)

(** Projections of the sink states, reduced on states given by their
    fields. *)
Ltac pdf_fields :=
  cbn [negb Pdf.ops Pdf.y Pdf.inTable Pdf.tableHeader Pdf.tableBody
       Pdf.linkRegex_lastIndex].

Ltac word_fields :=
  cbn [negb Word.children Word.inTable Word.tableRows Word.linkRegex_lastIndex].

(** ** Strings *)

Lemma append_length (a b : string) :
  String.length (a +++ b) = String.length a + String.length b.
Proof. induction a as [|c a IH]; simpl; [reflexivity | now rewrite IH]. Qed.

Lemma append_assoc (a b c : string) : (a +++ b) +++ c = a +++ (b +++ c).
Proof. induction a as [|x a IH]; simpl; [reflexivity | now rewrite IH]. Qed.

Lemma append_empty_r (a : string) : a +++ "" = a.
Proof. induction a as [|x a IH]; simpl; [reflexivity | now rewrite IH]. Qed.

Lemma drop_append (a b : string) : drop (String.length a) (a +++ b) = b.
Proof. induction a as [|x a IH]; simpl; [now destruct b | exact IH]. Qed.

Lemma drop_length (n : nat) (s : string) :
  String.length (drop n s) = String.length s - n.
Proof.
  revert s; induction n as [|n IH]; intros [|c s]; simpl; auto.
Qed.

Lemma substring_prefix (a b : string) :
  substring 0 (String.length a) (a +++ b) = a.
Proof.
  induction a as [|x a IH]; simpl; [now destruct b | now rewrite IH].
Qed.

Lemma substring_whole (n : nat) (s : string) :
  String.length s <= n -> substring 0 n s = s.
Proof.
  revert n; induction s as [|c s IH]; intros [|n] H; simpl in *;
    try reflexivity; try lia.
  now rewrite IH by lia.
Qed.

Lemma substring_length_min (n : nat) (s : string) :
  String.length (substring 0 n s) = Nat.min n (String.length s).
Proof.
  revert n; induction s as [|c s IH]; intros [|n]; simpl; auto.
Qed.

Lemma prefix_split (p s : string) :
  prefix p s = true -> s = p +++ drop (String.length p) s.
Proof.
  revert s; induction p as [|a p IH]; intros [|b s] H; simpl in *;
    try reflexivity; try discriminate.
  destruct (ascii_dec a b) as [->|]; [|discriminate].
  now rewrite <- IH.
Qed.

Lemma prefix_empty (s : string) : prefix "" s = true.
Proof. now destruct s. Qed.

Lemma isEmpty_length (s : string) : isEmpty s = (String.length s =? 0).
Proof. now destruct s. Qed.

Lemma replaceFirst_prefix (p s : string) :
  prefix p s = true -> replaceFirst p "" s = drop (String.length p) s.
Proof. intros H; destruct s; cbn [replaceFirst]; now rewrite H. Qed.

(** ** The regular expression: bounds, progress, termination *)

Lemma lazyUrl_bound (s u : string) (n : nat) :
  lazyUrl s = Some (u, n) -> 1 <= n <= String.length s.
Proof.
  revert u n; induction s as [|c s IH]; intros u n; simpl; [discriminate|].
  destruct (Ascii.eqb c ")").
  - intros [= <- <-]; lia.
  - destruct (isLineTerminator c); [discriminate|].
    destruct (lazyUrl s) as [[u' n']|]; [|discriminate].
    intros [= <- <-]. specialize (IH _ _ eq_refl). lia.
Qed.

Lemma lazyLabel_bound (s l u : string) (n : nat) :
  lazyLabel s = Some (l, u, n) -> 3 <= n <= String.length s.
Proof.
  revert l u n; induction s as [|c s IH]; intros l u n; [discriminate|].
  cbn [lazyLabel].
  destruct (if prefix "](" (String c s) then lazyUrl (drop 2 (String c s)) else None)
    as [[u' n']|] eqn:E.
  - intros [= <- <- <-].
    destruct (prefix "](" (String c s)) eqn:P; [|discriminate].
    apply lazyUrl_bound in E. rewrite drop_length in E.
    apply prefix_split in P. apply (f_equal String.length) in P.
    rewrite append_length in P. simpl in *. lia.
  - destruct (isLineTerminator c); [discriminate|].
    destruct (lazyLabel s) as [[[l' u'] n']|]; [|discriminate].
    intros [= <- <- <-]. specialize (IH _ _ _ eq_refl). simpl. lia.
Qed.

Lemma matchHere_bound (s l u : string) (n : nat) :
  matchHere s = Some (l, u, n) -> 4 <= n <= String.length s.
Proof.
  destruct s as [|c s]; simpl; [discriminate|].
  destruct (Ascii.eqb c "["); [|discriminate].
  destruct (lazyLabel s) as [[[l' u'] n']|] eqn:E; [|discriminate].
  intros [= <- <- <-]. apply lazyLabel_bound in E. lia.
Qed.

Lemma searchFrom_bound (s : string) (i : nat) (m : RegExpMatch) :
  searchFrom s i = Some m ->
  i <= index m /\ 4 <= matchLength m /\
  index m + matchLength m <= i + String.length s.
Proof.
  revert i; induction s as [|c s IH]; intros i.
  - simpl. discriminate.
  - cbn [searchFrom].
    destruct (matchHere (String c s)) as [[[l u] n]|] eqn:E.
    + intros [= <-]. apply matchHere_bound in E. simpl in *. lia.
    + intros H. apply IH in H. simpl. lia.
Qed.

Lemma exec_some (text : string) (li li' : nat) (m : RegExpMatch) :
  exec text li = (Some m, li') ->
  li' = index m + matchLength m /\ li <= index m /\ li < li' /\
  li' <= String.length text.
Proof.
  unfold exec. destruct (String.length text <? li) eqn:L; [discriminate|].
  apply Nat.ltb_ge in L.
  destruct (searchFrom (drop li text) li) as [m'|] eqn:E; [|discriminate].
  intros [= <- <-]. apply searchFrom_bound in E. rewrite drop_length in E. lia.
Qed.

Lemma exec_none (text : string) (li li' : nat) :
  exec text li = (None, li') -> li' = 0.
Proof.
  unfold exec. destruct (String.length text <? li); [now intros [= <-]|].
  destruct (searchFrom (drop li text) li); [discriminate | now intros [= <-]].
Qed.

(** The loop always ends with [exec] returning [null], which leaves
    [lastIndex] at zero: each match moves [lastIndex] forward, and it never
    passes the end of the text. *)
Lemma execLoop_terminates {A : Type} (body : RegExpMatch -> nat -> A -> A)
      (text : string) (fuel : nat) :
  forall (acc : A) (li : nat),
    1 <= fuel -> String.length text < fuel + li ->
    exists a, execLoop fuel text body acc li = Some (a, 0).
Proof.
  induction fuel as [|fuel IH]; intros acc li Hpos H; [lia|].
  cbn [execLoop]. destruct (exec text li) as [[m|] li'] eqn:E.
  - apply exec_some in E. apply IH; lia.
  - apply exec_none in E. subst li'. now exists acc.
Qed.

(** A property of the loop state that the body preserves holds when the
    loop ends. *)
Lemma execLoop_invariant {A : Type} (P : A -> Prop)
      (body : RegExpMatch -> nat -> A -> A) (text : string) :
  (forall m li a, P a -> P (body m li a)) ->
  forall fuel acc li r li',
    P acc -> execLoop fuel text body acc li = Some (r, li') -> P r.
Proof.
  intros Hbody. induction fuel as [|fuel IH]; intros acc li r li' Hacc; [discriminate|].
  cbn [execLoop]. destruct (exec text li) as [[m|] li1].
  - apply IH. now apply Hbody.
  - now intros [= <- <-].
Qed.

(** Replace the loop in the goal by its final state [r], reached with
    [lastIndex] at zero. *)
Ltac end_loop :=
  match goal with
  | |- context [execLoop ?f ?t ?b ?a ?l] =>
      let H := fresh "Hloop" in
      destruct (execLoop_terminates b t f a l) as [r H];
      [lia | lia | rewrite H]
  end.

(** The loop state does not matter to where the loop leaves [lastIndex]:
    zero.  So every function built on the loop forgets the [lastIndex] it
    was entered with. *)
Lemma parseMarkdownToDocxChildren_re (text : string) (re : nat) :
  Word.parseMarkdownToDocxChildren text re
  = (fst (Word.parseMarkdownToDocxChildren text 0), 0).
Proof.
  unfold Word.parseMarkdownToDocxChildren.
  end_loop. now destruct r.
Qed.

Lemma replaceWithGroup1_re (text : string) (re : nat) :
  replaceWithGroup1 text re = (fst (replaceWithGroup1 text 0), 0).
Proof.
  unfold replaceWithGroup1.
  end_loop. now destruct r.
Qed.

Lemma cleanMarkdown_re (md : string) (re : nat) :
  Pdf.cleanMarkdown md re = (fst (Pdf.cleanMarkdown md 0), 0).
Proof.
  unfold Pdf.cleanMarkdown. rewrite (replaceWithGroup1_re md re).
  rewrite (replaceWithGroup1_re md 0). reflexivity.
Qed.

(** ** One link in a span of text *)

Lemma lazyUrl_url (U rest : string) :
  urlText U -> lazyUrl (U +++ String ")" rest) = Some (U, S (String.length U)).
Proof.
  unfold urlText. induction U as [|c U IH]; simpl; [reflexivity|].
  intros H. apply andb_prop in H as [Hc HU].
  apply andb_prop in Hc as [Hp Ht].
  apply negb_true_iff in Hp, Ht. rewrite Hp, Ht, IH by assumption. reflexivity.
Qed.

Lemma lazyLabel_label (A U rest : string) :
  labelText A -> urlText U ->
  lazyLabel (A +++ String "]" (String "(" (U +++ String ")" rest)))
  = Some (A, U, String.length A + 2 + S (String.length U)).
Proof.
  unfold labelText. intros HA HU. induction A as [|c A IH].
  - cbn [append lazyLabel prefix drop].
    destruct (ascii_dec "]" "]"); [|congruence].
    destruct (ascii_dec "(" "("); [|congruence].
    rewrite prefix_empty, lazyUrl_url by assumption. reflexivity.
  - simpl in HA. apply andb_prop in HA as [Hc HA].
    apply andb_prop in Hc as [Hb Ht]. apply negb_true_iff in Hb, Ht.
    cbn [append lazyLabel prefix].
    destruct (ascii_dec "]" c) as [<-|]; [discriminate|].
    rewrite Ht, IH by assumption. reflexivity.
Qed.

Lemma linkSpan_append (A U rest : string) :
  linkSpan A U +++ rest
  = String "[" (A +++ String "]" (String "(" (U +++ String ")" rest))).
Proof.
  unfold linkSpan. cbn [append]. f_equal. rewrite append_assoc. f_equal.
  cbn [append]. do 2 f_equal. now rewrite append_assoc.
Qed.

Lemma linkSpan_length (A U : string) :
  String.length (linkSpan A U) = String.length A + String.length U + 4.
Proof.
  unfold linkSpan. cbn [append String.length].
  rewrite append_length. cbn [append String.length].
  rewrite append_length. simpl. lia.
Qed.

Lemma matchHere_linkSpan (A U rest : string) :
  labelText A -> urlText U ->
  matchHere (linkSpan A U +++ rest)
  = Some (A, U, String.length (linkSpan A U)).
Proof.
  intros HA HU. rewrite linkSpan_append, linkSpan_length.
  cbn [matchHere]. change (Ascii.eqb "[" "[") with true. cbv iota.
  rewrite lazyLabel_label by assumption. do 2 f_equal. lia.
Qed.

Lemma matchHere_not_bracket (c : ascii) (s : string) :
  Ascii.eqb c "[" = false -> matchHere (String c s) = None.
Proof. intros H. simpl. now rewrite H. Qed.

(** Text without an opening bracket is passed over by the search. *)
Lemma searchFrom_skip (pre s : string) (i : nat) :
  noOpenBracket pre ->
  searchFrom (pre +++ s) i = searchFrom s (i + String.length pre).
Proof.
  unfold noOpenBracket. revert i. induction pre as [|c pre IH]; intros i H.
  - simpl. now rewrite Nat.add_0_r.
  - simpl in H. apply andb_prop in H as [Hc H]. apply negb_true_iff in Hc.
    cbn [append searchFrom]. rewrite matchHere_not_bracket by assumption.
    rewrite IH by assumption. simpl. f_equal. lia.
Qed.

(** Whether the search fails does not depend on the index it starts from. *)
Lemma searchFrom_none (s : string) (i j : nat) :
  searchFrom s i = None -> searchFrom s j = None.
Proof.
  revert i j. induction s as [|c s IH]; intros i j.
  - reflexivity.
  - cbn [searchFrom]. destruct (matchHere (String c s)) as [[[l u] n]|].
    + discriminate.
    + apply IH.
Qed.

Lemma drawnRuns_app (a b : list Pdf.Op) :
  drawnRuns (a ++ b) = drawnRuns a ++ drawnRuns b.
Proof.
  induction a as [|o a IH]; [reflexivity|].
  destruct o; simpl; now rewrite IH.
Qed.

Lemma visibleText_app (a b : list Word.Run) :
  visibleText (a ++ b) = visibleText a +++ visibleText b.
Proof.
  unfold visibleText. induction a as [|r a IH]; simpl; [reflexivity|].
  now rewrite IH, append_assoc.
Qed.

Lemma visibleText_textRun (s : string) : visibleText (textRun s) = s.
Proof. destruct s; simpl; [reflexivity | now rewrite append_empty_r]. Qed.

(** A text [pre [A](U) post] in which [exec] finds the link, and nothing
    after it. *)
Section OneMatch.

Variables pre A U post : string.

Local Abbreviation text := (pre +++ linkSpan A U +++ post).
Local Abbreviation stop := (String.length pre + String.length (linkSpan A U)).
Local Abbreviation found :=
  (mkMatch (String.length pre) (String.length (linkSpan A U)) A U).

Hypothesis Hfirst : exec text 0 = (Some found, stop).
Hypothesis Hsecond : exec text stop = (None, 0).

Lemma one_link_length : String.length text = stop + String.length post.
Proof. rewrite !append_length. lia. Qed.

(** With one link the loop runs its body once. *)
Lemma one_link_execLoop {S : Type} (body : RegExpMatch -> nat -> S -> S)
      (acc : S) (fuel : nat) :
  execLoop (2 + fuel) text body acc 0 = Some (body found stop acc, 0).
Proof. cbn [execLoop Nat.add]. now rewrite Hfirst, Hsecond. Qed.

Lemma one_link_fuel : S (String.length text) = 2 + (String.length text - 1).
Proof. rewrite one_link_length, linkSpan_length. lia. Qed.

Lemma one_link_before : substring2 text 0 (String.length pre) = pre.
Proof.
  unfold substring2. rewrite Nat.min_0_l, Nat.max_0_l, Nat.sub_0_r.
  apply substring_prefix.
Qed.

Lemma one_link_after : substringFrom text stop = post.
Proof.
  unfold substringFrom. rewrite <- append_length, <- append_assoc.
  apply drop_append.
Qed.

Lemma one_link_pre_test : (0 <? String.length pre) = negb (isEmpty pre).
Proof. now destruct pre. Qed.

Lemma one_link_post_test : (stop <? String.length text) = negb (isEmpty post).
Proof.
  rewrite one_link_length. destruct post; simpl.
  - apply Nat.ltb_ge. lia.
  - apply Nat.ltb_lt. lia.
Qed.

Lemma one_link_word (re : nat) :
  Word.parseMarkdownToDocxChildren text re
  = (textRun pre ++ [Word.ExternalHyperlink A U] ++ textRun post, 0).
Proof.
  unfold Word.parseMarkdownToDocxChildren.
  rewrite one_link_fuel, one_link_execLoop. cbn [index group1 group2].
  rewrite one_link_before, one_link_after, one_link_pre_test, one_link_post_test.
  unfold textRun. destruct (isEmpty pre), (isEmpty post); reflexivity.
Qed.

Lemma one_link_replace (re : nat) :
  replaceWithGroup1 text re = (pre +++ A +++ post, 0).
Proof.
  unfold replaceWithGroup1.
  rewrite one_link_fuel, one_link_execLoop. cbn [index group1 group2].
  rewrite one_link_before, one_link_after. cbn [append].
  now rewrite append_assoc.
Qed.

Lemma one_link_split : splitParts text = [pre; A; U; post].
Proof.
  unfold splitParts.
  rewrite one_link_fuel, one_link_execLoop. cbn [index group1 group2].
  rewrite one_link_before, one_link_after. reflexivity.
Qed.

Lemma one_link_paragraph
      (pw : Q) (gtw : list Pdf.Op -> string -> Q)
      (stts : list Pdf.Op -> string -> Q -> list string) (st : Pdf.State) :
  let st' := Pdf.paragraph pw gtw stts st text in
  drawnRuns (Pdf.ops st')
  = drawnRuns (Pdf.ops st)
      ++ textRun pre ++ [Word.ExternalHyperlink A U] ++ textRun post
  /\ Pdf.y st' = (Pdf.y st + 6)%Q
  /\ Pdf.linkRegex_lastIndex st' = 0.
Proof.
  cbv zeta. unfold Pdf.paragraph.
  rewrite one_link_split.
  change (1 <? length [pre; A; U; post]) with true. cbv iota.
  rewrite one_link_fuel, one_link_execLoop.
  unfold Pdf.drawLink. cbn [index group1 group2].
  rewrite one_link_before.
  unfold Pdf.emit. cbn [Pdf.ops Pdf.y Pdf.linkRegex_lastIndex Pdf.inTable
                        Pdf.tableHeader Pdf.tableBody].
  unfold textRun.
  destruct (isEmpty pre); cbv iota beta;
    rewrite one_link_after, one_link_post_test;
    destruct (isEmpty post);
    cbn [negb Pdf.ops Pdf.y Pdf.linkRegex_lastIndex];
    repeat rewrite drawnRuns_app; cbn [drawnRuns app];
    rewrite ?app_nil_r, <- ?app_assoc; auto.
Qed.

End OneMatch.

(** A sufficient condition read off the text: no bracket opens before the
    link, the label holds no closing bracket, the URL no closing
    parenthesis, neither a line terminator, and no link follows. *)
Lemma exec_link_first (pre A U post : string) :
  noOpenBracket pre -> labelText A -> urlText U ->
  exec (pre +++ linkSpan A U +++ post) 0
  = (Some (mkMatch (String.length pre) (String.length (linkSpan A U)) A U),
     String.length pre + String.length (linkSpan A U)).
Proof.
  intros Hpre HA HU. unfold exec. cbn [Nat.ltb Nat.leb drop].
  rewrite searchFrom_skip by assumption.
  rewrite linkSpan_append. cbn [searchFrom]. rewrite <- linkSpan_append.
  rewrite matchHere_linkSpan by assumption. reflexivity.
Qed.

Lemma exec_link_second (pre A U post : string) :
  noLink post ->
  exec (pre +++ linkSpan A U +++ post)
       (String.length pre + String.length (linkSpan A U))
  = (None, 0).
Proof.
  intros Hpost. unfold exec. rewrite !append_length.
  match goal with
  | |- context [?a <? ?b] =>
      replace (a <? b) with false by (symmetry; apply Nat.ltb_ge; lia)
  end.
  rewrite <- append_length, <- append_assoc, drop_append.
  now rewrite (searchFrom_none post 0 _ Hpost).
Qed.

(** Conversely, what [exec] finds is a link of the text, at the index it
    reports. *)
Lemma substring_drop (n : nat) (s : string) : substring 0 n s +++ drop n s = s.
Proof.
  revert s; induction n as [|n IH]; intros [|c s]; simpl; try reflexivity.
  now rewrite IH.
Qed.

Lemma drop_drop (a b : nat) (s : string) : drop a (drop b s) = drop (b + a) s.
Proof.
  revert s; induction b as [|b IH]; intros s; [reflexivity|].
  destruct s as [|c s]; simpl; [now destruct a | apply IH].
Qed.

Lemma lazyUrl_sound (s u : string) (n : nat) :
  lazyUrl s = Some (u, n) ->
  s = u +++ String ")" (drop n s) /\ n = S (String.length u).
Proof.
  revert u n; induction s as [|c s IH]; intros u n; simpl; [discriminate|].
  destruct (Ascii.eqb c ")") eqn:E.
  - apply Ascii.eqb_eq in E. subst c. intros [= <- <-]. now destruct s.
  - destruct (isLineTerminator c); [discriminate|].
    destruct (lazyUrl s) as [[u' n']|]; [|discriminate].
    intros [= <- <-]. destruct (IH _ _ eq_refl) as [Hs Hn].
    simpl. split; [now rewrite <- Hs | now rewrite Hn].
Qed.

Lemma lazyLabel_sound (s l u : string) (n : nat) :
  lazyLabel s = Some (l, u, n) ->
  s = l +++ String "]" (String "(" (u +++ String ")" (drop n s)))
  /\ n = String.length l + String.length u + 3.
Proof.
  revert l u n; induction s as [|c s IH]; intros l u n; [discriminate|].
  cbn [lazyLabel].
  destruct (if prefix "](" (String c s) then lazyUrl (drop 2 (String c s)) else None)
    as [[u' n']|] eqn:E.
  - intros [= <- <- <-].
    destruct (prefix "](" (String c s)) eqn:P; [|discriminate].
    apply prefix_split in P. apply lazyUrl_sound in E as [E Hn].
    rewrite drop_drop in E. cbn [append String.length] in *.
    rewrite P at 1. cbn [append]. rewrite E at 1. split; [reflexivity | lia].
  - destruct (isLineTerminator c); [discriminate|].
    destruct (lazyLabel s) as [[[l' u'] n']|]; [|discriminate].
    intros [= <- <- <-]. destruct (IH _ _ _ eq_refl) as [Hs Hn].
    cbn [append String.length drop]. split; [now rewrite <- Hs | lia].
Qed.

Lemma matchHere_sound (s l u : string) (n : nat) :
  matchHere s = Some (l, u, n) ->
  s = linkSpan l u +++ drop n s /\ n = String.length (linkSpan l u).
Proof.
  destruct s as [|c s]; cbn [matchHere]; [discriminate|].
  destruct (Ascii.eqb c "[") eqn:E; [|discriminate].
  apply Ascii.eqb_eq in E. subst c.
  destruct (lazyLabel s) as [[[l' u'] n']|] eqn:L; [|discriminate].
  intros [= <- <- <-]. apply lazyLabel_sound in L as [Hs Hn].
  rewrite linkSpan_append, linkSpan_length. cbn [drop].
  split; [now rewrite <- Hs | lia].
Qed.

Lemma searchFrom_sound (s : string) :
  forall (i : nat) (m : RegExpMatch),
    searchFrom s i = Some m ->
    exists before,
      s = before +++ linkSpan (group1 m) (group2 m)
                 +++ drop (String.length before + matchLength m) s
      /\ index m = i + String.length before
      /\ matchLength m = String.length (linkSpan (group1 m) (group2 m)).
Proof.
  induction s as [|c s IH]; intros i m.
  - simpl. discriminate.
  - cbn [searchFrom].
    destruct (matchHere (String c s)) as [[[l u] n]|] eqn:E.
    + intros [= <-]. apply matchHere_sound in E as [Hs Hn].
      exists "". cbn [append String.length index matchLength group1 group2 Nat.add].
      repeat split; [exact Hs | lia | exact Hn].
    + intros H. apply IH in H as (before & Hs & Hi & Hn).
      exists (String c before). cbn [append String.length Nat.add drop].
      repeat split; [now rewrite <- Hs | lia | exact Hn].
Qed.

Lemma exec_sound (text : string) (m : RegExpMatch) (e : nat) :
  exec text 0 = (Some m, e) ->
  let pre := substring2 text 0 (index m) in
  let post := substringFrom text e in
  text = pre +++ linkSpan (group1 m) (group2 m) +++ post
  /\ m = mkMatch (String.length pre)
                 (String.length (linkSpan (group1 m) (group2 m)))
                 (group1 m) (group2 m)
  /\ e = String.length pre + String.length (linkSpan (group1 m) (group2 m)).
Proof.
  unfold exec. cbn [Nat.ltb Nat.leb drop].
  destruct (searchFrom text 0) as [m'|] eqn:E; [|discriminate].
  intros [= <- <-]. apply searchFrom_sound in E as (before & Hs & Hi & Hn).
  cbn [Nat.add] in Hi. cbv zeta.
  assert (Hpre : substring2 text 0 (index m') = before).
  { unfold substring2. rewrite Nat.min_0_l, Nat.max_0_l, Nat.sub_0_r, Hi.
    rewrite Hs. apply substring_prefix. }
  rewrite Hpre. unfold substringFrom. rewrite Hi.
  repeat split.
  - exact Hs.
  - destruct m' as [ix len g1 g2]. cbn in *. now subst.
  - now rewrite Hn.
Qed.

(** C6.  Round trip for a single link.  Let [linkRegex] find exactly one
    link in a span of text: a first [exec] returns a match, and the next
    one returns [null].  Then the text is the text before the match, the
    Markdown source of the link, and the text after it; the runs extracted
    by the Word sink are, in this order, a text run for the text before
    (when it is not empty), one link run holding the label and the URL, and
    a text run for the text after (when it is not empty); the PDF sink
    draws the same runs in the same order on one line; the run contents
    concatenate to the visible text (before, label, after), which is also
    what replacing the link by its label gives; and the URL is read back
    from the link run. *)
Theorem single_link_round_trip (text : string) (m : RegExpMatch) (e re : nat) :
  exec text 0 = (Some m, e) -> fst (exec text e) = None ->
  let pre := substring2 text 0 (index m) in
  let post := substringFrom text e in
  let runs :=
    textRun pre ++ [Word.ExternalHyperlink (group1 m) (group2 m)] ++ textRun post in
  text = pre +++ linkSpan (group1 m) (group2 m) +++ post
  /\ fst (Word.parseMarkdownToDocxChildren text re) = runs
  /\ (forall pw gtw stts st,
         drawnRuns (Pdf.ops (Pdf.paragraph pw gtw stts st text))
         = drawnRuns (Pdf.ops st) ++ runs)
  /\ visibleText runs = pre +++ group1 m +++ post
  /\ visibleText runs = fst (replaceWithGroup1 text re)
  /\ linkTargets runs = [group2 m].
Proof.
  intros Hfirst Hsecond pre post runs.
  destruct (exec_sound text m e Hfirst) as (Htext & Hm & He).
  fold pre in Htext, Hm, He. fold post in Htext.
  assert (Hsecond' : exec text e = (None, 0)).
  { destruct (exec text e) as [o li] eqn:E. cbn [fst] in Hsecond. subst o.
    now rewrite (exec_none _ _ _ E). }
  rewrite Hm in Hfirst. rewrite He in Hfirst, Hsecond'.
  rewrite Htext in Hfirst, Hsecond'.
  assert (Hvis : visibleText runs = pre +++ group1 m +++ post).
  { unfold runs. rewrite !visibleText_app, !visibleText_textRun.
    simpl. now rewrite append_empty_r. }
  repeat apply conj.
  - exact Htext.
  - rewrite Htext at 1. now rewrite (one_link_word _ _ _ _ Hfirst Hsecond').
  - intros pw gtw stts st. rewrite Htext at 1.
    now destruct (one_link_paragraph _ _ _ _ Hfirst Hsecond' pw gtw stts st).
  - exact Hvis.
  - rewrite Hvis. rewrite Htext at 1.
    now rewrite (one_link_replace _ _ _ _ Hfirst Hsecond').
  - unfold runs, textRun. destruct (isEmpty pre), (isEmpty post); reflexivity.
Qed.

Lemma single_link_round_trip_witness :
  let runs := [Word.TextRun "see "; Word.ExternalHyperlink "A" "http://x";
               Word.TextRun " now"] in
  "see [A](http://x) now" = "see " +++ linkSpan "A" "http://x" +++ " now"
  /\ fst (Word.parseMarkdownToDocxChildren "see [A](http://x) now" 5) = runs
  /\ (forall pw gtw stts st,
         drawnRuns (Pdf.ops (Pdf.paragraph pw gtw stts st "see [A](http://x) now"))
         = drawnRuns (Pdf.ops st) ++ runs)
  /\ visibleText runs = "see A now"
  /\ visibleText runs = fst (replaceWithGroup1 "see [A](http://x) now" 5)
  /\ linkTargets runs = ["http://x"].
Proof.
  exact (single_link_round_trip "see [A](http://x) now"
           (mkMatch 4 13 "A" "http://x") 17 5 eq_refl eq_refl).
Defined.

(** The same for a text given by its parts. *)
Lemma link_between_texts (pre A U post : string) (re : nat) :
  noOpenBracket pre -> labelText A -> urlText U -> noLink post ->
  Word.parseMarkdownToDocxChildren (pre +++ linkSpan A U +++ post) re
  = (textRun pre ++ [Word.ExternalHyperlink A U] ++ textRun post, 0).
Proof.
  intros Hpre HA HU Hpost. apply one_link_word.
  - now apply exec_link_first.
  - now apply exec_link_second.
Qed.

(** ** The shared [lastIndex] never reaches the output *)

Section PdfRegexState.

Variable pageWidth : Q.
Variable getTextWidth : list Pdf.Op -> string -> Q.
Variable splitTextToSize : list Pdf.Op -> string -> Q -> list string.
Variable lastAutoTable_finalY : list Pdf.Op -> Q.

Local Abbreviation paragraph := (Pdf.paragraph pageWidth getTextWidth splitTextToSize).
Local Abbreviation step :=
  (Pdf.step pageWidth getTextWidth splitTextToSize lastAutoTable_finalY).
Local Abbreviation run :=
  (Pdf.run pageWidth getTextWidth splitTextToSize lastAutoTable_finalY).
Local Abbreviation exportToPDF :=
  (Pdf.exportToPDF pageWidth getTextWidth splitTextToSize lastAutoTable_finalY).

(** The paragraph branch resets [lastIndex] before reading it, and leaves it
    at zero. *)
Lemma paragraph_re (o : list Pdf.Op) (y : Q) (it : bool) (th : list string)
      (tb : list (list Pdf.Cell)) (re : nat) (t : string) :
  paragraph (Pdf.mkState o y it th tb re) t
  = paragraph (Pdf.mkState o y it th tb 0) t
  /\ Pdf.linkRegex_lastIndex (paragraph (Pdf.mkState o y it th tb re) t) = 0.
Proof.
  unfold Pdf.paragraph, Pdf.emit.
  pdf_fields.
  destruct (1 <? length (splitParts t)).
  - end_loop. destruct r as [[o' cx] li]. split; reflexivity.
  - rewrite (cleanMarkdown_re t re), (cleanMarkdown_re t 0).
    split; reflexivity.
Qed.

Lemma pdf_step_layout (st : Pdf.State) (line : string) :
  pdfLayout (step st line) = pdfLayout (step (pdfLayout st) line).
Proof.
  destruct st as [o y it th tb re].
  unfold Pdf.step, pdfLayout, Pdf.pageBreak, Pdf.flushIfInTable, Pdf.flushTable,
    Pdf.emit.
  pdf_fields.
  destruct (startsWith (trim line) "|").
  - destruct (Pdf.pastThreshold y), it;
      pdf_fields;
      try reflexivity;
      destruct (includes (trim line) "---"); reflexivity.
  - destruct (startsWith (trim line) "# ");
      [|destruct (startsWith (trim line) "## ");
        [|destruct (0 <? String.length (trim line))]];
      destruct (Pdf.pastThreshold y), it;
      pdf_fields;
      try destruct (0 <? length th);
      pdf_fields;
      try reflexivity;
      match goal with
      | |- context [Pdf.paragraph _ _ _ (Pdf.mkState ?o ?y ?it ?th ?tb re) ?t] =>
          destruct (paragraph_re o y it th tb re t) as [-> _]; reflexivity
      end.
Qed.

Lemma pdf_run_layout (lines : list string) :
  forall st, pdfLayout (run st lines) = pdfLayout (run (pdfLayout st) lines).
Proof.
  induction lines as [|l lines IH]; intros st; [now destruct st|].
  cbn [Pdf.run fold_left]. fold (run (step st l) lines).
  fold (run (step (pdfLayout st) l) lines).
  rewrite IH, pdf_step_layout, <- IH. reflexivity.
Qed.

Lemma pdf_flush_layout (st : Pdf.State) :
  Pdf.ops (Pdf.flushIfInTable lastAutoTable_finalY st)
  = Pdf.ops (Pdf.flushIfInTable lastAutoTable_finalY (pdfLayout st)).
Proof.
  destruct st as [o y it th tb re].
  unfold Pdf.flushIfInTable, Pdf.flushTable, pdfLayout.
  cbn [Pdf.ops Pdf.y Pdf.inTable Pdf.tableHeader Pdf.tableBody].
  destruct it; [destruct (0 <? length th)|]; reflexivity.
Qed.

Lemma exportToPDF_re (content filename : string) (re : nat) :
  fst (exportToPDF content filename re) = fst (exportToPDF content filename 0).
Proof.
  unfold Pdf.exportToPDF. cbn [fst]. f_equal.
  rewrite pdf_flush_layout, pdf_run_layout.
  symmetry. rewrite pdf_flush_layout, pdf_run_layout. reflexivity.
Qed.

End PdfRegexState.

Lemma makeCell_re (ncells nrows : nat) (text : string) (re : nat) :
  Word.makeCell ncells nrows text re
  = (fst (Word.makeCell ncells nrows text 0), 0).
Proof.
  unfold Word.makeCell.
  rewrite (parseMarkdownToDocxChildren_re _ re), (parseMarkdownToDocxChildren_re _ 0).
  reflexivity.
Qed.

Lemma mapRe_fst {A B : Type} (f : A -> nat -> B * nat) (l : list A) :
  (forall a re, fst (f a re) = fst (f a 0)) ->
  forall re re', fst (Word.mapRe f l re) = fst (Word.mapRe f l re').
Proof.
  intros Hf. induction l as [|a l IH]; intros re re'; [reflexivity|].
  cbn [Word.mapRe].
  pose proof (Hf a re) as H1. pose proof (Hf a re') as H2.
  destruct (f a re) as [b r1], (f a re') as [b' r1'].
  cbn [fst] in H1, H2.
  specialize (IH r1 r1').
  destruct (Word.mapRe f l r1) as [bs r2], (Word.mapRe f l r1') as [bs' r2'].
  cbn [fst] in *. congruence.
Qed.

Lemma pushHeading_layout (st : Word.State) (line marker : string)
      (level : Word.HeadingLevel) (b a : nat) :
  wordLayout (Word.pushHeading st line marker level b a)
  = wordLayout (Word.pushHeading (wordLayout st) line marker level b a).
Proof.
  destruct st as [ch it rows re].
  unfold Word.pushHeading, Word.flushIfInTable, Word.flushTable, wordLayout.
  word_fields.
  destruct it;
    word_fields;
    rewrite (parseMarkdownToDocxChildren_re _ re);
    rewrite (parseMarkdownToDocxChildren_re _ 0); reflexivity.
Qed.

Lemma word_step_layout (st : Word.State) (line : string) :
  wordLayout (Word.step st line) = wordLayout (Word.step (wordLayout st) line).
Proof.
  unfold Word.step.
  destruct (startsWith (trim line) "### "); [apply pushHeading_layout|].
  destruct (startsWith (trim line) "## "); [apply pushHeading_layout|].
  destruct (startsWith (trim line) "# "); [apply pushHeading_layout|].
  destruct st as [ch it rows re].
  unfold wordLayout, Word.flushIfInTable, Word.flushTable.
  word_fields.
  destruct (startsWith (trim line) "|").
  - destruct (includes (trim line) "---"), it;
      word_fields;
      try reflexivity;
      match goal with
      | |- context [Word.mapRe ?f ?l re] =>
          pose proof (mapRe_fst f l
                        (fun a r => f_equal fst (makeCell_re _ _ a r)) re 0) as H;
          destruct (Word.mapRe f l re) as [c1 r1], (Word.mapRe f l 0) as [c2 r2];
          cbn [fst] in H; subst c2;
          word_fields;
          reflexivity
      end.
  - destruct it;
      word_fields;
      (destruct (0 <? String.length (trim line)); [|reflexivity]);
      rewrite (parseMarkdownToDocxChildren_re _ re);
      rewrite (parseMarkdownToDocxChildren_re _ 0); reflexivity.
Qed.

Lemma word_run_layout (lines : list string) :
  forall st,
    wordLayout (Word.run st lines) = wordLayout (Word.run (wordLayout st) lines).
Proof.
  induction lines as [|l lines IH]; intros st; [now destruct st|].
  cbn [Word.run fold_left]. fold (Word.run (Word.step st l) lines).
  fold (Word.run (Word.step (wordLayout st) l) lines).
  rewrite IH, word_step_layout, <- IH. reflexivity.
Qed.

Lemma word_flush_layout (st : Word.State) :
  Word.children (Word.flushIfInTable st)
  = Word.children (Word.flushIfInTable (wordLayout st)).
Proof.
  destruct st as [ch it rows re].
  unfold Word.flushIfInTable, Word.flushTable, wordLayout.
  cbn [Word.children Word.inTable Word.tableRows].
  destruct it; reflexivity.
Qed.

Lemma exportToWord_re (content filename : string) (re : nat) :
  fst (Word.exportToWord content filename re)
  = fst (Word.exportToWord content filename 0).
Proof.
  unfold Word.exportToWord. cbn [fst]. f_equal.
  rewrite word_flush_layout, word_run_layout.
  symmetry. rewrite word_flush_layout, word_run_layout. reflexivity.
Qed.

(** C9.  Determinism.  Whatever [linkRegex.lastIndex] holds when an export
    starts, the calls made on the PDF document (texts, coordinates, page
    breaks, tables, file name) are the same, and so is the Word document:
    the output is a function of the Markdown text, the file name and the
    layout backend alone.  In particular a second export of the same text,
    started in whatever state the first one left, repeats the first
    exactly. *)
Theorem export_deterministic
        (pageWidth : Q) (getTextWidth : list Pdf.Op -> string -> Q)
        (splitTextToSize : list Pdf.Op -> string -> Q -> list string)
        (lastAutoTable_finalY : list Pdf.Op -> Q)
        (content filename : string) (re re' : nat) :
  let pdf := Pdf.exportToPDF pageWidth getTextWidth splitTextToSize
                             lastAutoTable_finalY content filename in
  let word := Word.exportToWord content filename in
  fst (pdf re) = fst (pdf re')
  /\ fst (word re) = fst (word re')
  /\ fst (pdf (snd (pdf re))) = fst (pdf re)
  /\ fst (word (snd (word re))) = fst (word re)
  /\ fst (word (snd (pdf re))) = fst (word re)
  /\ fst (pdf (snd (word re))) = fst (pdf re).
Proof.
  cbv zeta.
  repeat split;
    first [ rewrite exportToPDF_re; symmetry; rewrite exportToPDF_re; reflexivity
          | rewrite exportToWord_re; symmetry; rewrite exportToWord_re; reflexivity ].
Qed.

(** ** Pagination *)

Lemma addedPages_app (a b : list Pdf.Op) :
  Pdf.addedPages (a ++ b) = Pdf.addedPages a + Pdf.addedPages b.
Proof. unfold Pdf.addedPages. now rewrite filter_app, length_app. Qed.

Lemma pastThreshold_false (y : Q) :
  Pdf.pastThreshold y = false <-> (y <= 270)%Q.
Proof.
  unfold Pdf.pastThreshold. rewrite negb_false_iff. apply Qle_bool_iff.
Qed.

Lemma pastThreshold_true (y : Q) :
  Pdf.pastThreshold y = true <-> (270 < y)%Q.
Proof.
  unfold Pdf.pastThreshold. rewrite negb_true_iff.
  split; intros H.
  - apply Qnot_le_lt. intros Hle. apply Qle_bool_iff in Hle. congruence.
  - destruct (Qle_bool y 270) eqn:E; [|reflexivity].
    apply Qle_bool_iff in E. exfalso. apply (Qlt_not_le _ _ H E).
Qed.

Lemma pageBreak_idempotent (st : Pdf.State) :
  Pdf.pageBreak (Pdf.pageBreak st) = Pdf.pageBreak st.
Proof.
  unfold Pdf.pageBreak. destruct (Pdf.pastThreshold (Pdf.y st)) eqn:E.
  - reflexivity.
  - now rewrite E.
Qed.

Section PdfPagination.

Variable pageWidth : Q.
Variable getTextWidth : list Pdf.Op -> string -> Q.
Variable splitTextToSize : list Pdf.Op -> string -> Q -> list string.
Variable lastAutoTable_finalY : list Pdf.Op -> Q.

Local Abbreviation paragraph := (Pdf.paragraph pageWidth getTextWidth splitTextToSize).
Local Abbreviation step :=
  (Pdf.step pageWidth getTextWidth splitTextToSize lastAutoTable_finalY).
Local Abbreviation run :=
  (Pdf.run pageWidth getTextWidth splitTextToSize lastAutoTable_finalY).
Local Abbreviation exportToPDF :=
  (Pdf.exportToPDF pageWidth getTextWidth splitTextToSize lastAutoTable_finalY).

(** The page-break test is made once per line, before anything else. *)
Lemma step_pageBreak (st : Pdf.State) (line : string) :
  step st line = step (Pdf.pageBreak st) line.
Proof. unfold Pdf.step. now rewrite pageBreak_idempotent. Qed.

Lemma drawLink_pages (t : string) (y : Q) (m : RegExpMatch) (li : nat)
      (acc : list Pdf.Op * Q * nat) :
  Pdf.addedPages (fst (fst (Pdf.drawLink getTextWidth t y m li acc)))
  = Pdf.addedPages (fst (fst acc)).
Proof.
  destruct acc as [[o cx] lx]. unfold Pdf.drawLink.
  destruct (isEmpty (substring2 t lx (index m))); cbn [fst];
    rewrite ?addedPages_app; cbn; lia.
Qed.

(** A paragraph draws on the current page only, leaves the table state
    alone, and moves the cursor down by two millimetres at least. *)
Lemma paragraph_effect (st : Pdf.State) (t : string) :
  Pdf.addedPages (Pdf.ops (paragraph st t)) = Pdf.addedPages (Pdf.ops st)
  /\ Pdf.inTable (paragraph st t) = Pdf.inTable st
  /\ (Pdf.y st + 2 <= Pdf.y (paragraph st t))%Q.
Proof.
  unfold Pdf.paragraph, Pdf.emit.
  pdf_fields.
  destruct (1 <? length (splitParts t)).
  - match goal with
    | |- context [execLoop ?f ?tx ?b ?a ?l] =>
        destruct (execLoop_terminates b tx f a l) as [[[o' cx] li] Hx];
          [lia | lia | rewrite Hx];
          apply (execLoop_invariant
                   (fun acc => Pdf.addedPages (fst (fst acc))
                               = Pdf.addedPages (Pdf.ops st))) in Hx
    end.
    + cbn [fst] in Hx. cbn [Pdf.ops Pdf.y Pdf.inTable].
      repeat split.
      * destruct (li <? String.length t); rewrite ?addedPages_app, Hx; cbn; lia.
      * lra.
    + intros m l a Ha. now rewrite drawLink_pages.
    + cbn [fst]. rewrite addedPages_app. cbn. lia.
  - destruct (Pdf.cleanMarkdown t (Pdf.linkRegex_lastIndex st)) as [clean re].
    cbn [Pdf.ops Pdf.y Pdf.inTable]. repeat split.
    + rewrite !addedPages_app. cbn. lia.
    + match goal with
      | |- context [inject_Z (Z.of_nat ?n)] =>
          assert (0 <= inject_Z (Z.of_nat n))%Q
            by (rewrite <- (Zle_Qle 0); apply Nat2Z.is_nonneg)
      end.
      lra.
Qed.

(** Pages are added by the page-break test and by nothing else. *)
Lemma step_pages (st : Pdf.State) (line : string) :
  Pdf.addedPages (Pdf.ops (step st line))
  = Pdf.addedPages (Pdf.ops st)
    + (if Pdf.pastThreshold (Pdf.y st) then 1 else 0).
Proof.
  destruct st as [o y it th tb re].
  unfold Pdf.step, Pdf.pageBreak, Pdf.flushIfInTable, Pdf.flushTable, Pdf.emit.
  pdf_fields.
  destruct (startsWith (trim line) "|").
  - destruct (Pdf.pastThreshold y), it;
      pdf_fields;
      try destruct (includes (trim line) "---");
      cbn [negb Pdf.ops]; rewrite ?addedPages_app; cbn; lia.
  - destruct (startsWith (trim line) "# ");
      [|destruct (startsWith (trim line) "## ");
        [|destruct (0 <? String.length (trim line))]];
      destruct (Pdf.pastThreshold y), it;
      pdf_fields;
      try destruct (0 <? length th);
      pdf_fields;
      try match goal with
        | |- context [Pdf.paragraph _ _ _ ?s ?t] =>
            destruct (paragraph_effect s t) as [-> _]
        end;
      cbn [Pdf.ops]; rewrite ?addedPages_app; cbn; lia.
Qed.

Lemma run_pages_mono (lines : list string) :
  forall st, Pdf.addedPages (Pdf.ops st) <= Pdf.addedPages (Pdf.ops (run st lines)).
Proof.
  induction lines as [|l lines IH]; intros st; [reflexivity|].
  cbn [Pdf.run fold_left]. fold (run (step st l) lines).
  specialize (IH (step st l)). rewrite step_pages in IH. lia.
Qed.

(** Outside a table and within the page, a line that is not a table row
    leaves the sink outside a table; a blank one changes nothing, and any
    other moves the cursor down by two millimetres at least. *)
Lemma step_text_line (st : Pdf.State) (line : string) :
  notTableLine line -> Pdf.inTable st = false ->
  Pdf.pastThreshold (Pdf.y st) = false ->
  Pdf.inTable (step st line) = false
  /\ (isEmpty (trim line) = true -> step st line = st)
  /\ (isEmpty (trim line) = false -> (Pdf.y st + 2 <= Pdf.y (step st line))%Q).
Proof.
  unfold notTableLine. intros Hnt Hin Hy.
  destruct st as [o y it th tb re]. cbn [Pdf.inTable Pdf.y] in Hin, Hy. subst it.
  unfold Pdf.step, Pdf.pageBreak, Pdf.flushIfInTable, Pdf.emit.
  pdf_fields.
  rewrite Hy, Hnt.
  pdf_fields.
  rewrite isEmpty_length.
  destruct (trim line) as [|c t] eqn:Et.
  - cbn. repeat split; try reflexivity; discriminate.
  - destruct (startsWith (String c t) "# ");
      [|destruct (startsWith (String c t) "## ")];
      cbn [Pdf.ops Pdf.y Pdf.inTable String.length Nat.ltb Nat.leb Nat.eqb];
      repeat split; try discriminate; try (intros _; lra).
    + match goal with
      | |- context [Pdf.paragraph _ _ _ ?s ?t] =>
          destruct (paragraph_effect s t) as (_ & -> & _)
      end. reflexivity.
    + intros _.
      match goal with
      | |- context [Pdf.paragraph _ _ _ ?s ?t] =>
          destruct (paragraph_effect s t) as (_ & _ & H)
      end. exact H.
Qed.

(** If [k] more non-blank lines would carry the cursor past the threshold,
    then [k + 1] of them force a page break. *)
Lemma enough_lines_break (lines : list string) :
  forall (st : Pdf.State) (k : nat),
    Forall notTableLine lines -> Pdf.inTable st = false ->
    S k <= length (nonBlankLines lines) ->
    (270 < Pdf.y st + 2 * inject_Z (Z.of_nat k))%Q ->
    S (Pdf.addedPages (Pdf.ops st)) <= Pdf.addedPages (Pdf.ops (run st lines)).
Proof.
  induction lines as [|l lines IH]; intros st k Hall Hin Hn Hy.
  - simpl in Hn. lia.
  - inversion Hall as [|? ? Hl Hrest]; subst.
    cbn [Pdf.run fold_left]. fold (run (step st l) lines).
    destruct (Pdf.pastThreshold (Pdf.y st)) eqn:E.
    + pose proof (run_pages_mono lines (step st l)) as H.
      rewrite step_pages, E in H. lia.
    + destruct (step_text_line st l Hl Hin E) as (Hin' & Hblank & Hmove).
      unfold nonBlankLines in Hn. cbn [filter] in Hn.
      destruct (isEmpty (trim l)) eqn:Eb; cbn [negb] in Hn.
      * rewrite (Hblank eq_refl). now apply (IH st k).
      * specialize (Hmove eq_refl). cbn [length] in Hn.
        apply pastThreshold_false in E.
        destruct k as [|k];
          [change (inject_Z (Z.of_nat 0)) with 0%Q in Hy; lra|].
        rewrite Nat2Z.inj_succ, <- Z.add_1_r, inject_Z_plus in Hy.
        assert (Hy' : (270 < Pdf.y (step st l) + 2 * inject_Z (Z.of_nat k))%Q)
          by (change (inject_Z 1) with 1%Q in Hy; lra).
        assert (Hn' : S k <= length (nonBlankLines lines)).
        { unfold nonBlankLines. lia. }
        pose proof (IH (step st l) k Hrest Hin' Hn' Hy') as H.
        rewrite step_pages in H.
        apply pastThreshold_false in E. rewrite E in H. lia.
Qed.

Lemma exportToPDF_pages (content filename : string) (re : nat) :
  Pdf.pageCount (fst (exportToPDF content filename re))
  = S (Pdf.addedPages
         (Pdf.ops (run (Pdf.init pageWidth re) (split "010" content)))).
Proof.
  unfold Pdf.exportToPDF, Pdf.pageCount. cbn [fst].
  rewrite addedPages_app. cbn [Pdf.addedPages filter Pdf.isAddPage length].
  rewrite Nat.add_0_r. f_equal.
  destruct (run (Pdf.init pageWidth re) (split "010" content)) as [o y it th tb r].
  unfold Pdf.flushIfInTable, Pdf.flushTable.
  cbn [Pdf.ops Pdf.y Pdf.inTable Pdf.tableHeader Pdf.tableBody].
  destruct it; [destruct (0 <? length th)|]; cbn [Pdf.ops]; try reflexivity.
  rewrite addedPages_app. cbn. lia.
Qed.

End PdfPagination.

(** X1.  The page-break test, as far as it goes.  It is made once per line,
    before anything is drawn for the line: a cursor past 270 adds a page and
    moves the cursor to 20, and the line is then handled from there; a
    cursor within the page is left alone; pages are added by this test and
    by nothing else.  Consequently a text without table rows that has 119
    non-blank lines at least (enough, at two millimetres a line at least,
    to carry the cursor from 35 past 270 before the last of them is drawn)
    comes out on more than one page. *)
Theorem page_break_policy
        (pageWidth : Q) (getTextWidth : list Pdf.Op -> string -> Q)
        (splitTextToSize : list Pdf.Op -> string -> Q -> list string)
        (lastAutoTable_finalY : list Pdf.Op -> Q) :
  let step := Pdf.step pageWidth getTextWidth splitTextToSize
                       lastAutoTable_finalY in
  let exportToPDF := Pdf.exportToPDF pageWidth getTextWidth splitTextToSize
                                     lastAutoTable_finalY in
  (forall st line, step st line = step (Pdf.pageBreak st) line)
  /\ (forall st, (270 < Pdf.y st)%Q ->
        Pdf.pageBreak st
        = Pdf.mkState (Pdf.ops st ++ [Pdf.AddPage]) 20 (Pdf.inTable st)
                      (Pdf.tableHeader st) (Pdf.tableBody st)
                      (Pdf.linkRegex_lastIndex st))
  /\ (forall st, (Pdf.y st <= 270)%Q -> Pdf.pageBreak st = st)
  /\ (forall st line,
        Pdf.addedPages (Pdf.ops (step st line))
        = Pdf.addedPages (Pdf.ops st)
          + (if Pdf.pastThreshold (Pdf.y st) then 1 else 0))
  /\ (forall content filename re,
        Forall notTableLine (split "010" content) ->
        119 <= length (nonBlankLines (split "010" content)) ->
        2 <= Pdf.pageCount (fst (exportToPDF content filename re))).
Proof.
  cbv zeta. repeat apply conj.
  - intros st line. apply step_pageBreak.
  - intros st H. apply pastThreshold_true in H.
    unfold Pdf.pageBreak. now rewrite H.
  - intros st H. apply pastThreshold_false in H.
    unfold Pdf.pageBreak. now rewrite H.
  - intros st line. apply step_pages.
  - intros content filename re Hall Hn.
    rewrite exportToPDF_pages.
    pose proof (enough_lines_break pageWidth getTextWidth splitTextToSize
                  lastAutoTable_finalY (split "010" content)
                  (Pdf.init pageWidth re) 118 Hall eq_refl Hn) as H.
    cbn [Pdf.init Pdf.y] in H.
    assert (Hy : (270 < 35 + 2 * inject_Z (Z.of_nat 118))%Q) by reflexivity.
    specialize (H Hy). lia.
Qed.

(** Checking the lines of a sample text by evaluation. *)
Lemma notTableLines_check (lines : list string) :
  forallb (fun l => negb (startsWith (trim l) "|")) lines = true ->
  Forall notTableLine lines.
Proof.
  intros H. apply Forall_forall. intros l Hl.
  rewrite forallb_forall in H. apply H in Hl.
  now apply negb_true_iff in Hl.
Qed.

Lemma blankLines_check (lines : list string) :
  forallb (fun l => isEmpty (trim l)) lines = true -> Forall blankLine lines.
Proof.
  intros H. apply Forall_forall. intros l Hl.
  rewrite forallb_forall in H. apply H in Hl.
  unfold blankLine. now destruct (trim l).
Qed.


Lemma page_break_policy_witness :
  2 <= Pdf.pageCount (Pdf.demoExport (paragraphs 119)).
Proof.
  refine (proj2 (proj2 (proj2 (proj2
            (page_break_policy Pdf.demoPageWidth Pdf.demoTextWidth Pdf.demoSplit
                               Pdf.demoFinalY))))
            (paragraphs 119) "extraction-report" 0 _ _).
  - apply notTableLines_check. vm_compute. reflexivity.
  - apply Nat.leb_le. vm_compute. reflexivity.
Defined.


(** ** The analysis result *)

(** C10.  Every successful call of [analyzeContent] returns a record whose
    [markdown] is its [rawText], and whose [summary] is the first 200
    characters of that text followed by three dots; when the text has 200
    characters at most the summary is the whole text followed by three
    dots. *)
Theorem analyzeContent_result (reply : Gemini.Reply) (kind : Gemini.InputKind)
        (d : Gemini.ExtractedData) :
  Gemini.analyzeContent reply kind = inl d ->
  Gemini.markdown d = Gemini.rawText d
  /\ Gemini.summary d = substring 0 200 (Gemini.rawText d) +++ "..."
  /\ (String.length (Gemini.rawText d) <= 200 ->
      Gemini.summary d = Gemini.rawText d +++ "...")
  /\ String.length (Gemini.summary d)
     = Nat.min 200 (String.length (Gemini.rawText d)) + 3.
Proof.
  destruct reply as [msg|t]; cbn [Gemini.analyzeContent]; [discriminate|].
  intros [= <-]. cbn [Gemini.markdown Gemini.rawText Gemini.summary].
  unfold substring2. rewrite Nat.min_0_l, Nat.max_0_l, Nat.sub_0_r.
  repeat split.
  - intros H. now rewrite substring_whole.
  - rewrite append_length, substring_length_min. reflexivity.
Qed.

Lemma analyzeContent_result_witness :
  let d := Gemini.mkExtractedData "# Hi" "# Hi" "# Hi..." "Web Page" in
  Gemini.markdown d = Gemini.rawText d
  /\ Gemini.summary d = substring 0 200 (Gemini.rawText d) +++ "..."
  /\ (String.length (Gemini.rawText d) <= 200 ->
      Gemini.summary d = Gemini.rawText d +++ "...")
  /\ String.length (Gemini.summary d)
     = Nat.min 200 (String.length (Gemini.rawText d)) + 3.
Proof.
  exact (analyzeContent_result
           (Gemini.Response (Some "```markdown # Hi ```")) Gemini.Url _ eq_refl).
Defined.

(** ** Table rows *)

Lemma pipe_line (t : string) :
  startsWith t "|" = true -> exists rest, t = String "|" rest.
Proof.
  unfold startsWith. intros H. apply prefix_split in H. now exists (drop 1 t).
Qed.

Lemma pipe_not_heading (t : string) :
  startsWith t "|" = true ->
  startsWith t "### " = false /\ startsWith t "## " = false
  /\ startsWith t "# " = false.
Proof. intros H. apply pipe_line in H as [rest ->]. now repeat split. Qed.

Lemma mapRe_makeCell (n k : nat) (cells : list string) :
  forall re, fst (Word.mapRe (Word.makeCell n k) cells re) = map (wordCell n k) cells.
Proof.
  induction cells as [|c cells IH]; intros re; [reflexivity|].
  cbn [Word.mapRe map]. rewrite makeCell_re.
  specialize (IH 0). destruct (Word.mapRe (Word.makeCell n k) cells 0) as [bs r].
  cbn [fst] in *. now rewrite IH.
Qed.

(** The Word sink on a table line that is not a separator: one more row,
    made of the line's own cells. *)
Lemma word_row_step (st : Word.State) (line : string) :
  startsWith (trim line) "|" = true -> includes (trim line) "---" = false ->
  let rows := if Word.inTable st then Word.tableRows st else [] in
  Word.children (Word.step st line) = Word.children st
  /\ Word.inTable (Word.step st line) = true
  /\ Word.tableRows (Word.step st line)
     = rows ++ [wordRow (length rows) (trim line)].
Proof.
  intros Hp Hs. destruct (pipe_not_heading _ Hp) as (H3 & H2 & H1).
  unfold Word.step. rewrite H3, H2, H1, Hp, Hs.
  destruct st as [ch it rows re].
  word_fields.
  unfold wordRow.
  destruct it;
    word_fields;
    match goal with
    | |- context [Word.mapRe (Word.makeCell ?n ?k) ?l ?r] =>
        pose proof (mapRe_makeCell n k l r) as H;
        destruct (Word.mapRe (Word.makeCell n k) l r) as [cs r']
    end;
    cbn [fst] in H; subst cs;
    cbn [Word.children Word.inTable Word.tableRows]; auto.
Qed.

(** The Word sink on a separator line: no row. *)
Lemma word_separator_step (st : Word.State) (line : string) :
  startsWith (trim line) "|" = true -> includes (trim line) "---" = true ->
  Word.children (Word.step st line) = Word.children st
  /\ Word.inTable (Word.step st line) = true
  /\ Word.tableRows (Word.step st line)
     = (if Word.inTable st then Word.tableRows st else []).
Proof.
  intros Hp Hs. destruct (pipe_not_heading _ Hp) as (H3 & H2 & H1).
  unfold Word.step. rewrite H3, H2, H1, Hp, Hs.
  destruct st as [ch it rows re].
  word_fields.
  destruct it; cbn; auto.
Qed.

Section PdfRows.

Variable pageWidth : Q.
Variable getTextWidth : list Pdf.Op -> string -> Q.
Variable splitTextToSize : list Pdf.Op -> string -> Q -> list string.
Variable lastAutoTable_finalY : list Pdf.Op -> Q.

Local Abbreviation step :=
  (Pdf.step pageWidth getTextWidth splitTextToSize lastAutoTable_finalY).

(** The PDF sink on the first table line of a region: it becomes the
    header, whatever it holds. *)
Lemma pdf_header_step (st : Pdf.State) (line : string) :
  startsWith (trim line) "|" = true -> Pdf.inTable st = false ->
  Pdf.inTable (step st line) = true
  /\ Pdf.tableHeader (step st line)
     = map (replaceAll "**" "") (pipeCells (trim line))
  /\ Pdf.tableBody (step st line) = Pdf.tableBody st.
Proof.
  intros Hp Hin. unfold Pdf.step. rewrite Hp.
  destruct st as [o y it th tb re]. cbn [Pdf.inTable] in Hin. subst it.
  unfold Pdf.pageBreak. cbn [Pdf.y].
  destruct (Pdf.pastThreshold y);
    cbn [negb Pdf.ops Pdf.y Pdf.inTable Pdf.tableHeader Pdf.tableBody];
    unfold pipeCells; rewrite map_map; auto.
Qed.

(** The PDF sink on a later table line: a body row made of the line's own
    cells, unless the line is a separator. *)
Lemma pdf_row_step (st : Pdf.State) (line : string) :
  startsWith (trim line) "|" = true -> Pdf.inTable st = true ->
  Pdf.inTable (step st line) = true
  /\ Pdf.tableHeader (step st line) = Pdf.tableHeader st
  /\ Pdf.tableBody (step st line)
     = Pdf.tableBody st
         ++ (if includes (trim line) "---" then []
             else [map Pdf.parseCellForPDF (pipeCells (trim line))]).
Proof.
  intros Hp Hin. unfold Pdf.step. rewrite Hp.
  destruct st as [o y it th tb re]. cbn [Pdf.inTable] in Hin. subst it.
  unfold Pdf.pageBreak. cbn [Pdf.y].
  destruct (Pdf.pastThreshold y), (includes (trim line) "---");
    cbn [negb Pdf.ops Pdf.y Pdf.inTable Pdf.tableHeader Pdf.tableBody];
    unfold pipeCells; rewrite ?map_map, ?app_nil_r; auto.
Qed.

End PdfRows.

(** ** The splitting rule *)

Lemma filter_dropLeadingEmpty (l : list string) :
  filter (fun c => negb (isEmpty c)) (dropLeadingEmpty l)
  = filter (fun c => negb (isEmpty c)) l.
Proof.
  induction l as [|c l IH]; [reflexivity|].
  cbn [dropLeadingEmpty]. destruct (isEmpty c) eqn:E.
  - rewrite IH. cbn [filter]. now rewrite E.
  - reflexivity.
Qed.

Lemma filter_dropTrailingEmpty (l : list string) :
  filter (fun c => negb (isEmpty c)) (dropTrailingEmpty l)
  = filter (fun c => negb (isEmpty c)) l.
Proof.
  induction l as [|c l IH]; [reflexivity|].
  cbn [dropTrailingEmpty filter]. rewrite <- IH.
  destruct (dropTrailingEmpty l) as [|d t].
  - destruct (isEmpty c) eqn:E; cbn [filter negb]; now rewrite ?E.
  - reflexivity.
Qed.

Lemma pipeCells_filter (line : string) :
  pipeCells line
  = filter (fun c => negb (isEmpty c)) (map trim (split "|" line)).
Proof.
  unfold pipeCells, pipeFields, nonBlank.
  induction (split "|" line) as [|f l IH]; [reflexivity|].
  cbn [filter map]. destruct (isEmpty (trim f)); cbn [negb map]; now rewrite IH.
Qed.

Lemma pipeCells_spec (line : string) :
  pipeCells line = filter (fun c => negb (isEmpty c)) (specCells line).
Proof.
  unfold specCells.
  now rewrite filter_dropTrailingEmpty, filter_dropLeadingEmpty, pipeCells_filter.
Qed.

Lemma filter_all {A : Type} (p : A -> bool) (l : list A) :
  Forall (fun a => p a = true) l -> filter p l = l.
Proof.
  induction 1 as [|a l Ha _ IH]; [reflexivity|].
  cbn [filter]. now rewrite Ha, IH.
Qed.

(** C3 (amended).  For a table line that is not a separator, in both sinks,
    the fields kept are the fields of the trimmed line that are not empty
    once trimmed: the fields of the rule "trim each field and drop the
    empty leading and trailing ones", with the empty interior ones removed
    as well.  No kept field is empty, and the two rules keep the same
    fields exactly when no interior field is empty.  Each sink builds one
    cell per kept field, in order: the Word sink the cells of its row, the
    PDF sink the strings of its header (bold markers stripped) and the
    cells of its body rows. *)
Theorem table_cells_drop_every_empty_field (line : string) :
  startsWith (trim line) "|" = true -> includes (trim line) "---" = false ->
  let cells := filter (fun c => negb (isEmpty c)) (specCells (trim line)) in
  pipeCells (trim line) = cells
  /\ Forall (fun c => c <> "") cells
  /\ (cells = specCells (trim line)
      <-> Forall (fun c => c <> "") (specCells (trim line)))
  /\ (forall st,
         let rows := if Word.inTable st then Word.tableRows st else [] in
         Word.tableRows (Word.step st line)
         = rows ++ [Word.mkTableRow (map (wordCell (length cells) (length rows)) cells)])
  /\ (forall pw gtw stts fy st,
         Pdf.inTable st = false ->
         Pdf.tableHeader (Pdf.step pw gtw stts fy st line)
         = map (replaceAll "**" "") cells)
  /\ (forall pw gtw stts fy st,
         Pdf.inTable st = true ->
         Pdf.tableBody (Pdf.step pw gtw stts fy st line)
         = Pdf.tableBody st ++ [map Pdf.parseCellForPDF cells]).
Proof.
  intros Hp Hs cells.
  assert (Hc : pipeCells (trim line) = cells) by apply pipeCells_spec.
  assert (Hne : Forall (fun c => c <> "") cells).
  { unfold cells. apply Forall_forall. intros c Hin.
    apply filter_In in Hin as [_ Hin]. intros ->. discriminate. }
  repeat apply conj.
  - exact Hc.
  - exact Hne.
  - intros H. now rewrite <- H.
  - intros H. unfold cells. apply filter_all.
    eapply Forall_impl; [|exact H]. intros c Hc'. now destruct c.
  - intros st rows. destruct (word_row_step st line Hp Hs) as (_ & _ & H).
    cbv zeta in H. unfold wordRow in H. now rewrite Hc in H.
  - intros pw gtw stts fy st Hin.
    destruct (pdf_header_step pw gtw stts fy st line Hp Hin) as (_ & H & _).
    now rewrite Hc in H.
  - intros pw gtw stts fy st Hin.
    destruct (pdf_row_step pw gtw stts fy st line Hp Hin) as (_ & _ & H).
    now rewrite Hs, Hc in H.
Qed.

Lemma table_cells_drop_every_empty_field_witness :
  pipeCells (trim " | A |  | B | ") = ["A"; "B"]
  /\ Forall (fun c => c <> "") ["A"; "B"].
Proof.
  pose proof (table_cells_drop_every_empty_field " | A |  | B | " eq_refl eq_refl)
    as H.
  exact (conj (proj1 H) (proj1 (proj2 H))).
Defined.

(** C3, as stated, fails: the empty interior field of [| A |  | B |] is
    dropped by both sinks, and [B] moves from the third column to the
    second. *)
Lemma interior_empty_field_is_dropped :
  specCells "| A |  | B |" = ["A"; ""; "B"]
  /\ pipeCells "| A |  | B |" = ["A"; "B"]
  /\ pipeCells "| A |  | B |" <> specCells "| A |  | B |"
  /\ pdfTables (Pdf.demoExport ("| X | Y | Z |" +++ newline +++ "| A |  | B |"))
     = [(["X"; "Y"; "Z"], [[Pdf.CellString "A"; Pdf.CellString "B"]])]
  /\ map (map rowTexts)
         (wordTables (wordExport ("| X | Y | Z |" +++ newline +++ "| A |  | B |")))
     = [[["X"; "Y"; "Z"]; ["A"; "B"]]].
Proof. repeat split; try reflexivity. discriminate. Qed.

(** ** Cells *)

Lemma wordCell_fields (n k : nat) (text : string) :
  Word.c_children (wordCell n k text)
  = [Word.mkParagraph None
       (fst (Word.parseMarkdownToDocxChildren
               (replaceAll "<br>" newline (replaceAll "**" "" text)) 0))
       None None]
  /\ Word.c_width (wordCell n k text) = (100 / inject_Z (Z.of_nat n))%Q
  /\ Word.c_fill (wordCell n k text) = (if k =? 0 then "F1F5F9" else "FFFFFF").
Proof.
  unfold wordCell, Word.makeCell, newline.
  destruct (Word.parseMarkdownToDocxChildren _ 0) as [runs re].
  now repeat split.
Qed.

Lemma wordRow_widths (k : nat) (t : string) :
  rowWidths (wordRow k t)
  = repeat (100 / inject_Z (Z.of_nat (length (pipeCells t))))%Q
           (length (pipeCells t)).
Proof.
  unfold rowWidths, wordRow. cbn [Word.r_children]. rewrite map_map.
  generalize (length (pipeCells t)) at 1 2. intros n.
  induction (pipeCells t) as [|c l IH]; [reflexivity|].
  cbn [map length repeat]. rewrite IH.
  now destruct (wordCell_fields n k c) as (_ & -> & _).
Qed.

(** C7 (amended).  The column count is never checked against the header: a
    body row is accepted with the cells of its own line, however many.  The
    PDF sink leaves the header as it is and hands the row to the grid-table
    plugin with exactly those cells; the Word sink adds, after the rows it
    holds, one row with exactly those cells, one cell per field of the line
    and in the same order, each holding the runs of its own field and of
    width 100 divided by the number of cells of that row.  Neither sink
    adds a cell for a missing field: in the Word document a row shorter
    than the header is split on its own count, not on the header's
    columns. *)
Theorem ragged_rows_accepted (line : string) :
  startsWith (trim line) "|" = true -> includes (trim line) "---" = false ->
  let cells := pipeCells (trim line) in
  let n := length cells in
  (forall st, Word.inTable st = true ->
      let row :=
        Word.mkTableRow
          (map (fun c =>
                  Word.mkTableCell
                    [Word.mkParagraph None
                       (fst (Word.parseMarkdownToDocxChildren
                               (replaceAll "<br>" newline (replaceAll "**" "" c))
                               0))
                       None None]
                    (100 / inject_Z (Z.of_nat n))%Q
                    (if length (Word.tableRows st) =? 0
                     then "F1F5F9" else "FFFFFF"))
               cells) in
      Word.tableRows (Word.step st line) = Word.tableRows st ++ [row]
      /\ Word.children (Word.step st line) = Word.children st
      /\ length (Word.r_children row) = n
      /\ rowWidths row = repeat (100 / inject_Z (Z.of_nat n))%Q n)
  /\ (forall pw gtw stts fy st, Pdf.inTable st = true ->
      let st' := Pdf.step pw gtw stts fy st line in
      Pdf.tableHeader st' = Pdf.tableHeader st
      /\ Pdf.tableBody st'
         = Pdf.tableBody st ++ [map Pdf.parseCellForPDF cells]
      /\ length (last (Pdf.tableBody st') []) = n).
Proof.
  intros Hp Hs cells n. split.
  - intros st Hin row.
    destruct (word_row_step st line Hp Hs) as (Hch & _ & Hrows).
    cbv zeta in Hrows. rewrite Hin in Hrows.
    assert (Hrow : wordRow (length (Word.tableRows st)) (trim line) = row).
    { unfold wordRow, row. f_equal. apply map_ext. intros c.
      destruct (wordCell_fields n (length (Word.tableRows st)) c)
        as (H1 & H2 & H3).
      fold cells. fold n.
      destruct (wordCell n (length (Word.tableRows st)) c) as [ch w f].
      cbn [Word.c_children Word.c_width Word.c_fill] in H1, H2, H3.
      now subst. }
    rewrite Hrow in Hrows.
    split; [exact Hrows | split; [exact Hch | split]].
    + unfold row. cbn [Word.r_children]. now rewrite length_map.
    + rewrite <- Hrow. apply wordRow_widths.
  - intros pw gtw stts fy st Hin st'.
    destruct (pdf_row_step pw gtw stts fy st line Hp Hin) as (_ & Hh & Hb).
    rewrite Hs in Hb. fold st' in Hh, Hb. repeat split; [exact Hh | exact Hb |].
    rewrite Hb, last_last. unfold n, cells. now rewrite length_map.
Qed.

Lemma ragged_rows_accepted_witness :
  let st := Word.mkState [] true [wordRow 0 "| A | B |"] 0 in
  Word.tableRows (Word.step st "| 1 |")
  = Word.tableRows st
      ++ [Word.mkTableRow
            [Word.mkTableCell
               [Word.mkParagraph None [Word.TextRun "1"] None None]
               (100 / 1)%Q "FFFFFF"]]
  /\ Word.children (Word.step st "| 1 |") = Word.children st.
Proof.
  intros st.
  pose proof (proj1 (ragged_rows_accepted "| 1 |" eq_refl eq_refl) st eq_refl)
    as H.
  cbv zeta in H. destruct H as (Hrows & Hch & _).
  split; [|exact Hch]. rewrite Hrows. reflexivity.
Defined.

(** C7, as stated, fails in the Word sink: under a header of two columns, a
    body row of one field is a row of one cell as wide as the table; no
    empty cell stands for the missing field, and the cell is not aligned on
    the header's first column.  The PDF sink hands the short row to the
    plugin as it is. *)
Lemma short_row_is_not_padded :
  let content := "| A | B |" +++ newline +++ "| 1 |" in
  map (map rowTexts) (wordTables (wordExport content)) = [[["A"; "B"]; ["1"]]]
  /\ map (map rowWidths) (wordTables (wordExport content))
     = [[[(100 # 2)%Q; (100 # 2)%Q]; [(100 # 1)%Q]]]
  /\ map (map rowTexts) (wordTables (wordExport content))
     <> [[["A"; "B"]; ["1"; ""]]]
  /\ pdfTables (Pdf.demoExport content)
     = [(["A"; "B"], [[Pdf.CellString "1"]])].
Proof. repeat split; try reflexivity. discriminate. Qed.

(** ** Characters of a text *)

Lemma allChars_app (p : ascii -> bool) (a b : string) :
  allChars p (a +++ b) = allChars p a && allChars p b.
Proof.
  induction a as [|c a IH]; simpl; [reflexivity|].
  now rewrite IH, andb_assoc.
Qed.

(** A pattern whose first character does not occur is never found. *)
Lemma replaceAll_absent (p0 : ascii) (pat rep s : string) :
  allChars (fun c => negb (Ascii.eqb c p0)) s = true ->
  replaceAll (String p0 pat) rep s = s.
Proof.
  unfold replaceAll. induction s as [|c s IH]; [reflexivity|].
  cbn [allChars]. intros H. apply andb_prop in H as [Hc Hs].
  apply negb_true_iff, Ascii.eqb_neq in Hc.
  cbn [replaceAllFrom prefix].
  destruct (ascii_dec p0 c) as [->|]; [congruence|].
  now rewrite IH.
Qed.

Lemma allChars_weaken (p q : ascii -> bool) (s : string) :
  (forall c, p c = true -> q c = true) ->
  allChars p s = true -> allChars q s = true.
Proof.
  intros Hpq. induction s as [|c s IH]; [reflexivity|].
  cbn [allChars]. intros H. apply andb_prop in H as [Hc Hs].
  now rewrite (Hpq _ Hc), IH.
Qed.

(** ** Headings *)

Lemma hashes3_line (t : string) :
  startsWith t "### " = true ->
  replaceFirst "### " "" t = drop 4 t.
Proof. unfold startsWith. apply replaceFirst_prefix. Qed.

(** A line that starts with four hashes and a space passes every heading
    test and the table test, and is not empty. *)
Lemma hashes4_line (t : string) :
  startsWith t "#### " = true ->
  startsWith t "### " = false /\ startsWith t "## " = false
  /\ startsWith t "# " = false /\ startsWith t "|" = false
  /\ (0 <? String.length t) = true.
Proof.
  unfold startsWith. intros H. apply prefix_split in H. rewrite H.
  now repeat split.
Qed.

Lemma word_heading3_step (st : Word.State) (line : string) :
  startsWith (trim line) "### " = true ->
  Word.children (Word.step st line)
  = Word.children (Word.flushIfInTable st)
      ++ [Word.NParagraph
            (Word.mkParagraph None
               (fst (Word.parseMarkdownToDocxChildren (drop 4 (trim line)) 0))
               (Some Word.HEADING_3)
               (Some (Word.mkSpacing (Some 200) (Some 100))))].
Proof.
  intros H. unfold Word.step. rewrite H. unfold Word.pushHeading.
  rewrite (hashes3_line _ H), parseMarkdownToDocxChildren_re.
  reflexivity.
Qed.

Lemma word_hashes4_step (st : Word.State) (line : string) :
  startsWith (trim line) "#### " = true ->
  Word.children (Word.step st line)
  = Word.children (Word.flushIfInTable st)
      ++ [Word.NParagraph
            (Word.mkParagraph None
               (fst (Word.parseMarkdownToDocxChildren (trim line) 0))
               None
               (Some (Word.mkSpacing None (Some 120))))].
Proof.
  intros H. destruct (hashes4_line _ H) as (H3 & H2 & H1 & Hp & Hlen).
  unfold Word.step. rewrite H3, H2, H1, Hp, Hlen.
  rewrite parseMarkdownToDocxChildren_re. reflexivity.
Qed.

Lemma pdf_hashes4_step (pw : Q) (gtw : list Pdf.Op -> string -> Q)
      (stts : list Pdf.Op -> string -> Q -> list string)
      (fy : list Pdf.Op -> Q) (st : Pdf.State) (line : string) :
  startsWith (trim line) "#### " = true ->
  Pdf.step pw gtw stts fy st line
  = Pdf.paragraph pw gtw stts (Pdf.flushIfInTable fy (Pdf.pageBreak st)) (trim line).
Proof.
  intros H. destruct (hashes4_line _ H) as (_ & H2 & H1 & Hp & Hlen).
  unfold Pdf.step. now rewrite H2, H1, Hp, Hlen.
Qed.

(** A line that starts with three hashes and a space passes the two
    heading tests of the PDF sink and its table test, and is not empty. *)
Lemma hashes3_pdf_line (t : string) :
  startsWith t "### " = true ->
  startsWith t "## " = false /\ startsWith t "# " = false
  /\ startsWith t "|" = false /\ (0 <? String.length t) = true.
Proof.
  unfold startsWith. intros H. apply prefix_split in H. rewrite H.
  now repeat split.
Qed.

Lemma pdf_hashes3_step (pw : Q) (gtw : list Pdf.Op -> string -> Q)
      (stts : list Pdf.Op -> string -> Q -> list string)
      (fy : list Pdf.Op -> Q) (st : Pdf.State) (line : string) :
  startsWith (trim line) "### " = true ->
  Pdf.step pw gtw stts fy st line
  = Pdf.paragraph pw gtw stts (Pdf.flushIfInTable fy (Pdf.pageBreak st)) (trim line).
Proof.
  intros H. destruct (hashes3_pdf_line _ H) as (H2 & H1 & Hp & Hlen).
  unfold Pdf.step. now rewrite H2, H1, Hp, Hlen.
Qed.

(** C1 (amended).  In the Word sink a line that starts with three hashes
    and a space is a heading paragraph of level 3 (after any open table is
    flushed), whose runs are those of the text after the marker.  In the
    PDF sink the same line is no heading: it is handled by the paragraph
    branch, marker included, whatever the layout backend.  A line that
    starts with four hashes and a space is a heading in neither sink: the
    Word sink emits it as an ordinary paragraph, with no heading level,
    whose runs are those of the whole line, marker included; the PDF sink
    handles it in its paragraph branch.  No level is mapped to another. *)
Theorem deep_headings (line : string) :
  (startsWith (trim line) "### " = true ->
   (forall st,
       Word.children (Word.step st line)
       = Word.children (Word.flushIfInTable st)
           ++ [Word.NParagraph
                 (Word.mkParagraph None
                    (fst (Word.parseMarkdownToDocxChildren (drop 4 (trim line)) 0))
                    (Some Word.HEADING_3)
                    (Some (Word.mkSpacing (Some 200) (Some 100))))])
   /\ (forall pw gtw stts fy st,
          Pdf.step pw gtw stts fy st line
          = Pdf.paragraph pw gtw stts
                          (Pdf.flushIfInTable fy (Pdf.pageBreak st))
                          (trim line)))
  /\ (startsWith (trim line) "#### " = true ->
      (forall st,
          Word.children (Word.step st line)
          = Word.children (Word.flushIfInTable st)
              ++ [Word.NParagraph
                    (Word.mkParagraph None
                       (fst (Word.parseMarkdownToDocxChildren (trim line) 0))
                       None
                       (Some (Word.mkSpacing None (Some 120))))])
      /\ (forall pw gtw stts fy st,
             Pdf.step pw gtw stts fy st line
             = Pdf.paragraph pw gtw stts
                             (Pdf.flushIfInTable fy (Pdf.pageBreak st))
                             (trim line))).
Proof.
  split.
  - intros H. split.
    + intros st. now apply word_heading3_step.
    + intros pw gtw stts fy st. now apply pdf_hashes3_step.
  - intros H. split.
    + intros st. now apply word_hashes4_step.
    + intros pw gtw stts fy st. now apply pdf_hashes4_step.
Qed.

Lemma deep_headings_witness :
  (Word.children (Word.step (Word.init 0) " ### Sub")
   = [Word.NParagraph Word.titleParagraph;
      Word.NParagraph
        (Word.mkParagraph None [Word.TextRun "Sub"] (Some Word.HEADING_3)
           (Some (Word.mkSpacing (Some 200) (Some 100))))]
   /\ Pdf.step Pdf.demoPageWidth Pdf.demoTextWidth Pdf.demoSplit
               Pdf.demoFinalY (Pdf.init Pdf.demoPageWidth 0) " ### Sub"
      = Pdf.paragraph Pdf.demoPageWidth Pdf.demoTextWidth Pdf.demoSplit
                      (Pdf.init Pdf.demoPageWidth 0) "### Sub")
  /\ Word.children (Word.step (Word.init 0) "#### Deep")
     = [Word.NParagraph Word.titleParagraph;
        Word.NParagraph
          (Word.mkParagraph None [Word.TextRun "#### Deep"] None
             (Some (Word.mkSpacing None (Some 120))))].
Proof.
  pose proof (proj1 (deep_headings " ### Sub") eq_refl) as [Hw Hp].
  split.
  - split; [exact (Hw (Word.init 0))|].
    exact (Hp Pdf.demoPageWidth Pdf.demoTextWidth Pdf.demoSplit
              Pdf.demoFinalY (Pdf.init Pdf.demoPageWidth 0)).
  - exact (proj1 (proj2 (deep_headings "#### Deep") eq_refl) (Word.init 0)).
Defined.

(** C1, as stated, fails.  In the PDF sink a line of level 3 is not
    rendered as a heading: [### Sub] is drawn as a paragraph, in the
    normal font at size 10, its hashes stripped with the other markers.  A
    line of level 4 is a heading in neither sink: the Word sink emits
    [#### Deep] as a paragraph without a heading level that keeps its
    hashes, and the PDF sink draws it as a paragraph as well. *)
Lemma deep_heading_lines_are_paragraphs :
  Pdf.demoExport "### Sub"
  = [Pdf.SetFont "helvetica" "bold"; Pdf.SetFontSize 20;
     Pdf.SetTextColor 15 23 42; Pdf.Text "DocuExtract AI Report" 14 20;
     Pdf.SetDrawColor 203 213 225; Pdf.Line 14 24 196 24;
     Pdf.SetFont "helvetica" "normal"; Pdf.SetFontSize 10;
     Pdf.SetTextColor 71 85 105; Pdf.TextLines [" Sub"] 14 35;
     Pdf.Save "extraction-report.pdf"]
  /\ wordParagraphs (wordExport "#### Deep")
     = [(Some Word.TITLE, []); (None, [Word.TextRun "#### Deep"])]
  /\ wordParagraphs (wordExport "#### Deep")
     <> [(Some Word.TITLE, []); (Some Word.HEADING_3, [Word.TextRun "Deep"])]
  /\ Pdf.demoExport "#### Deep"
     = [Pdf.SetFont "helvetica" "bold"; Pdf.SetFontSize 20;
        Pdf.SetTextColor 15 23 42; Pdf.Text "DocuExtract AI Report" 14 20;
        Pdf.SetDrawColor 203 213 225; Pdf.Line 14 24 196 24;
        Pdf.SetFont "helvetica" "normal"; Pdf.SetFontSize 10;
        Pdf.SetTextColor 71 85 105; Pdf.TextLines [" Deep"] 14 35;
        Pdf.Save "extraction-report.pdf"].
Proof. repeat split; try reflexivity. discriminate. Qed.

(** ** Separator rows and bold markers *)

(** Without a link the Word sink extracts one text run, the text as it
    is. *)
Lemma no_link_runs (text : string) (re : nat) :
  fst (exec text 0) = None ->
  Word.parseMarkdownToDocxChildren text re = (textRun text, 0).
Proof.
  intros H. unfold Word.parseMarkdownToDocxChildren. cbn [execLoop].
  destruct (exec text 0) as [o li] eqn:E. cbn [fst] in H. subst o.
  rewrite (exec_none _ _ _ E). now destruct text.
Qed.

(** C2.  The PDF sink on a table region whose first line is a separator:
    the separator is taken as the header row, whatever the layout backend.
    (A separator after the first line is dropped, and the Word sink drops
    it in every position.) *)
Theorem separator_first_becomes_pdf_header
        (pageWidth : Q) (getTextWidth : list Pdf.Op -> string -> Q)
        (splitTextToSize : list Pdf.Op -> string -> Q -> list string)
        (lastAutoTable_finalY : list Pdf.Op -> Q) :
  let export c :=
    fst (Pdf.exportToPDF pageWidth getTextWidth splitTextToSize
                         lastAutoTable_finalY c defaultFilename 0) in
  let content := "| --- | --- |" +++ newline +++ "| a | b |" in
  export content
  = Pdf.ops (Pdf.init pageWidth 0)
      ++ [Pdf.AutoTable 35 ["---"; "---"]
                        [[Pdf.CellString "a"; Pdf.CellString "b"]];
          Pdf.Save "extraction-report.pdf"]
  /\ map (map rowTexts) (wordTables (wordExport content)) = [[["a"; "b"]]]
  /\ pdfTables (export ("| h | k |" +++ newline +++ content))
     = [(["h"; "k"], [[Pdf.CellString "a"; Pdf.CellString "b"]])].
Proof. repeat split; reflexivity. Qed.

(** C5.  The Word sink on the paragraph line [**bold**]: one text run that
    still holds the bold markers.  (The PDF sink strips them from the same
    paragraph, whatever the layout backend, and the Word sink strips them
    from a table cell.) *)
Theorem word_paragraph_keeps_bold_markers
        (pageWidth : Q) (getTextWidth : list Pdf.Op -> string -> Q)
        (splitTextToSize : list Pdf.Op -> string -> Q -> list string)
        (lastAutoTable_finalY : list Pdf.Op -> Q) :
  wordParagraphs (wordExport "**bold**")
  = [(Some Word.TITLE, []); (None, [Word.TextRun "**bold**"])]
  /\ (let font :=
        Pdf.ops (Pdf.init pageWidth 0)
          ++ [Pdf.SetFont "helvetica" "normal"; Pdf.SetFontSize 10;
              Pdf.SetTextColor 71 85 105] in
      fst (Pdf.exportToPDF pageWidth getTextWidth splitTextToSize
                           lastAutoTable_finalY "**bold**" defaultFilename 0)
      = font ++ [Pdf.TextLines
                   (splitTextToSize font "bold" (pageWidth - 14 * 2)%Q) 14 35;
                 Pdf.Save "extraction-report.pdf"])
  /\ map (map rowTexts) (wordTables (wordExport "| **bold** |")) = [[["bold"]]]
  /\ wordParagraphs (wordExport "# **bold** `code`")
     = [(Some Word.TITLE, []);
        (Some Word.HEADING_1, [Word.TextRun "**bold** `code`"])].
Proof. repeat split; reflexivity. Qed.

(** * Further properties *)

(** ** More on strings *)

Lemma substring_none (n : nat) (s : string) : substring n 0 s = "".
Proof.
  revert s; induction n as [|n IH]; intros [|c s]; simpl; auto.
Qed.

Lemma substring_from (n m : nat) (s : string) :
  substring n m s = substring 0 m (drop n s).
Proof.
  revert s; induction n as [|n IH]; intros [|c s]; simpl; auto.
  now destruct m.
Qed.

Lemma drop_whole (s : string) (n : nat) :
  String.length s <= n -> drop n s = "".
Proof.
  revert n; induction s as [|c s IH]; intros [|n] H; simpl in *;
    try reflexivity; try lia.
  apply IH. lia.
Qed.

Lemma substring2_forward (s : string) (a b : nat) :
  a <= b -> substring2 s a b = substring 0 (b - a) (drop a s).
Proof.
  intros H. unfold substring2.
  rewrite Nat.min_l, Nat.max_r by lia. apply substring_from.
Qed.

Lemma substring2_length (s : string) (a b : nat) :
  a <= b -> b <= String.length s -> String.length (substring2 s a b) = b - a.
Proof.
  intros Hab Hb. rewrite substring2_forward by assumption.
  rewrite substring_length_min, drop_length. lia.
Qed.

Lemma isEmpty_false_length (s : string) :
  isEmpty s = false <-> 0 < String.length s.
Proof. destruct s; simpl; split; try discriminate; try lia; auto. Qed.

(** ** More on the loop *)

(** An invariant that may speak of [lastIndex], and may use that the match
    handed to the body is the one [exec] found from there.  When the loop
    ends, it holds at an index from which [exec] finds nothing. *)
Lemma execLoop_invariant_at {A : Type} (P : nat -> A -> Prop)
      (body : RegExpMatch -> nat -> A -> A) (text : string) :
  (forall m li li' a,
      P li a -> exec text li = (Some m, li') -> P li' (body m li' a)) ->
  forall fuel acc li r lf,
    P li acc -> execLoop fuel text body acc li = Some (r, lf) ->
    exists l, P l r /\ fst (exec text l) = None.
Proof.
  intros Hbody. induction fuel as [|fuel IH]; intros acc li r lf Hacc;
    [discriminate|].
  cbn [execLoop]. destruct (exec text li) as [[m|] li1] eqn:E.
  - apply IH. now apply (Hbody m li).
  - intros [= <- <-]. exists li. now rewrite E.
Qed.

(** Two loops over the same text run in step: a relation between their
    states that the two bodies preserve holds between their results. *)
Lemma execLoop_related {A B : Type} (R : nat -> A -> B -> Prop)
      (f : RegExpMatch -> nat -> A -> A) (g : RegExpMatch -> nat -> B -> B)
      (text : string) :
  (forall m li li' a b,
      R li a b -> exec text li = (Some m, li') ->
      R li' (f m li' a) (g m li' b)) ->
  forall fuel a b li ra lf,
    R li a b -> execLoop fuel text f a li = Some (ra, lf) ->
    exists rb l,
      execLoop fuel text g b li = Some (rb, lf)
      /\ R l ra rb /\ fst (exec text l) = None.
Proof.
  intros Hstep. induction fuel as [|fuel IH]; intros a b li ra lf Hab;
    [discriminate|].
  cbn [execLoop]. destruct (exec text li) as [[m|] li1] eqn:E.
  - apply IH. now apply (Hstep m li).
  - intros [= <- <-]. exists b, li. now rewrite E.
Qed.

(** The text from [lastIndex] on is the text up to the match, the source
    of the link, and the text from the new [lastIndex] on. *)
Lemma exec_split (text : string) (li e : nat) (m : RegExpMatch) :
  exec text li = (Some m, e) ->
  drop li text
  = substring2 text li (index m)
      +++ linkSpan (group1 m) (group2 m) +++ drop e text.
Proof.
  intros H. destruct (exec_some _ _ _ _ H) as (He & Hli & _ & _).
  unfold exec in H. destruct (String.length text <? li); [discriminate|].
  destruct (searchFrom (drop li text) li) as [m'|] eqn:E; [|discriminate].
  injection H as Hm _. subst m'.
  apply searchFrom_sound in E as (before & Hs & Hi & Hn).
  rewrite substring2_forward by assumption.
  replace (index m - li) with (String.length before) by lia.
  rewrite drop_drop in Hs.
  replace (li + (String.length before + matchLength m)) with e in Hs by lia.
  assert (Hb : substring 0 (String.length before) (drop li text) = before)
    by (rewrite Hs; apply substring_prefix).
  rewrite Hb. exact Hs.
Qed.

(** ** The runs of a text, in general *)

Lemma unparse_app (a b : list Word.Run) :
  unparse (a ++ b) = unparse a +++ unparse b.
Proof.
  unfold unparse. induction a as [|r a IH]; simpl; [reflexivity|].
  now rewrite IH, append_assoc.
Qed.

(** The text before a match, as the Word sink adds it: a text run unless
    the match starts at [lastIndex]. *)
Lemma pre_text_run (text : string) (li e : nat) (m : RegExpMatch)
      (children : list Word.Run) :
  exec text li = (Some m, e) ->
  (if li <? index m
   then children ++ [Word.TextRun (substring2 text li (index m))]
   else children)
  = children ++ textRun (substring2 text li (index m)).
Proof.
  intros H. destruct (exec_some _ _ _ _ H) as (He & Hli & _ & Hlen).
  assert (Hl : String.length (substring2 text li (index m)) = index m - li)
    by (apply substring2_length; lia).
  unfold textRun. destruct (li <? index m) eqn:E.
  - apply Nat.ltb_lt in E.
    destruct (substring2 text li (index m)); [simpl in Hl; lia | reflexivity].
  - apply Nat.ltb_ge in E.
    destruct (substring2 text li (index m)); [now rewrite app_nil_r|].
    simpl in Hl. lia.
Qed.

(** The text after the last match, as the Word sink adds it. *)
Lemma post_text_run (text : string) (li : nat) (children : list Word.Run) :
  li <= String.length text ->
  (if li <? String.length text
   then children ++ [Word.TextRun (substringFrom text li)]
   else children)
  = children ++ textRun (drop li text).
Proof.
  intros H. unfold substringFrom, textRun.
  pose proof (drop_length li text) as Hl.
  destruct (li <? String.length text) eqn:E.
  - apply Nat.ltb_lt in E.
    destruct (drop li text); [simpl in Hl; lia | reflexivity].
  - apply Nat.ltb_ge in E. rewrite drop_whole by lia. now rewrite app_nil_r.
Qed.

Lemma unparse_textRun (s : string) : unparse (textRun s) = s.
Proof. destruct s; simpl; [reflexivity | now rewrite append_empty_r]. Qed.

(** The runs of a text, written back as Markdown, are the text. *)
Lemma runs_source (text : string) (re : nat) :
  unparse (fst (Word.parseMarkdownToDocxChildren text re)) = text.
Proof.
  unfold Word.parseMarkdownToDocxChildren.
  match goal with
  | |- context [execLoop ?f ?t ?b ?a ?l] =>
      destruct (execLoop_terminates b t f a l) as [[children lastIndex] Hloop];
        [lia | lia | rewrite Hloop];
        apply (execLoop_invariant_at
                 (fun li acc =>
                    snd acc = li /\ li <= String.length text
                    /\ unparse (fst acc) +++ drop li text = text)) in Hloop
  end.
  - destruct Hloop as (l & (Hl & Hle & Hun) & _). cbn [fst snd] in *. subst l.
    rewrite post_text_run by assumption.
    now rewrite unparse_app, unparse_textRun.
  - intros m li li' [ch li0] (Hl & Hle & Hun) E. cbn [fst snd] in *.
    subst li0. destruct (exec_some _ _ _ _ E) as (_ & _ & _ & Hlen).
    repeat split; [assumption|].
    rewrite (pre_text_run _ _ _ _ _ E), !unparse_app, unparse_textRun.
    cbn [unparse fold_right runSource].
    rewrite append_empty_r, !append_assoc, <- (exec_split _ _ _ _ E).
    exact Hun.
  - cbn. repeat split; lia.
Qed.

(** X2.  Round trip from the runs back to the source.  Writing each text
    run as its text and each link run as [[label](url)], in order, gives
    the text the runs were extracted from: the extraction loses nothing,
    whatever the number of links. *)
Theorem runs_round_trip (text : string) (re : nat) :
  unparse (fst (Word.parseMarkdownToDocxChildren text re)) = text.
Proof. exact (runs_source text re). Qed.

(** X3.  The visible text of the runs.  Reading each text run as its text
    and each link run as its label, in order, gives the text with every
    link replaced by its label, as [text.replace(linkRegex, '$1')], the
    first replacement of [cleanMarkdown], computes it.  So the result of
    [cleanMarkdown] is that visible text with the other replacements
    applied: the two functions resolve the links to the same labels, and
    differ by the markers, which [cleanMarkdown] alone strips. *)
Theorem runs_visible_text (text : string) (re : nat) :
  visibleText (fst (Word.parseMarkdownToDocxChildren text re))
  = fst (replaceWithGroup1 text re)
  /\ fst (Pdf.cleanMarkdown text re)
     = replaceAll "<br>" newline
         (replaceAll "`" ""
            (replaceAll "#" ""
               (replaceAll "*" ""
                  (replaceAll "**" ""
                     (visibleText
                        (fst (Word.parseMarkdownToDocxChildren text re))))))).
Proof.
  assert (H : visibleText (fst (Word.parseMarkdownToDocxChildren text re))
              = fst (replaceWithGroup1 text re));
    [|split; [exact H|]; rewrite H; unfold Pdf.cleanMarkdown;
      now destruct (replaceWithGroup1 text re)].
  unfold Word.parseMarkdownToDocxChildren.
  match goal with
  | |- context [execLoop ?f ?t ?b ?a ?l] =>
      destruct (execLoop_terminates b t f a l) as [[children lastIndex] Hloop];
        [lia | lia | rewrite Hloop]
  end.
  unfold replaceWithGroup1.
  match goal with
  | |- context [execLoop ?f ?t ?g ?a' ?l] =>
      apply (execLoop_related
               (fun li (x : list Word.Run * nat) (y : string * nat) =>
                  snd x = li /\ snd y = li /\ li <= String.length text
                  /\ visibleText (fst x) = fst y)
               _ g t) with (b := a') in Hloop
  end.
  - destruct Hloop as ([out pos] & l & Hloop' & (Hx & Hy & Hle & Hv) & _).
    rewrite Hloop'. cbn [fst snd] in *. subst lastIndex pos.
    rewrite post_text_run by assumption.
    rewrite visibleText_app, visibleText_textRun, Hv. reflexivity.
  - intros m li li' [ch li0] [out pos] (Hx & Hy & Hle & Hv) E.
    cbn [fst snd] in *. subst li0 pos.
    destruct (exec_some _ _ _ _ E) as (_ & _ & _ & Hlen).
    repeat split; [assumption|].
    rewrite (pre_text_run _ _ _ _ _ E), !visibleText_app, visibleText_textRun.
    cbn [visibleText fold_right runContent].
    now rewrite append_empty_r, Hv, !append_assoc.
  - cbn. repeat split; lia.
Qed.

Lemma runs_shape (text : string) (re : nat) :
  Forall nonEmptyRun (fst (Word.parseMarkdownToDocxChildren text re))
  /\ (fst (Word.parseMarkdownToDocxChildren text re) = [] -> text = "").
Proof.
  assert (HtextRun : forall s, Forall nonEmptyRun (textRun s)).
  { intros [|c s]; repeat constructor. discriminate. }
  unfold Word.parseMarkdownToDocxChildren.
  match goal with
  | |- context [execLoop ?f ?t ?b ?a ?l] =>
      destruct (execLoop_terminates b t f a l) as [[children lastIndex] Hloop];
        [lia | lia | rewrite Hloop];
        apply (execLoop_invariant_at
                 (fun li acc =>
                    snd acc = li /\ li <= String.length text
                    /\ Forall nonEmptyRun (fst acc)
                    /\ (fst acc = [] -> li = 0))) in Hloop
  end.
  - destruct Hloop as (l & (Hl & Hle & Hall & Hnil) & _).
    cbn [fst snd] in *. subst l.
    rewrite post_text_run by assumption. split.
    + apply Forall_app. split; [assumption | apply HtextRun].
    + intros H. apply app_eq_nil in H as [Hc Ht].
      specialize (Hnil Hc). subst lastIndex. cbn [drop] in Ht.
      destruct text; [reflexivity | discriminate].
  - intros m li li' [ch li0] (Hl & Hle & Hall & Hnil) E.
    cbn [fst snd] in *. subst li0.
    destruct (exec_some _ _ _ _ E) as (_ & _ & _ & Hlen).
    repeat split; [assumption | |].
    + rewrite (pre_text_run _ _ _ _ _ E).
      repeat (apply Forall_app; split); auto. repeat constructor.
    + intros H. apply app_eq_nil in H as [_ H]. discriminate.
  - cbn. repeat split; auto. lia.
Qed.

(** X4.  No empty run.  The extraction never yields an empty text run, and
    it yields no run at all exactly when the text is empty. *)
Theorem runs_never_empty (text : string) (re : nat) :
  Forall nonEmptyRun (fst (Word.parseMarkdownToDocxChildren text re))
  /\ (fst (Word.parseMarkdownToDocxChildren text re) = [] <-> text = "").
Proof.
  destruct (runs_shape text re) as [Hall Hnil].
  split; [exact Hall|]. split; [exact Hnil|]. now intros ->.
Qed.

(** ** The PDF sink on a paragraph with links *)

Lemma pre_test (text : string) (li e : nat) (m : RegExpMatch) :
  exec text li = (Some m, e) ->
  (li <? index m) = negb (isEmpty (substring2 text li (index m))).
Proof.
  intros H. destruct (exec_some _ _ _ _ H) as (He & Hli & _ & Hlen).
  assert (Hl : String.length (substring2 text li (index m)) = index m - li)
    by (apply substring2_length; lia).
  destruct (substring2 text li (index m)); simpl in *.
  - apply Nat.ltb_ge. lia.
  - apply Nat.ltb_lt. lia.
Qed.

Lemma post_test (text : string) (li : nat) :
  (li <? String.length text) = negb (isEmpty (drop li text)).
Proof.
  pose proof (drop_length li text) as Hl.
  destruct (drop li text); simpl in *.
  - apply Nat.ltb_ge. lia.
  - apply Nat.ltb_lt. lia.
Qed.

(** [parts.length > 1] exactly when the text holds a link. *)
Lemma splitParts_link (text : string) :
  (1 <? length (splitParts text)) = negb (match fst (exec text 0) with
                                          | None => true
                                          | Some _ => false
                                          end).
Proof.
  unfold splitParts. cbn [execLoop].
  destruct (exec text 0) as [[m|] e] eqn:E; cbn [fst negb].
  - destruct (exec_some _ _ _ _ E) as (_ & _ & He & Hlen).
    match goal with
    | |- context [execLoop ?f ?t ?b ?a ?l] =>
        destruct (execLoop_terminates b t f a l) as [[parts pos] Hloop];
          [lia | lia | rewrite Hloop];
          apply (execLoop_invariant (fun acc => 3 <= length (fst acc))) in Hloop
    end.
    + cbn [fst] in Hloop. rewrite length_app. cbn [length].
      apply Nat.ltb_lt. lia.
    + intros m' l' [ps q] Hps. cbn [fst] in *. rewrite length_app. lia.
    + cbn. lia.
  - reflexivity.
Qed.

(** X5.  Both sinks extract the same runs.  On a paragraph that holds at
    least one link the PDF sink draws, in order and on one line, exactly
    the runs that the Word sink extracts from the same text (text runs as
    [text] calls, link runs as [textWithLink] calls), and moves the cursor
    down by six millimetres. *)
Theorem pdf_draws_word_runs
        (pageWidth : Q) (getTextWidth : list Pdf.Op -> string -> Q)
        (splitTextToSize : list Pdf.Op -> string -> Q -> list string)
        (st : Pdf.State) (text : string) :
  fst (exec text 0) <> None ->
  let st' := Pdf.paragraph pageWidth getTextWidth splitTextToSize st text in
  drawnRuns (Pdf.ops st')
  = drawnRuns (Pdf.ops st) ++ fst (Word.parseMarkdownToDocxChildren text 0)
  /\ Pdf.y st' = (Pdf.y st + 6)%Q.
Proof.
  intros Hlink. cbv zeta. unfold Pdf.paragraph.
  rewrite splitParts_link.
  destruct (fst (exec text 0)) as [m0|] eqn:E0; [|congruence]. cbn [negb].
  unfold Pdf.emit. pdf_fields.
  match goal with
  | |- context [execLoop ?f ?t ?b ?a ?l] =>
      destruct (execLoop_terminates b t f a l) as [[[ops' cx] lastIdx] Hloop];
        [lia | lia | rewrite Hloop]
  end.
  unfold Word.parseMarkdownToDocxChildren.
  match goal with
  | |- context [execLoop ?f ?t ?g ?a' ?l] =>
      apply (execLoop_related
               (fun li (x : list Pdf.Op * Q * nat) (y : list Word.Run * nat) =>
                  snd x = li /\ snd y = li /\ li <= String.length text
                  /\ drawnRuns (fst (fst x)) = drawnRuns (Pdf.ops st) ++ fst y)
               _ g t) with (b := a') in Hloop
  end.
  - destruct Hloop as ([ch li0] & l & Hloop' & (Hx & Hy & Hle & Hd) & _).
    rewrite Hloop'. cbn [fst snd] in *. subst lastIdx li0.
    pdf_fields. split; [|reflexivity].
    rewrite post_test. unfold substringFrom.
    destruct (drop l text); cbn [isEmpty negb].
    + now rewrite Hd.
    + rewrite drawnRuns_app, Hd. cbn [drawnRuns]. now rewrite <- app_assoc.
  - intros m li li' [[o x] li1] [ch li0] (Hx & Hy & Hle & Hd) E.
    cbn [fst snd] in *. subst li1 li0.
    destruct (exec_some _ _ _ _ E) as (_ & _ & _ & Hlen).
    unfold Pdf.drawLink. rewrite (pre_test _ _ _ _ E).
    destruct (substring2 text li (index m)); cbn [isEmpty negb fst snd];
      repeat split; try assumption;
      rewrite ?drawnRuns_app, Hd; cbn [drawnRuns];
      now rewrite <- ?app_assoc.
  - cbn [fst snd]. repeat split; try lia.
    rewrite drawnRuns_app. cbn [drawnRuns]. reflexivity.
Qed.

Lemma pdf_draws_word_runs_witness :
  let text := "see [A](http://x) and [B](http://y)." in
  let st' := Pdf.paragraph Pdf.demoPageWidth Pdf.demoTextWidth Pdf.demoSplit
                           (Pdf.init Pdf.demoPageWidth 0) text in
  drawnRuns (Pdf.ops st')
  = drawnRuns (Pdf.ops (Pdf.init Pdf.demoPageWidth 0))
      ++ fst (Word.parseMarkdownToDocxChildren text 0)
  /\ Pdf.y st' = (35 + 6)%Q.
Proof.
  apply (pdf_draws_word_runs Pdf.demoPageWidth Pdf.demoTextWidth Pdf.demoSplit
                             (Pdf.init Pdf.demoPageWidth 0)
                             "see [A](http://x) and [B](http://y).").
  vm_compute. discriminate.
Defined.


(** ** Texts without table rows *)

Lemma wordTables_app (a b : list Word.Node) :
  wordTables (a ++ b) = wordTables a ++ wordTables b.
Proof.
  induction a as [|n a IH]; [reflexivity|].
  destruct n; cbn [app wordTables]; now rewrite IH.
Qed.

Lemma pdfTables_app (a b : list Pdf.Op) :
  pdfTables (a ++ b) = pdfTables a ++ pdfTables b.
Proof.
  induction a as [|o a IH]; [reflexivity|].
  destruct o; cbn [app pdfTables]; now rewrite IH.
Qed.

Lemma wordTables_paragraphs (ps : list Word.Paragraph) :
  wordTables (map Word.NParagraph ps) = [].
Proof. induction ps; auto. Qed.

Lemma Word_flushIfInTable_inTable (st : Word.State) :
  Word.inTable (Word.flushIfInTable st) = false.
Proof. unfold Word.flushIfInTable. now destruct (Word.inTable st) eqn:E. Qed.

Lemma Word_flushIfInTable_lastIndex (st : Word.State) :
  Word.linkRegex_lastIndex (Word.flushIfInTable st) = Word.linkRegex_lastIndex st.
Proof. unfold Word.flushIfInTable. now destruct (Word.inTable st). Qed.

Lemma pushHeading_shape (st : Word.State) (line marker : string)
      (level : Word.HeadingLevel) (b a : nat) :
  exists p re',
    Word.pushHeading st line marker level b a
    = Word.mkState (Word.children (Word.flushIfInTable st) ++ [Word.NParagraph p])
                   false (Word.tableRows (Word.flushIfInTable st)) re'.
Proof.
  unfold Word.pushHeading.
  destruct (Word.parseMarkdownToDocxChildren _ _) as [runs re'].
  eexists _, re'. now rewrite Word_flushIfInTable_inTable.
Qed.

(** The Word sink on a line that is not a table row: the open table, if
    any, is flushed, and at most one paragraph is added; none for a blank
    line. *)
Lemma word_text_step (st : Word.State) (line : string) :
  notTableLine line ->
  exists ps re',
    Word.step st line
    = Word.mkState (Word.children (Word.flushIfInTable st)
                      ++ map Word.NParagraph ps)
                   false
                   (Word.tableRows (Word.flushIfInTable st)) re'
    /\ length ps <= 1
    /\ (blankLine line -> ps = [] /\ re' = Word.linkRegex_lastIndex st).
Proof.
  unfold notTableLine, blankLine. intros Hnt. unfold Word.step.
  destruct (startsWith (trim line) "### ") eqn:H3;
    [|destruct (startsWith (trim line) "## ") eqn:H2;
      [|destruct (startsWith (trim line) "# ") eqn:H1]].
  1-3: match goal with
       | |- context [Word.pushHeading ?s ?l ?mk ?lv ?b ?a] =>
           destruct (pushHeading_shape s l mk lv b a) as (p & re' & ->)
       end;
       exists [p], re';
       (split; [reflexivity | split; [cbn; lia|]]);
       intros Hb; rewrite Hb in *; discriminate.
  rewrite Hnt. destruct (0 <? String.length (trim line)) eqn:L.
  - destruct (Word.parseMarkdownToDocxChildren _ _) as [runs re'].
    eexists [_], re'. rewrite Word_flushIfInTable_inTable.
    split; [reflexivity | split; [cbn; lia|]].
    intros Hb; rewrite Hb in L; discriminate.
  - exists [], (Word.linkRegex_lastIndex st).
    rewrite <- (Word_flushIfInTable_lastIndex st) at 1.
    pose proof (Word_flushIfInTable_inTable st) as Hin.
    destruct (Word.flushIfInTable st) as [ch it rows re].
    cbn [Word.inTable] in Hin. subst it. cbn. rewrite app_nil_r. auto.
Qed.

Lemma pdf_flushIfInTable_out (fy : list Pdf.Op -> Q) (st : Pdf.State) :
  Pdf.inTable st = false -> Pdf.flushIfInTable fy st = st.
Proof. unfold Pdf.flushIfInTable. now intros ->. Qed.

Section PdfTextLines.

Variable pageWidth : Q.
Variable getTextWidth : list Pdf.Op -> string -> Q.
Variable splitTextToSize : list Pdf.Op -> string -> Q -> list string.
Variable lastAutoTable_finalY : list Pdf.Op -> Q.

Local Abbreviation paragraph := (Pdf.paragraph pageWidth getTextWidth splitTextToSize).
Local Abbreviation step :=
  (Pdf.step pageWidth getTextWidth splitTextToSize lastAutoTable_finalY).
Local Abbreviation run :=
  (Pdf.run pageWidth getTextWidth splitTextToSize lastAutoTable_finalY).
Local Abbreviation exportToPDF :=
  (Pdf.exportToPDF pageWidth getTextWidth splitTextToSize lastAutoTable_finalY).

(** A paragraph only sets text styles and draws text, at the height of the
    cursor. *)
Lemma paragraph_draws (st : Pdf.State) (t : string) :
  exists new,
    Pdf.ops (paragraph st t) = Pdf.ops st ++ new
    /\ Forall (drawnAt (Pdf.y st)) new.
Proof.
  unfold Pdf.paragraph, Pdf.emit. pdf_fields.
  destruct (1 <? length (splitParts t)).
  - match goal with
    | |- context [execLoop ?f ?tx ?b ?a ?l] =>
        destruct (execLoop_terminates b tx f a l) as [[[o' cx] li] Hx];
          [lia | lia | rewrite Hx];
          apply (execLoop_invariant
                   (fun acc => exists new,
                        fst (fst acc) = Pdf.ops st ++ new
                        /\ Forall (drawnAt (Pdf.y st)) new)) in Hx
    end.
    + destruct Hx as (new & Ho & Hall). cbn [fst] in Ho. subst o'. pdf_fields.
      destruct (li <? String.length t).
      * eexists. rewrite <- app_assoc. split; [reflexivity|].
        apply Forall_app. split; [assumption|]. repeat constructor.
      * now exists new.
    + intros m l [[o x] lx] (new & Ho & Hall). cbn [fst] in Ho. subst o.
      unfold Pdf.drawLink.
      destruct (isEmpty (substring2 t lx (index m))); cbn [fst];
        eexists; rewrite <- ?app_assoc; (split; [reflexivity|]);
        repeat (apply Forall_app; split); try assumption; repeat constructor.
    + cbn [fst]. eexists. split; [reflexivity|]. repeat constructor.
  - destruct (Pdf.cleanMarkdown t (Pdf.linkRegex_lastIndex st)) as [clean re].
    pdf_fields. eexists. rewrite <- app_assoc. split; [reflexivity|].
    repeat constructor.
Qed.

(** The PDF sink on a line that is not a table row, outside a table: after
    the page-break test it only sets text styles and draws text, at the
    height the test left the cursor at, and the cursor does not move up. *)
Lemma pdf_text_step (st : Pdf.State) (line : string) :
  notTableLine line -> Pdf.inTable st = false ->
  exists new,
    Pdf.ops (step st line) = Pdf.ops (Pdf.pageBreak st) ++ new
    /\ Forall (drawnAt (Pdf.y (Pdf.pageBreak st))) new
    /\ Pdf.inTable (step st line) = false
    /\ (Pdf.y (Pdf.pageBreak st) <= Pdf.y (step st line))%Q
    /\ (blankLine line -> step st line = Pdf.pageBreak st).
Proof.
  unfold blankLine. intros Hnt Hin. rewrite step_pageBreak.
  assert (Hin' : Pdf.inTable (Pdf.pageBreak st) = false).
  { unfold Pdf.pageBreak. now destruct (Pdf.pastThreshold (Pdf.y st)). }
  assert (Hy : Pdf.pastThreshold (Pdf.y (Pdf.pageBreak st)) = false).
  { unfold Pdf.pageBreak. destruct (Pdf.pastThreshold (Pdf.y st)) eqn:E;
      [reflexivity | exact E]. }
  generalize dependent (Pdf.pageBreak st). clear st Hin. intros st Hin Hy.
  destruct (step_text_line pageWidth getTextWidth splitTextToSize
              lastAutoTable_finalY st line Hnt Hin Hy) as (Hit & Hblank & Hmove).
  assert (Hpb : Pdf.pageBreak st = st)
    by (unfold Pdf.pageBreak; now rewrite Hy).
  destruct (isEmpty (trim line)) eqn:Eb.
  - rewrite (Hblank eq_refl). exists []. rewrite app_nil_r.
    repeat split; auto. apply Qle_refl.
  - specialize (Hmove eq_refl).
    assert (Hexists : exists new,
               Pdf.ops (step st line) = Pdf.ops st ++ new
               /\ Forall (drawnAt (Pdf.y st)) new).
    { unfold notTableLine in Hnt. unfold Pdf.step. rewrite Hpb, Hnt.
      rewrite pdf_flushIfInTable_out by assumption.
      destruct (startsWith (trim line) "# ");
        [|destruct (startsWith (trim line) "## ");
          [|destruct (0 <? String.length (trim line))]].
      - unfold Pdf.emit. pdf_fields. eexists. split; [reflexivity|].
        repeat constructor.
      - unfold Pdf.emit. pdf_fields. eexists. split; [reflexivity|].
        repeat constructor.
      - apply paragraph_draws.
      - exists []. now rewrite app_nil_r. }
    destruct Hexists as (new & Ho & Hall). exists new.
    repeat split; auto.
    + lra.
    + intros Hb. rewrite Hb in Eb. discriminate.
Qed.

End PdfTextLines.

(** ** The block that follows a table *)

Section PdfAfterTable.

Variable pageWidth : Q.
Variable getTextWidth : list Pdf.Op -> string -> Q.
Variable splitTextToSize : list Pdf.Op -> string -> Q -> list string.
Variable lastAutoTable_finalY : list Pdf.Op -> Q.

Local Abbreviation paragraph := (Pdf.paragraph pageWidth getTextWidth splitTextToSize).
Local Abbreviation step :=
  (Pdf.step pageWidth getTextWidth splitTextToSize lastAutoTable_finalY).

(** A heading or a paragraph drawn from the state [st], with no page-break
    test: what the callback does once the table is flushed. *)
Lemma block_draws (st : Pdf.State) (t : string) :
  let st' :=
    if startsWith t "# " then
      Pdf.emit st [Pdf.SetFont "helvetica" "bold"; Pdf.SetFontSize 16;
                   Pdf.SetTextColor 30 41 59;
                   Pdf.Text (replaceFirst "# " "" t) Pdf.margin (Pdf.y st)]
               (Pdf.y st + 10)%Q (Pdf.linkRegex_lastIndex st)
    else if startsWith t "## " then
      Pdf.emit st [Pdf.SetFont "helvetica" "bold"; Pdf.SetFontSize 14;
                   Pdf.SetTextColor 51 65 85;
                   Pdf.Text (replaceFirst "## " "" t) Pdf.margin (Pdf.y st)]
               (Pdf.y st + 8)%Q (Pdf.linkRegex_lastIndex st)
    else if 0 <? String.length t then paragraph st t
    else st in
  exists new,
    Pdf.ops st' = Pdf.ops st ++ new
    /\ Forall (drawnAt (Pdf.y st)) new
    /\ (t <> "" -> (Pdf.y st + 2 <= Pdf.y st')%Q).
Proof.
  cbv zeta.
  destruct (startsWith t "# ");
    [|destruct (startsWith t "## ");
      [|destruct (0 <? String.length t) eqn:L]].
  - unfold Pdf.emit. pdf_fields. eexists. split; [reflexivity|].
    split; [repeat constructor | intros _; lra].
  - unfold Pdf.emit. pdf_fields. eexists. split; [reflexivity|].
    split; [repeat constructor | intros _; lra].
  - destruct (paragraph_draws pageWidth getTextWidth splitTextToSize st t)
      as (new & Ho & Hall).
    exists new. split; [exact Ho | split; [exact Hall|]]. intros _.
    now destruct (paragraph_effect pageWidth getTextWidth splitTextToSize st t)
      as (_ & _ & H).
  - exists []. rewrite app_nil_r. split; [reflexivity | split; [constructor|]].
    intros Hne. destruct t; [congruence | discriminate].
Qed.

End PdfAfterTable.

(** C8.  The PDF sink on a line that directly follows a table.  The
    page-break test of the line is made before the table is flushed; the
    flush draws the table and moves the cursor to ten millimetres below
    its end, and the heading or paragraph of the line is drawn there
    without a new test: between the table and the text the sink adds no
    page, whatever the layout backend.  So when the table ends below 260
    the text is drawn past the threshold of 270. *)
Theorem text_after_table_is_not_tested
        (pageWidth : Q) (getTextWidth : list Pdf.Op -> string -> Q)
        (splitTextToSize : list Pdf.Op -> string -> Q -> list string)
        (lastAutoTable_finalY : list Pdf.Op -> Q)
        (st : Pdf.State) (line : string) :
  Pdf.inTable st = true -> Pdf.tableHeader st <> [] -> notTableLine line ->
  let start := Pdf.pageBreak st in
  let table :=
    Pdf.ops start
      ++ [Pdf.AutoTable (Pdf.y start) (Pdf.tableHeader st) (Pdf.tableBody st)] in
  let below := (lastAutoTable_finalY table + 10)%Q in
  let st' :=
    Pdf.step pageWidth getTextWidth splitTextToSize lastAutoTable_finalY
             st line in
  exists new,
    Pdf.ops st' = table ++ new
    /\ Forall (drawnAt below) new
    /\ (~ blankLine line -> (below + 2 <= Pdf.y st')%Q)
    /\ ((260 < lastAutoTable_finalY table)%Q -> Pdf.pastThreshold below = true).
Proof.
  unfold notTableLine, blankLine. intros Hin Hhead Hnt. cbv zeta.
  set (start := Pdf.pageBreak st).
  set (table := Pdf.ops start ++ [_]).
  assert (Hstart : Pdf.inTable start = true /\ Pdf.tableHeader start = Pdf.tableHeader st
                   /\ Pdf.tableBody start = Pdf.tableBody st).
  { unfold start, Pdf.pageBreak.
    destruct (Pdf.pastThreshold (Pdf.y st)); now repeat split. }
  destruct Hstart as (Hin' & Hh' & Hb').
  unfold Pdf.step. fold start. rewrite Hnt.
  unfold Pdf.flushIfInTable. rewrite Hin'. unfold Pdf.flushTable.
  rewrite Hh', Hb'.
  destruct (Pdf.tableHeader st) as [|h hs] eqn:Eh; [congruence|].
  change (0 <? length (h :: hs)) with true. cbv iota zeta. fold table.
  match goal with
  | |- context [Pdf.emit ?s _ _ _] =>
      destruct (block_draws pageWidth getTextWidth splitTextToSize s (trim line))
        as (new & Ho & Hall & Hy)
  end.
  cbv zeta in Ho, Hy. pdf_fields. cbn [Pdf.ops Pdf.y] in Ho, Hall, Hy.
  exists new. split; [exact Ho | split; [exact Hall | split]].
  - exact Hy.
  - intros H. apply pastThreshold_true. lra.
Qed.

Lemma text_after_table_is_not_tested_witness :
  let content := "| h |" +++ newline +++ bodyRows 23 +++ "para" in
  let table :=
    Pdf.ops (Pdf.init Pdf.demoPageWidth 0)
      ++ [Pdf.AutoTable 35 ["h"] (repeat [Pdf.CellString "r"] 23)] in
  Pdf.demoExport content
  = table ++ [Pdf.SetFont "helvetica" "normal"; Pdf.SetFontSize 10;
              Pdf.SetTextColor 71 85 105;
              Pdf.TextLines ["para"] 14 (Pdf.demoFinalY table + 10)%Q;
              Pdf.Save "extraction-report.pdf"]
  /\ (Pdf.demoFinalY table + 10 == 27663 # 100)%Q
  /\ Pdf.pastThreshold (Pdf.demoFinalY table + 10) = true.
Proof.
  intros content table.
  destruct (text_after_table_is_not_tested
              Pdf.demoPageWidth Pdf.demoTextWidth Pdf.demoSplit Pdf.demoFinalY
              (Pdf.run Pdf.demoPageWidth Pdf.demoTextWidth Pdf.demoSplit
                       Pdf.demoFinalY (Pdf.init Pdf.demoPageWidth 0)
                       ("| h |" :: repeat "| r |" 23))
              "para")
    as (new & _ & _ & _ & Hpast);
    [vm_compute; reflexivity | vm_compute; discriminate | reflexivity |].
  split; [vm_compute; reflexivity|].
  split; [vm_compute; reflexivity|].
  apply Hpast. vm_compute. reflexivity.
Defined.

Lemma drawnAt_within (y : Q) (new : list Pdf.Op) :
  (20 <= y)%Q -> (y <= 270)%Q ->
  Forall (drawnAt y) new -> Forall startsWithinPage new /\ pdfTables new = [].
Proof.
  intros Hlo Hhi. induction 1 as [|o new Ho _ [IH1 IH2]]; [now split|].
  split.
  - constructor; [|exact IH1].
    destruct o; cbn in *; try exact I; try contradiction; subst; now split.
  - destruct o; cbn in *; try contradiction; exact IH2.
Qed.

Lemma pageBreak_effect (st : Pdf.State) :
  (20 <= Pdf.y st)%Q ->
  (20 <= Pdf.y (Pdf.pageBreak st))%Q /\ (Pdf.y (Pdf.pageBreak st) <= 270)%Q
  /\ exists brk, Pdf.ops (Pdf.pageBreak st) = Pdf.ops st ++ brk
                 /\ Forall startsWithinPage brk /\ pdfTables brk = [].
Proof.
  intros Hy. unfold Pdf.pageBreak.
  destruct (Pdf.pastThreshold (Pdf.y st)) eqn:E; pdf_fields.
  - repeat split; try (now vm_compute).
    exists [Pdf.AddPage]. repeat split. repeat constructor.
  - apply pastThreshold_false in E. repeat split; try assumption.
    exists []. rewrite app_nil_r. now repeat split.
Qed.

Lemma Word_flushIfInTable_out (st : Word.State) :
  Word.inTable st = false -> Word.flushIfInTable st = st.
Proof. unfold Word.flushIfInTable. now intros ->. Qed.

(** Without table rows the Word sink never opens a table. *)
Lemma word_text_run (lines : list string) :
  Forall notTableLine lines ->
  forall st,
    Word.inTable st = false -> Word.tableRows st = [] ->
    wordTables (Word.children st) = [] ->
    Word.inTable (Word.run st lines) = false
    /\ Word.tableRows (Word.run st lines) = []
    /\ wordTables (Word.children (Word.run st lines)) = [].
Proof.
  induction 1 as [|l lines Hl _ IH]; intros st Hin Hrows Htab; [now repeat split|].
  cbn [Word.run fold_left]. fold (Word.run (Word.step st l) lines).
  destruct (word_text_step st l Hl) as (ps & re' & Hstep & _ & _).
  rewrite Word_flushIfInTable_out in Hstep by assumption.
  apply IH; rewrite Hstep; cbn [Word.inTable Word.tableRows Word.children];
    auto.
  now rewrite wordTables_app, Htab, wordTables_paragraphs.
Qed.

(** Blank lines leave the Word sink as it is. *)
Lemma word_blank_run (lines : list string) :
  Forall blankLine lines ->
  forall st, Word.inTable st = false -> Word.run st lines = st.
Proof.
  induction 1 as [|l lines Hl _ IH]; intros st Hin; [reflexivity|].
  cbn [Word.run fold_left]. fold (Word.run (Word.step st l) lines).
  assert (Hnt : notTableLine l) by (unfold notTableLine; now rewrite Hl).
  destruct (word_text_step st l Hnt) as (ps & re' & Hstep & _ & Hb).
  destruct (Hb Hl) as [-> ->].
  rewrite Word_flushIfInTable_out in Hstep by assumption.
  assert (Hst : Word.step st l = st).
  { rewrite Hstep. destruct st as [ch it rows re]. cbn in *. subst it.
    now rewrite app_nil_r. }
  rewrite Hst. now apply IH.
Qed.

Section PdfTextRuns.

Variable pageWidth : Q.
Variable getTextWidth : list Pdf.Op -> string -> Q.
Variable splitTextToSize : list Pdf.Op -> string -> Q -> list string.
Variable lastAutoTable_finalY : list Pdf.Op -> Q.

Local Abbreviation step :=
  (Pdf.step pageWidth getTextWidth splitTextToSize lastAutoTable_finalY).
Local Abbreviation run :=
  (Pdf.run pageWidth getTextWidth splitTextToSize lastAutoTable_finalY).
Local Abbreviation exportToPDF :=
  (Pdf.exportToPDF pageWidth getTextWidth splitTextToSize lastAutoTable_finalY).

(** Without table rows the PDF sink stays out of a table, keeps the cursor
    at or below the top margin, starts every text within the page and hands
    no table to the plugin. *)
Lemma pdf_text_run (lines : list string) :
  Forall notTableLine lines ->
  forall st,
    Pdf.inTable st = false -> (20 <= Pdf.y st)%Q ->
    Forall startsWithinPage (Pdf.ops st) -> pdfTables (Pdf.ops st) = [] ->
    Pdf.inTable (run st lines) = false
    /\ (20 <= Pdf.y (run st lines))%Q
    /\ Forall startsWithinPage (Pdf.ops (run st lines))
    /\ pdfTables (Pdf.ops (run st lines)) = [].
Proof.
  induction 1 as [|l lines Hl _ IH]; intros st Hin Hy Hall Htab;
    [now repeat split|].
  cbn [Pdf.run fold_left]. fold (run (step st l) lines).
  destruct (pdf_text_step pageWidth getTextWidth splitTextToSize
              lastAutoTable_finalY st l Hl Hin)
    as (new & Hops & Hnew & Hin' & Hmove & _).
  destruct (pageBreak_effect st Hy) as (Hlo & Hhi & brk & Hbrk & Hb1 & Hb2).
  destruct (drawnAt_within _ new Hlo Hhi Hnew) as [Hn1 Hn2].
  apply IH.
  - exact Hin'.
  - eapply Qle_trans; eassumption.
  - rewrite Hops, Hbrk. repeat (apply Forall_app; split); assumption.
  - rewrite Hops, Hbrk, !pdfTables_app, Htab, Hb2, Hn2. reflexivity.
Qed.

Lemma pdf_blank_run (lines : list string) :
  Forall blankLine lines ->
  forall st,
    Pdf.inTable st = false -> (Pdf.y st <= 270)%Q -> run st lines = st.
Proof.
  induction 1 as [|l lines Hl _ IH]; intros st Hin Hy; [reflexivity|].
  cbn [Pdf.run fold_left]. fold (run (step st l) lines).
  assert (Hnt : notTableLine l) by (unfold notTableLine; now rewrite Hl).
  destruct (pdf_text_step pageWidth getTextWidth splitTextToSize
              lastAutoTable_finalY st l Hnt Hin) as (_ & _ & _ & _ & _ & Hb).
  rewrite (Hb Hl).
  assert (Hpb : Pdf.pageBreak st = st).
  { unfold Pdf.pageBreak. apply pastThreshold_false in Hy. now rewrite Hy. }
  rewrite Hpb. now apply IH.
Qed.

End PdfTextRuns.

Lemma init_below_margin (pageWidth : Q) (re : nat) :
  (20 <= Pdf.y (Pdf.init pageWidth re))%Q.
Proof. cbn. lra. Qed.

Lemma init_above_threshold (pageWidth : Q) (re : nat) :
  (Pdf.y (Pdf.init pageWidth re) <= 270)%Q.
Proof. cbn. lra. Qed.

Lemma init_within_page (pageWidth : Q) (re : nat) :
  Forall startsWithinPage (Pdf.ops (Pdf.init pageWidth re)).
Proof. cbn. repeat constructor; cbn; lra. Qed.

(** X6.  No table row, no table.  When no line of the text starts with a
    pipe (once trimmed), neither sink emits a table: the PDF sink never
    calls the grid-table plugin, and the Word document holds no table
    node. *)
Theorem no_table_line_no_table
        (pageWidth : Q) (getTextWidth : list Pdf.Op -> string -> Q)
        (splitTextToSize : list Pdf.Op -> string -> Q -> list string)
        (lastAutoTable_finalY : list Pdf.Op -> Q)
        (content filename : string) (re : nat) :
  Forall notTableLine (split "010" content) ->
  pdfTables (fst (Pdf.exportToPDF pageWidth getTextWidth splitTextToSize
                                  lastAutoTable_finalY content filename re))
  = []
  /\ wordTables (Word.sections_children
                   (fst (Word.exportToWord content filename re))) = [].
Proof.
  intros Hall. split.
  - unfold Pdf.exportToPDF. cbn [fst].
    destruct (pdf_text_run pageWidth getTextWidth splitTextToSize
                lastAutoTable_finalY _ Hall (Pdf.init pageWidth re)
                eq_refl (init_below_margin pageWidth re)
                (init_within_page pageWidth re) eq_refl)
      as (Hin & _ & _ & Htab).
    rewrite pdf_flushIfInTable_out by assumption.
    rewrite pdfTables_app, Htab. reflexivity.
  - unfold Word.exportToWord. cbn [fst Word.sections_children].
    destruct (word_text_run _ Hall (Word.init re) eq_refl eq_refl eq_refl)
      as (Hin & _ & Htab).
    rewrite Word_flushIfInTable_out by assumption. exact Htab.
Qed.

Lemma no_table_line_no_table_witness :
  let content := "# Title" +++ newline +++ "a | b" +++ newline +++ "[x](y)" in
  pdfTables (Pdf.demoExport content) = []
  /\ wordTables (wordExport content) = [].
Proof.
  apply (no_table_line_no_table Pdf.demoPageWidth Pdf.demoTextWidth
           Pdf.demoSplit Pdf.demoFinalY
           ("# Title" +++ newline +++ "a | b" +++ newline +++ "[x](y)")
           defaultFilename 0).
  apply notTableLines_check. reflexivity.
Defined.

(** X7.  Every text block starts within the page when there is no table.
    When no line of the text is a table row, every text call of the PDF
    sink (title, headings, paragraphs, link runs) is given a baseline
    between 20 and 270: the page-break test precedes every block.  For a
    paragraph wrapped over several lines this is the baseline of its first
    line only; the sink makes no test between the lines of one paragraph,
    so the later ones can pass the threshold. *)
Theorem text_blocks_start_within_page
        (pageWidth : Q) (getTextWidth : list Pdf.Op -> string -> Q)
        (splitTextToSize : list Pdf.Op -> string -> Q -> list string)
        (lastAutoTable_finalY : list Pdf.Op -> Q)
        (content filename : string) (re : nat) :
  Forall notTableLine (split "010" content) ->
  Forall startsWithinPage
         (fst (Pdf.exportToPDF pageWidth getTextWidth splitTextToSize
                               lastAutoTable_finalY content filename re)).
Proof.
  intros Hall. unfold Pdf.exportToPDF. cbn [fst].
  destruct (pdf_text_run pageWidth getTextWidth splitTextToSize
              lastAutoTable_finalY _ Hall (Pdf.init pageWidth re)
              eq_refl (init_below_margin pageWidth re)
              (init_within_page pageWidth re) eq_refl)
    as (Hin & _ & Hw & _).
  rewrite pdf_flushIfInTable_out by assumption.
  apply Forall_app. split; [assumption|]. repeat constructor.
Qed.

Lemma text_blocks_start_within_page_witness :
  Forall startsWithinPage (Pdf.demoExport (paragraphs 40)).
Proof.
  apply (text_blocks_start_within_page Pdf.demoPageWidth Pdf.demoTextWidth
           Pdf.demoSplit Pdf.demoFinalY (paragraphs 40) defaultFilename 0).
  apply notTableLines_check. vm_compute. reflexivity.
Defined.

(** X8.  A text of blank lines only.  When every line of the text is blank
    (the empty text included), the PDF holds the title and its rule and
    nothing else, and the Word document holds the title paragraph and
    nothing else. *)
Theorem blank_text_title_only
        (pageWidth : Q) (getTextWidth : list Pdf.Op -> string -> Q)
        (splitTextToSize : list Pdf.Op -> string -> Q -> list string)
        (lastAutoTable_finalY : list Pdf.Op -> Q)
        (content filename : string) (re : nat) :
  Forall blankLine (split "010" content) ->
  Pdf.exportToPDF pageWidth getTextWidth splitTextToSize
                  lastAutoTable_finalY content filename re
  = (Pdf.ops (Pdf.init pageWidth re) ++ [Pdf.Save (filename +++ ".pdf")], re)
  /\ Word.exportToWord content filename re
     = (Word.mkOutput [Word.NParagraph Word.titleParagraph]
                      (filename +++ ".docx"), re).
Proof.
  intros Hall. split.
  - unfold Pdf.exportToPDF.
    rewrite (pdf_blank_run pageWidth getTextWidth splitTextToSize
               lastAutoTable_finalY _ Hall (Pdf.init pageWidth re)
               eq_refl (init_above_threshold pageWidth re)).
    reflexivity.
  - unfold Word.exportToWord.
    rewrite (word_blank_run _ Hall (Word.init re) eq_refl). reflexivity.
Qed.

Lemma blank_text_title_only_witness :
  let content := "  " +++ newline +++ newline +++ String "009" "" in
  Pdf.demoExport content
  = Pdf.ops (Pdf.init Pdf.demoPageWidth 0) ++ [Pdf.Save "extraction-report.pdf"]
  /\ wordExport content = [Word.NParagraph Word.titleParagraph].
Proof.
  pose proof (blank_text_title_only Pdf.demoPageWidth Pdf.demoTextWidth
                Pdf.demoSplit Pdf.demoFinalY
                ("  " +++ newline +++ newline +++ String "009" "")
                defaultFilename 0) as H.
  assert (Hb : Forall blankLine
                 (split "010" ("  " +++ newline +++ newline +++ String "009" "")))
    by (apply blankLines_check; reflexivity).
  destruct (H Hb) as [H1 H2].
  split.
  - unfold Pdf.demoExport. now rewrite H1.
  - unfold wordExport. now rewrite H2.
Defined.

(** ** Stripping markers *)

(** Replacing a one-character pattern by nothing leaves no occurrence. *)
Lemma replaceAll_char_gone (c : ascii) (s : string) :
  allChars (fun x => negb (Ascii.eqb x c)) (replaceAll (String c "") "" s)
  = true.
Proof.
  unfold replaceAll. induction s as [|x s IH]; [reflexivity|].
  cbn [replaceAllFrom prefix String.length Nat.sub append].
  destruct (ascii_dec c x) as [->|Hn].
  - rewrite prefix_empty. exact IH.
  - cbn [allChars]. rewrite IH, andb_true_r.
    apply negb_true_iff, Ascii.eqb_neq. congruence.
Qed.

(** Replacing keeps out the characters that neither the text nor the
    replacement holds. *)
Lemma replaceAllFrom_keeps (p : ascii -> bool) (pat rep : string) :
  allChars p rep = true ->
  forall (s : string) (skip : nat),
    allChars p s = true -> allChars p (replaceAllFrom pat rep skip s) = true.
Proof.
  intros Hrep. induction s as [|x s IH]; intros skip Hs; [reflexivity|].
  cbn [allChars] in Hs. apply andb_prop in Hs as [Hx Hs].
  cbn [replaceAllFrom]. destruct skip as [|k]; [|now apply IH].
  destruct (prefix pat (String x s)).
  - rewrite allChars_app, Hrep. now apply IH.
  - cbn [allChars]. rewrite Hx. now apply IH.
Qed.

Lemma replaceAll_keeps (p : ascii -> bool) (pat rep s : string) :
  allChars p rep = true -> allChars p s = true ->
  allChars p (replaceAll pat rep s) = true.
Proof.
  intros Hrep Hs. unfold replaceAll. destruct pat; [exact Hs|].
  now apply replaceAllFrom_keeps.
Qed.

Lemma allChars_and (p q : ascii -> bool) (s : string) :
  allChars (fun c => p c && q c) s = allChars p s && allChars q s.
Proof.
  induction s as [|c s IH]; [reflexivity|]. cbn [allChars]. rewrite IH.
  destruct (p c), (q c), (allChars p s), (allChars q s); reflexivity.
Qed.

(** A pattern that does not occur is never replaced. *)
Lemma replaceAll_not_included (pat rep s : string) :
  includes s pat = false -> replaceAll pat rep s = s.
Proof.
  unfold replaceAll. destruct pat as [|p0 pat]; [reflexivity|].
  induction s as [|c s IH]; [reflexivity|].
  intros H. cbn [includes] in H. apply orb_false_iff in H as [Hp Hs].
  cbn [replaceAllFrom]. rewrite Hp. now rewrite IH.
Qed.

Lemma no_link_replace (text : string) (re : nat) :
  fst (exec text 0) = None -> replaceWithGroup1 text re = (text, 0).
Proof.
  intros H. unfold replaceWithGroup1. cbn [execLoop].
  destruct (exec text 0) as [o li] eqn:E. cbn [fst] in H. subst o.
  now rewrite (exec_none _ _ _ E).
Qed.

(** X9.  What [cleanMarkdown] leaves.  The cleaned text holds no asterisk,
    no hash and no backtick, whatever the text; and a text that holds none
    of them, no link and no [<br>] is returned as it is. *)
Theorem cleanMarkdown_strips_markers (md : string) (re : nat) :
  markerFree (fst (Pdf.cleanMarkdown md re))
  /\ (fst (exec md 0) = None -> markerFree md -> includes md "<br>" = false ->
      fst (Pdf.cleanMarkdown md re) = md).
Proof.
  unfold Pdf.cleanMarkdown.
  destruct (replaceWithGroup1 md re) as [s re'] eqn:E. cbn [fst].
  split.
  - unfold markerFree. rewrite !allChars_and.
    repeat (apply andb_true_intro; split).
    + do 3 (apply replaceAll_keeps; [reflexivity|]).
      apply replaceAll_char_gone.
    + do 2 (apply replaceAll_keeps; [reflexivity|]).
      apply replaceAll_char_gone.
    + apply replaceAll_keeps; [reflexivity|].
      apply replaceAll_char_gone.
  - intros Hno Hfree Hbr. rewrite (no_link_replace md re Hno) in E.
    injection E as <- <-.
    unfold markerFree in Hfree. rewrite !allChars_and in Hfree.
    apply andb_prop in Hfree as [Hfree Htick].
    apply andb_prop in Hfree as [Hstar Hhash].
    rewrite (replaceAll_absent "*" "*" "" md Hstar).
    rewrite (replaceAll_absent "*" "" "" md Hstar).
    rewrite (replaceAll_absent "#" "" "" md Hhash).
    rewrite (replaceAll_absent "`" "" "" md Htick).
    now apply replaceAll_not_included.
Qed.

Lemma cleanMarkdown_strips_markers_witness :
  markerFree (fst (Pdf.cleanMarkdown "a < b, (c) [d]" 5))
  /\ fst (Pdf.cleanMarkdown "a < b, (c) [d]" 5) = "a < b, (c) [d]".
Proof.
  destruct (cleanMarkdown_strips_markers "a < b, (c) [d]" 5) as [H1 H2].
  split; [exact H1|]. apply H2; reflexivity.
Defined.

(** ** Cells of the PDF table *)

Lemma lazyUrlEnd_sound (s u : string) :
  Pdf.lazyUrlEnd s = Some u -> s = u +++ ")" /\ oneLine u.
Proof.
  unfold oneLine. revert u. induction s as [|c s IH]; intros u H; [discriminate|].
  cbn [Pdf.lazyUrlEnd] in H.
  destruct (Ascii.eqb c ")" && isEmpty s) eqn:E.
  - injection H as <-. apply andb_prop in E as [Ec Es].
    apply Ascii.eqb_eq in Ec. destruct s; [|discriminate]. now subst c.
  - destruct (isLineTerminator c) eqn:T; [discriminate|].
    destruct (Pdf.lazyUrlEnd s) as [u'|]; [|discriminate].
    injection H as <-. destruct (IH u' eq_refl) as [-> Hu].
    cbn [append allChars]. now rewrite T, Hu.
Qed.

Lemma lazyLabelEnd_sound (s l u : string) :
  Pdf.lazyLabelEnd s = Some (l, u) ->
  s = l +++ "](" +++ u +++ ")" /\ oneLine l /\ oneLine u.
Proof.
  unfold oneLine. revert l. induction s as [|c s IH]; intros l H; [discriminate|].
  cbn [Pdf.lazyLabelEnd] in H.
  destruct (if prefix "](" (String c s) then Pdf.lazyUrlEnd (drop 2 (String c s))
            else None) as [u0|] eqn:E.
  - injection H as <- <-.
    destruct (prefix "](" (String c s)) eqn:P; [|discriminate].
    apply prefix_split in P. rewrite P.
    apply lazyUrlEnd_sound in E as [E Hu].
    change (String.length "](") with 2. rewrite E.
    now repeat split.
  - destruct (isLineTerminator c) eqn:T; [discriminate|].
    destruct (Pdf.lazyLabelEnd s) as [[l' u']|]; [|discriminate].
    injection H as <- <-. destruct (IH l' eq_refl) as (-> & Hl & Hu).
    cbn [append allChars]. rewrite T, Hl. now repeat split.
Qed.

Lemma lazyUrlEnd_complete (u : string) :
  oneLine u -> Pdf.lazyUrlEnd (u +++ ")") = Some u.
Proof.
  unfold oneLine. induction u as [|c u IH]; [reflexivity|].
  cbn [allChars append Pdf.lazyUrlEnd]. intros H.
  apply andb_prop in H as [Hc Hu]. apply negb_true_iff in Hc.
  assert (He : isEmpty (u +++ ")") = false) by now destruct u.
  now rewrite He, andb_false_r, Hc, IH.
Qed.

(** The label group is lazy: of all the ways to read the text as a link,
    the match takes the one with the shortest label. *)
Lemma lazyLabelEnd_complete (l u : string) :
  oneLine l -> oneLine u ->
  exists l' u',
    Pdf.lazyLabelEnd (l +++ String "]" (String "(" (u +++ ")"))) = Some (l', u')
    /\ String.length l' <= String.length l.
Proof.
  unfold oneLine. intros Hl Hu. induction l as [|c l IH].
  - exists "", u. cbn [append Pdf.lazyLabelEnd prefix drop].
    destruct (ascii_dec "]" "]"); [|congruence].
    destruct (ascii_dec "(" "("); [|congruence].
    rewrite prefix_empty, lazyUrlEnd_complete by assumption. now split.
  - cbn [allChars] in Hl. apply andb_prop in Hl as [Hc Hl].
    apply negb_true_iff in Hc.
    cbn [append Pdf.lazyLabelEnd].
    destruct (if prefix "](" _ then _ else None) as [u0|].
    + exists "", u0. split; [reflexivity|]. cbn. lia.
    + rewrite Hc. destruct (IH Hl) as (l' & u' & -> & Hlen).
      exists (String c l'), u'. split; [reflexivity|]. cbn. lia.
Qed.

Lemma linkSpan_cons (l u : string) :
  linkSpan l u = String "[" (l +++ "](" +++ u +++ ")").
Proof. reflexivity. Qed.

Lemma wholeCellLink_sound (text l u : string) :
  Pdf.wholeCellLink text = Some (l, u) ->
  text = linkSpan l u /\ oneLine l /\ oneLine u.
Proof.
  unfold Pdf.wholeCellLink. destruct text as [|c s]; [discriminate|].
  destruct (Ascii.eqb c "[") eqn:E; [|discriminate].
  apply Ascii.eqb_eq in E. subst c. intros H.
  apply lazyLabelEnd_sound in H as (-> & Hl & Hu). now repeat split.
Qed.

Lemma wholeCellLink_complete (l u : string) :
  oneLine l -> oneLine u ->
  exists l' u',
    Pdf.wholeCellLink (linkSpan l u) = Some (l', u')
    /\ String.length l' <= String.length l.
Proof.
  intros Hl Hu. rewrite linkSpan_cons. cbn [Pdf.wholeCellLink].
  change (Ascii.eqb "[" "[") with true. cbv iota.
  now apply lazyLabelEnd_complete.
Qed.

(** With no closing bracket in the label, the lazy label group stops at
    the end of the label, and the lazy target group runs to the closing
    parenthesis that ends the cell. *)
Lemma lazyLabelEnd_exact (l u : string) :
  labelText l -> oneLine u ->
  Pdf.lazyLabelEnd (l +++ String "]" (String "(" (u +++ ")"))) = Some (l, u).
Proof.
  unfold labelText. intros Hl Hu. induction l as [|c l IH].
  - cbn [append Pdf.lazyLabelEnd prefix drop].
    destruct (ascii_dec "]" "]"); [|congruence].
    destruct (ascii_dec "(" "("); [|congruence].
    rewrite prefix_empty, lazyUrlEnd_complete by assumption. reflexivity.
  - cbn [allChars] in Hl. apply andb_prop in Hl as [Hc Hl].
    apply andb_prop in Hc as [Hb Ht]. apply negb_true_iff in Hb, Ht.
    cbn [append Pdf.lazyLabelEnd prefix].
    destruct (ascii_dec "]" c) as [<-|]; [discriminate|].
    rewrite Ht, IH by assumption. reflexivity.
Qed.

Lemma parseCellForPDF_link (l u : string) :
  labelText l -> oneLine u ->
  Pdf.parseCellForPDF (linkSpan l u) = Pdf.CellObj l u.
Proof.
  intros Hl Hu. unfold Pdf.parseCellForPDF. rewrite linkSpan_cons.
  cbn [Pdf.wholeCellLink]. change (Ascii.eqb "[" "[") with true. cbv iota.
  pose proof (lazyLabelEnd_exact l u Hl Hu) as H.
  cbn [append] in H |- *. now rewrite H.
Qed.

(** The groups of a match hold no line terminator. *)
Lemma lazyUrl_line (s u : string) (n : nat) :
  lazyUrl s = Some (u, n) -> oneLine u.
Proof.
  unfold oneLine. revert u n.
  induction s as [|c s IH]; intros u n H; [discriminate|].
  cbn [lazyUrl] in H. destruct (Ascii.eqb c ")"); [now injection H as <- <-|].
  destruct (isLineTerminator c) eqn:T; [discriminate|].
  destruct (lazyUrl s) as [[u' n']|]; [|discriminate].
  injection H as <- <-. cbn [allChars]. now rewrite T, (IH u' n' eq_refl).
Qed.

Lemma lazyLabel_line (s l u : string) (n : nat) :
  lazyLabel s = Some (l, u, n) -> oneLine l /\ oneLine u.
Proof.
  revert l n. induction s as [|c s IH]; intros l n H; [discriminate|].
  cbn [lazyLabel] in H.
  destruct (if prefix "](" (String c s) then lazyUrl (drop 2 (String c s))
            else None) as [[u0 n0]|] eqn:E.
  - injection H as <- <- <-. split; [reflexivity|].
    destruct (prefix "](" (String c s)); [|discriminate].
    now apply lazyUrl_line in E.
  - destruct (isLineTerminator c) eqn:T; [discriminate|].
    destruct (lazyLabel s) as [[[l' u'] n']|]; [|discriminate].
    injection H as <- <- <-. destruct (IH l' n' eq_refl) as [Hl Hu].
    split; [|exact Hu]. unfold oneLine in *. cbn [allChars]. now rewrite T, Hl.
Qed.

Lemma searchFrom_line (s : string) :
  forall i m, searchFrom s i = Some m ->
              oneLine (group1 m) /\ oneLine (group2 m).
Proof.
  induction s as [|c s IH]; intros i m H.
  - cbn in H. discriminate.
  - cbn [searchFrom] in H.
    destruct (matchHere (String c s)) as [[[l u] n]|] eqn:E.
    + injection H as <-. cbn [group1 group2].
      unfold matchHere in E. destruct (Ascii.eqb c "["); [|discriminate].
      destruct (lazyLabel s) as [[[l' u'] n']|] eqn:L; [|discriminate].
      injection E as <- <- <-. now apply lazyLabel_line in L.
    + now apply IH in H.
Qed.

Lemma exec_line (text : string) (li e : nat) (m : RegExpMatch) :
  exec text li = (Some m, e) -> oneLine (group1 m) /\ oneLine (group2 m).
Proof.
  unfold exec. destruct (String.length text <? li); [discriminate|].
  destruct (searchFrom (drop li text) li) as [m'|] eqn:E; [|discriminate].
  intros [= <- _]. now apply searchFrom_line in E.
Qed.

(** The label and the target of every link run are on one line. *)
Lemma runs_links_one_line (text : string) (re : nat) :
  Forall (fun r => match r with
                   | Word.ExternalHyperlink g1 g2 => oneLine g1 /\ oneLine g2
                   | Word.TextRun _ => True
                   end)
         (fst (Word.parseMarkdownToDocxChildren text re)).
Proof.
  unfold Word.parseMarkdownToDocxChildren.
  match goal with
  | |- context [execLoop ?f ?t ?b ?a ?l] =>
      destruct (execLoop_terminates b t f a l) as [[children lastIndex] Hloop];
        [lia | lia | rewrite Hloop];
        apply (execLoop_invariant_at
                 (fun li acc =>
                    Forall (fun r => match r with
                                     | Word.ExternalHyperlink g1 g2 =>
                                         oneLine g1 /\ oneLine g2
                                     | Word.TextRun _ => True
                                     end) (fst acc))) in Hloop
  end.
  - destruct Hloop as (l & Hall & _). cbn [fst] in *.
    destruct (lastIndex <? String.length text); [|exact Hall].
    apply Forall_app. split; [exact Hall|]. now repeat constructor.
  - intros m li li' [ch li0] Hall E. cbn [fst] in *.
    apply Forall_app. split.
    + destruct (li0 <? index m); [|exact Hall].
      apply Forall_app. split; [exact Hall|]. now repeat constructor.
    + constructor; [|constructor]. now apply exec_line in E.
  - cbn. constructor.
Qed.

Lemma wordCell_runs (n k : nat) (text : string) :
  cellRuns (wordCell n k text)
  = fst (Word.parseMarkdownToDocxChildren (cleanCell text) 0).
Proof.
  unfold cellRuns. destruct (wordCell_fields n k text) as (-> & _ & _).
  cbn [flat_map Word.p_children]. apply app_nil_r.
Qed.

(** C4 (amended).  In the Word sink header cells and body cells are built
    alike, whatever the field (only the shading tells them apart): one
    paragraph holding the runs of the field once its bold markers are
    stripped and its [<br>] turned into line feeds.  So a cell whose
    cleaned text reads [[l](u)], with no closing bracket and no line break
    in [l] and no closing parenthesis and no line break in [u], is one
    hyperlink run, in the header as in the body; and a cell that is one
    hyperlink run has a cleaned text of that form, with [l] and [u] on one
    line.  In the PDF sink only body cells are checked for a whole-cell
    link, on the field as it is: a body cell that reads [[l](u)], with no
    closing bracket and no line break in [l] and no line break in [u],
    becomes a link object of content [l] and link [u], and when [u] is not
    empty it is drawn in blue and registered as a clickable region over
    the cell; a body cell that becomes a link object reads [[l](u)] with
    [l] and [u] on one line.  A header cell is always a plain string, the
    field trimmed and stripped of bold markers, with no clickable region
    and no link colour. *)
Theorem whole_cell_link (text l u : string) :
  (forall n k,
      Word.c_children (wordCell n k text)
      = [Word.mkParagraph None
           (fst (Word.parseMarkdownToDocxChildren (cleanCell text) 0))
           None None]
      /\ Word.c_width (wordCell n k text) = (100 / inject_Z (Z.of_nat n))%Q)
  /\ (labelText l -> urlText u -> cleanCell text = linkSpan l u ->
      forall n k, cellRuns (wordCell n k text) = [Word.ExternalHyperlink l u])
  /\ (forall n k,
         cellRuns (wordCell n k text) = [Word.ExternalHyperlink l u] ->
         cleanCell text = linkSpan l u /\ oneLine l /\ oneLine u)
  /\ (labelText l -> oneLine u -> text = linkSpan l u ->
      Pdf.parseCellForPDF text = Pdf.CellObj l u
      /\ (u <> "" ->
          (forall x y w h,
              Pdf.didDrawCell (Pdf.parseCellForPDF text) x y w h
              = [Pdf.Link x y w h u])
          /\ Pdf.willDrawCell (Pdf.parseCellForPDF text) Pdf.SectionBody
             = [Pdf.SetTextColor 0 0 255]))
  /\ (Pdf.parseCellForPDF text = Pdf.CellObj l u ->
      text = linkSpan l u /\ oneLine l /\ oneLine u)
  /\ (forall pw gtw stts fy st line,
         startsWith (trim line) "|" = true -> Pdf.inTable st = false ->
         Pdf.tableHeader (Pdf.step pw gtw stts fy st line)
         = map (replaceAll "**" "") (pipeCells (trim line)))
  /\ (forall s x y w h,
         Pdf.didDrawCell (Pdf.CellString s) x y w h = []
         /\ Pdf.willDrawCell (Pdf.CellString s) Pdf.SectionHead = []).
Proof.
  repeat apply conj.
  - intros n k. destruct (wordCell_fields n k text) as (H1 & H2 & _).
    now split.
  - intros Hl Hu Hc n k. rewrite wordCell_runs, Hc.
    pose proof (link_between_texts "" l u "" 0 eq_refl Hl Hu eq_refl) as H.
    cbn [append] in H. rewrite append_empty_r in H. now rewrite H.
  - intros n k H. rewrite wordCell_runs in H.
    pose proof (runs_source (cleanCell text) 0) as Hs.
    pose proof (runs_links_one_line (cleanCell text) 0) as Hline.
    rewrite H in Hs, Hline. cbn in Hs. rewrite append_empty_r in Hs.
    apply Forall_inv in Hline. split; [now symmetry | exact Hline].
  - intros Hl Hu ->. rewrite parseCellForPDF_link by assumption.
    split; [reflexivity|]. intros Hne.
    unfold Pdf.didDrawCell, Pdf.willDrawCell. cbn [Pdf.hasLink].
    destruct u; [congruence | now split].
  - unfold Pdf.parseCellForPDF.
    destruct (Pdf.wholeCellLink text) as [[l' u']|] eqn:E; [|discriminate].
    intros [= <- <-]. now apply wholeCellLink_sound.
  - intros pw gtw stts fy st line Hp Hin.
    now destruct (pdf_header_step pw gtw stts fy st line Hp Hin) as (_ & H & _).
  - intros s x y w h. now split.
Qed.

Lemma whole_cell_link_witness :
  (forall n k,
      cellRuns (wordCell n k "[**Product A**](http://x)")
      = [Word.ExternalHyperlink "Product A" "http://x"])
  /\ Pdf.parseCellForPDF "[**Product A**](http://x)"
     = Pdf.CellObj "**Product A**" "http://x"
  /\ Pdf.didDrawCell (Pdf.parseCellForPDF "[**Product A**](http://x)") 14 43 182 8
     = [Pdf.Link 14 43 182 8 "http://x"].
Proof.
  pose proof (whole_cell_link "[**Product A**](http://x)" "Product A"
                              "http://x") as Hw.
  pose proof (whole_cell_link "[**Product A**](http://x)" "**Product A**"
                              "http://x") as Hp.
  destruct Hw as (_ & Hw & _).
  destruct Hp as (_ & _ & _ & Hp & _).
  destruct (Hp eq_refl eq_refl eq_refl) as (Hobj & Hhooks).
  destruct (Hhooks ltac:(discriminate)) as (Hlink & _).
  split; [exact (Hw eq_refl eq_refl eq_refl)|].
  split; [exact Hobj | exact (Hlink 14 43 182 8)%Q].
Defined.

(** C4, as stated, fails in the PDF sink: a header cell that is exactly one
    link does not get the construction of a body cell.  The same line gives
    the string [[A](http://x)] as a header and a link object as a body
    row; the hook registers a clickable region for the second only. *)
Lemma header_link_is_plain_text :
  let content := "| [A](http://x) |" +++ newline +++ "| [A](http://x) |" in
  pdfTables (Pdf.demoExport content)
  = [(["[A](http://x)"], [[Pdf.CellObj "A" "http://x"]])]
  /\ map Pdf.CellString ["[A](http://x)"] <> [Pdf.CellObj "A" "http://x"]
  /\ Pdf.didDrawCell (Pdf.CellString "[A](http://x)") 14 35 182 8 = []
  /\ Pdf.didDrawCell (Pdf.CellObj "A" "http://x") 14 43 182 8
     = [Pdf.Link 14 43 182 8 "http://x"].
Proof. repeat split; try reflexivity. discriminate. Qed.

(** X10.  When a table cell is a link.  [parseCellForPDF] returns a link
    object exactly when the whole text of the cell reads [[l](u)] with
    neither part spanning a line, and then the object holds such an [l]
    and [u]; any other cell is returned as a string, its bold markers
    removed and its [<br>] turned into line feeds. *)
Theorem pdf_cell_link_exactly (text : string) :
  match Pdf.parseCellForPDF text with
  | Pdf.CellObj l u => text = linkSpan l u /\ oneLine l /\ oneLine u
  | Pdf.CellString s =>
      s = replaceAll "<br>" newline (replaceAll "**" "" text)
      /\ forall l u, oneLine l -> oneLine u -> text <> linkSpan l u
  end.
Proof.
  unfold Pdf.parseCellForPDF.
  destruct (Pdf.wholeCellLink text) as [[l u]|] eqn:E.
  - now apply wholeCellLink_sound.
  - split; [reflexivity|]. intros l u Hl Hu ->.
    destruct (wholeCellLink_complete l u Hl Hu) as (l' & u' & H & _).
    congruence.
Qed.

(** X11.  Link annotations in the PDF table.  A body cell whose whole text
    is one link with a target gets a link annotation over the cell, to
    that target, and is drawn in blue; any other body cell gets no
    annotation and the regular text colour. *)
Theorem table_cell_link_hooks (text : string) (x y w h : Q)
        (section : Pdf.TableSection) :
  let raw := Pdf.parseCellForPDF text in
  (linkCell text ->
   exists l u,
     text = linkSpan l u /\ u <> ""
     /\ Pdf.didDrawCell raw x y w h = [Pdf.Link x y w h u]
     /\ Pdf.willDrawCell raw section = [Pdf.SetTextColor 0 0 255])
  /\ (~ linkCell text ->
      Pdf.didDrawCell raw x y w h = []
      /\ Pdf.willDrawCell raw section
         = match section with
           | Pdf.SectionBody => [Pdf.SetTextColor 51 65 85]
           | Pdf.SectionHead => []
           end).
Proof.
  cbv zeta. unfold Pdf.parseCellForPDF, Pdf.didDrawCell, Pdf.willDrawCell.
  split.
  - intros (l & u & -> & Hl & Hu & Hne).
    destruct (wholeCellLink_complete l u Hl Hu) as (l' & u' & H & Hlen).
    rewrite H. destruct (wholeCellLink_sound _ _ _ H) as (Heq & _ & _).
    assert (Hu' : u' <> "").
    { intros ->. apply (f_equal String.length) in Heq.
      rewrite !linkSpan_length in Heq. destruct u; [congruence|].
      cbn [String.length] in Heq. lia. }
    exists l', u'. cbn [Pdf.hasLink].
    destruct u'; [congruence|]. now repeat split.
  - intros Hno.
    destruct (Pdf.wholeCellLink text) as [[l u]|] eqn:E; [|now split].
    cbn [Pdf.hasLink]. destruct u as [|c u]; [now split|].
    exfalso. apply Hno.
    destruct (wholeCellLink_sound _ _ _ E) as (Heq & Hl & Hu).
    exists l, (String c u). now repeat split.
Qed.

Lemma table_cell_link_hooks_witness :
  exists l u,
    "[a (b)](http://x/(y))" = linkSpan l u /\ u <> ""
    /\ Pdf.didDrawCell (Pdf.parseCellForPDF "[a (b)](http://x/(y))") 0 0 1 1
       = [Pdf.Link 0 0 1 1 u]
    /\ Pdf.willDrawCell (Pdf.parseCellForPDF "[a (b)](http://x/(y))")
                        Pdf.SectionBody
       = [Pdf.SetTextColor 0 0 255].
Proof.
  apply (proj1 (table_cell_link_hooks "[a (b)](http://x/(y))" 0 0 1 1
                  Pdf.SectionBody)).
  exists "a (b)", "http://x/(y)".
  split; [reflexivity | split; [reflexivity | split; [reflexivity|]]].
  discriminate.
Defined.

(** ** Table blocks in the Word sink *)

Lemma word_table_run (lines : list string) :
  Forall tableLine lines -> lines <> [] ->
  forall st,
    let rows := if Word.inTable st then Word.tableRows st else [] in
    Word.children (Word.run st lines) = Word.children st
    /\ Word.inTable (Word.run st lines) = true
    /\ Word.tableRows (Word.run st lines)
       = rows ++ wordRowsFrom (length rows) lines.
Proof.
  induction 1 as [|l lines Hl Hall IH]; [congruence|]. intros _ st.
  cbn [Word.run fold_left]. fold (Word.run (Word.step st l) lines).
  cbn [wordRowsFrom]. cbv zeta.
  assert (Hstep :
    Word.children (Word.step st l) = Word.children st
    /\ Word.inTable (Word.step st l) = true
    /\ Word.tableRows (Word.step st l)
       = (if Word.inTable st then Word.tableRows st else [])
           ++ (if includes (trim l) "---" then []
               else [wordRow (length (if Word.inTable st
                                      then Word.tableRows st else []))
                             (trim l)])).
  { destruct (includes (trim l) "---") eqn:Hs.
    - rewrite app_nil_r. now apply word_separator_step.
    - now apply word_row_step. }
  destruct Hstep as (Hc & Hi & Hr).
  destruct lines as [|l' lines'].
  - cbn [Word.run fold_left wordRowsFrom].
    repeat split; assumption.
  - destruct (IH ltac:(discriminate) (Word.step st l)) as (Hc' & Hi' & Hr').
    rewrite Hi in Hr'. rewrite Hc', Hi', Hr', Hc, Hr.
    repeat split.
    destruct (includes (trim l) "---").
    + now rewrite app_nil_r.
    + rewrite <- app_assoc, length_app. cbn [length app].
      now rewrite Nat.add_1_r.
Qed.

(** X12.  A table block in the Word sink.  A run of table lines met
    outside a table, once flushed by the line that follows or by the end
    of the text, adds one table and the empty paragraph after it.  The
    rows of the table are the lines that hold no [---], in order, each
    with the cells of its own line, and the first of them is the shaded
    header row wherever the separators stand.  A block of separators only
    adds nothing. *)
Theorem word_table_block (st : Word.State) (lines : list string) :
  Word.inTable st = false -> lines <> [] -> Forall tableLine lines ->
  Word.children (Word.flushIfInTable (Word.run st lines))
  = Word.children st
      ++ match wordRowsFrom 0 lines with
         | [] => []
         | rows => [Word.NTable rows; Word.NParagraph spacer]
         end.
Proof.
  intros Hin Hne Hall.
  destruct (word_table_run lines Hall Hne st) as (Hc & Hi & Hr).
  rewrite Hin in Hr. cbn [app length] in Hr.
  unfold Word.flushIfInTable. rewrite Hi. unfold Word.flushTable.
  cbn [Word.children]. rewrite Hr, Hc.
  destruct (wordRowsFrom 0 lines); [now rewrite app_nil_r | reflexivity].
Qed.

Lemma word_table_block_witness :
  Word.children
    (Word.flushIfInTable
       (Word.run (Word.init 0) ["|---|---|"; "| a | b |"; "|---|"; "| c |"]))
  = [Word.NParagraph Word.titleParagraph;
     Word.NTable [wordRow 0 "| a | b |"; wordRow 1 "| c |"];
     Word.NParagraph spacer].
Proof.
  apply (word_table_block (Word.init 0)
           ["|---|---|"; "| a | b |"; "|---|"; "| c |"]).
  - reflexivity.
  - discriminate.
  - repeat constructor.
Defined.

(** ** Shape of the Word document *)

Lemma wellFormedRows_app (k : nat) (a : list Word.TableRow) (r : Word.TableRow) :
  wellFormedRows k a ->
  Forall (wellFormedCell (length (Word.r_children r)) (k + length a))
         (Word.r_children r) ->
  wellFormedRows k (a ++ [r]).
Proof.
  revert k. induction a as [|x a IH]; intros k Ha Hr.
  - cbn in *. rewrite Nat.add_0_r in Hr. now split.
  - destruct Ha as [Hx Ha]. cbn [app wellFormedRows]. split; [exact Hx|].
    apply IH; [exact Ha|]. cbn [length] in Hr.
    now rewrite Nat.add_succ_comm.
Qed.

Lemma wordRow_wellFormed (k : nat) (t : string) :
  Forall (wellFormedCell (length (Word.r_children (wordRow k t))) k)
         (Word.r_children (wordRow k t)).
Proof.
  unfold wordRow. cbn [Word.r_children]. rewrite length_map.
  apply Forall_forall. intros c Hc. apply in_map_iff in Hc as (x & <- & _).
  destruct (wordCell_fields (length (pipeCells t)) k x) as (H1 & H2 & H3).
  unfold wellFormedCell. repeat split; try assumption. eexists. exact H1.
Qed.

Lemma tablesSpaced_app (a b : list Word.Node) :
  tablesSpaced a -> tablesSpaced b -> tablesSpaced (a ++ b).
Proof.
  intros Ha Hb. induction a as [|n a IH]; [exact Hb|].
  destruct n as [p|rows]; cbn [app tablesSpaced] in *.
  - now apply IH.
  - destruct Ha as [Hn Ha]. split; [|now apply IH].
    destruct a as [|[q|] a']; try contradiction. exact Hn.
Qed.

Lemma tablesSpaced_paragraphs (ps : list Word.Paragraph) :
  tablesSpaced (map Word.NParagraph ps).
Proof. induction ps; cbn; auto. Qed.

Lemma wordShape_flush (st : Word.State) :
  wordShape st -> wordShape (Word.flushIfInTable st).
Proof.
  intros (Ht & Hw & Hs & Hr). unfold Word.flushIfInTable.
  destruct (Word.inTable st); [|now repeat split].
  unfold Word.flushTable, wordShape. cbn [Word.children Word.tableRows].
  destruct (Word.tableRows st) as [|r rows] eqn:E;
    cbn [length Nat.ltb Nat.leb]; [now repeat split|].
  change (0 <? S (length rows)) with true. cbv iota.
  repeat split.
  - destruct Ht as [rest ->]. eexists. reflexivity.
  - rewrite wordTables_app. apply Forall_app. split; [exact Hw|].
    cbn [wordTables]. repeat constructor; [discriminate | apply Hr | apply Hr].
  - apply tablesSpaced_app; [exact Hs|]. cbn. auto.
Qed.

Lemma wordShape_step (st : Word.State) (line : string) :
  wordShape st -> wordShape (Word.step st line).
Proof.
  intros Hst. destruct (startsWith (trim line) "|") eqn:Hp.
  - destruct Hst as (Ht & Hw & Hs & Hr).
    assert (Hrows : wellFormedRows 0 (if Word.inTable st
                                      then Word.tableRows st else []))
      by (destruct (Word.inTable st); [exact Hr | exact I]).
    destruct (includes (trim line) "---") eqn:Hsep.
    + destruct (word_separator_step st line Hp Hsep) as (Hc & _ & Hr').
      unfold wordShape. rewrite Hc, Hr'. now repeat split.
    + destruct (word_row_step st line Hp Hsep) as (Hc & _ & Hr').
      unfold wordShape. rewrite Hc, Hr'. repeat split; try assumption.
      apply wellFormedRows_app; [exact Hrows|]. apply wordRow_wellFormed.
  - destruct (word_text_step st line Hp) as (ps & re' & -> & _ & _).
    apply wordShape_flush in Hst. destruct Hst as (Ht & Hw & Hs & Hr).
    unfold wordShape. cbn [Word.children Word.tableRows]. repeat split.
    + destruct Ht as [rest ->]. eexists. reflexivity.
    + now rewrite wordTables_app, wordTables_paragraphs, app_nil_r.
    + apply tablesSpaced_app; [exact Hs | apply tablesSpaced_paragraphs].
    + exact Hr.
Qed.

Lemma wordShape_run (lines : list string) :
  forall st, wordShape st -> wordShape (Word.run st lines).
Proof.
  induction lines as [|l lines IH]; intros st Hst; [exact Hst|].
  cbn [Word.run fold_left]. apply IH. now apply wordShape_step.
Qed.

(** X13.  The shape of every Word document.  Whatever the text, the
    document starts with the title paragraph; every table has at least one
    row and is followed at once by an empty paragraph; every cell holds
    one plain paragraph and an equal share of the width of its own row;
    the first row of a table is shaded as a header and no other row is. *)
Theorem word_document_shape (content filename : string) (re : nat) :
  let doc := Word.sections_children (fst (Word.exportToWord content filename re)) in
  (exists rest, doc = Word.NParagraph Word.titleParagraph :: rest)
  /\ Forall wellFormedTable (wordTables doc)
  /\ tablesSpaced doc.
Proof.
  cbv zeta. unfold Word.exportToWord. cbn [fst Word.sections_children].
  assert (H : wordShape (Word.init re)).
  { unfold wordShape. cbn. repeat split; eauto. }
  apply (wordShape_run (split "010" content)) in H.
  apply wordShape_flush in H. destruct H as (Ht & Hw & Hs & _).
  now repeat split.
Qed.

(** ** Table blocks in the PDF sink *)

Section PdfTableBlocks.

Variable pageWidth : Q.
Variable getTextWidth : list Pdf.Op -> string -> Q.
Variable splitTextToSize : list Pdf.Op -> string -> Q -> list string.
Variable lastAutoTable_finalY : list Pdf.Op -> Q.

Local Abbreviation step :=
  (Pdf.step pageWidth getTextWidth splitTextToSize lastAutoTable_finalY).
Local Abbreviation run :=
  (Pdf.run pageWidth getTextWidth splitTextToSize lastAutoTable_finalY).

(** A table line draws nothing and leaves the cursor where the page-break
    test put it. *)
Lemma pdf_table_step (st : Pdf.State) (line : string) :
  tableLine line ->
  Pdf.ops (step st line) = Pdf.ops (Pdf.pageBreak st)
  /\ Pdf.y (step st line) = Pdf.y (Pdf.pageBreak st).
Proof.
  unfold tableLine. intros Hp. unfold Pdf.step. rewrite Hp.
  destruct (negb (Pdf.inTable (Pdf.pageBreak st)));
    [|destruct (negb (includes (trim line) "---"))]; now split.
Qed.

Lemma pageBreak_inTable (st : Pdf.State) :
  Pdf.inTable (Pdf.pageBreak st) = Pdf.inTable st.
Proof. unfold Pdf.pageBreak. now destruct (Pdf.pastThreshold (Pdf.y st)). Qed.

Lemma pdf_rows_run (lines : list string) :
  Forall tableLine lines ->
  forall st,
    Pdf.inTable st = true -> Pdf.pastThreshold (Pdf.y st) = false ->
    run st lines
    = Pdf.mkState (Pdf.ops st) (Pdf.y st) true (Pdf.tableHeader st)
                  (Pdf.tableBody st ++ pdfBodyRows lines)
                  (Pdf.linkRegex_lastIndex st).
Proof.
  induction 1 as [|l lines Hl _ IH]; intros st Hin Hy;
    assert (Hpb : Pdf.pageBreak st = st)
      by (unfold Pdf.pageBreak; now rewrite Hy).
  - cbn. rewrite app_nil_r. destruct st. cbn in *. now subst.
  - cbn [Pdf.run fold_left]. fold (run (step st l) lines).
    assert (Hstep : step st l
                    = Pdf.mkState (Pdf.ops st) (Pdf.y st) true
                        (Pdf.tableHeader st)
                        (Pdf.tableBody st
                           ++ (if includes (trim l) "---" then []
                               else [map Pdf.parseCellForPDF (pipeCells (trim l))]))
                        (Pdf.linkRegex_lastIndex st)).
    { unfold tableLine in Hl. unfold Pdf.step. rewrite Hl, Hpb, Hin.
      cbn [negb]. unfold pipeCells. rewrite map_map.
      destruct (includes (trim l) "---"); cbn [negb].
      - rewrite app_nil_r. destruct st. cbn in *. now subst.
      - reflexivity. }
    rewrite IH; rewrite Hstep; pdf_fields; try reflexivity.
    + rewrite <- app_assoc. cbn [pdfBodyRows].
      now destruct (includes (trim l) "---").
    + exact Hy.
Qed.

End PdfTableBlocks.

(** X14.  A table block in the PDF sink.  A run of table lines met outside
    a table, once flushed by the line that follows or by the end of the
    text, draws nothing but one grid table, at the height the page-break
    test of its first line left the cursor at.  The header is the first
    line, whatever it holds; the body rows are the later lines that hold
    no [---], in order, after the rows the state already held.  When the
    first line has no cell, no table is drawn and the rows stay in the
    state, for the next table to start from. *)
Theorem pdf_table_block
        (pageWidth : Q) (getTextWidth : list Pdf.Op -> string -> Q)
        (splitTextToSize : list Pdf.Op -> string -> Q -> list string)
        (lastAutoTable_finalY : list Pdf.Op -> Q)
        (st : Pdf.State) (first : string) (rest : list string) :
  Pdf.inTable st = false -> tableLine first -> Forall tableLine rest ->
  let start := Pdf.pageBreak st in
  let body := Pdf.tableBody st ++ pdfBodyRows rest in
  let st' :=
    Pdf.flushIfInTable lastAutoTable_finalY
      (Pdf.run pageWidth getTextWidth splitTextToSize lastAutoTable_finalY
               st (first :: rest)) in
  Pdf.inTable st' = false
  /\ match pdfHeader first with
     | [] =>
         Pdf.ops st' = Pdf.ops start /\ Pdf.y st' = Pdf.y start
         /\ Pdf.tableBody st' = body
     | head =>
         Pdf.ops st'
         = Pdf.ops start ++ [Pdf.AutoTable (Pdf.y start) head body]
         /\ Pdf.y st' = (lastAutoTable_finalY (Pdf.ops st') + 10)%Q
         /\ Pdf.tableBody st' = []
     end.
Proof.
  intros Hin Hfirst Hrest. cbv zeta.
  cbn [Pdf.run fold_left].
  fold (Pdf.run pageWidth getTextWidth splitTextToSize lastAutoTable_finalY
          (Pdf.step pageWidth getTextWidth splitTextToSize
                    lastAutoTable_finalY st first) rest).
  assert (Hstep :
    Pdf.step pageWidth getTextWidth splitTextToSize lastAutoTable_finalY
             st first
    = Pdf.mkState (Pdf.ops (Pdf.pageBreak st)) (Pdf.y (Pdf.pageBreak st))
                  true (pdfHeader first) (Pdf.tableBody st)
                  (Pdf.linkRegex_lastIndex st)).
  { unfold tableLine in Hfirst. unfold Pdf.step. rewrite Hfirst.
    rewrite pageBreak_inTable, Hin. cbn [negb].
    unfold pdfHeader, pipeCells. rewrite map_map.
    unfold Pdf.pageBreak. now destruct (Pdf.pastThreshold (Pdf.y st)). }
  rewrite Hstep, pdf_rows_run; try assumption; try reflexivity.
  - pdf_fields. unfold Pdf.flushIfInTable, Pdf.flushTable. pdf_fields.
    destruct (pdfHeader first) as [|c head];
      cbn [length Nat.ltb Nat.leb]; pdf_fields; now repeat split.
  - pdf_fields. unfold Pdf.pageBreak.
    destruct (Pdf.pastThreshold (Pdf.y st)) eqn:E; [reflexivity | exact E].
Qed.

Lemma pdf_table_block_witness :
  let st :=
    Pdf.run Pdf.demoPageWidth Pdf.demoTextWidth Pdf.demoSplit Pdf.demoFinalY
            (Pdf.init Pdf.demoPageWidth 0) ["|"; "| a |"; "text"] in
  let st' :=
    Pdf.flushIfInTable Pdf.demoFinalY
      (Pdf.run Pdf.demoPageWidth Pdf.demoTextWidth Pdf.demoSplit
               Pdf.demoFinalY st ["| H |"; "| x |"]) in
  pdfTables (Pdf.ops st')
  = [(["H"], [[Pdf.CellString "a"]; [Pdf.CellString "x"]])].
Proof.
  intros st st'.
  destruct (pdf_table_block Pdf.demoPageWidth Pdf.demoTextWidth Pdf.demoSplit
              Pdf.demoFinalY st "| H |" ["| x |"])
    as [_ H]; [reflexivity | reflexivity | repeat constructor |].
  change (pdfHeader "| H |") with ["H"] in H. cbv iota zeta in H.
  destruct H as (Hops & _ & _). fold st' in Hops. rewrite Hops.
  reflexivity.
Defined.

(** ** The text of the analysis result *)

Lemma includes_cons (c : ascii) (s pat : string) :
  includes s pat = true -> includes (String c s) pat = true.
Proof. intros H. cbn [includes]. rewrite H. apply orb_true_r. Qed.

Lemma includes_trimStart (s pat : string) :
  includes (trimStart s) pat = true -> includes s pat = true.
Proof.
  induction s as [|c s IH]; [auto|]. cbn [trimStart].
  destruct (isWhiteSpace c); [|auto].
  intros H. apply includes_cons. now apply IH.
Qed.

Lemma trimEnd_prefix (s : string) : exists q, s = trimEnd s +++ q.
Proof.
  induction s as [|c s [q IH]]; [now exists ""|]. cbn [trimEnd].
  destruct (trimEnd s) as [|d t] eqn:E.
  - destruct (isWhiteSpace c).
    + now exists (String c s).
    + now exists s.
  - exists q. rewrite IH at 1. reflexivity.
Qed.

Lemma prefix_append (p a b : string) :
  prefix p a = true -> prefix p (a +++ b) = true.
Proof.
  revert a. induction p as [|x p IH]; intros a H; [apply prefix_empty|].
  destruct a as [|y a]; [discriminate|].
  cbn [prefix append] in *. destruct (ascii_dec x y); [now apply IH | discriminate].
Qed.

Lemma includes_append (a b pat : string) :
  includes a pat = true -> includes (a +++ b) pat = true.
Proof.
  induction a as [|c a IH]; intros H.
  - cbn [includes] in H. rewrite orb_false_r in H.
    destruct pat; [|discriminate].
    destruct b; cbn [append includes]; now rewrite prefix_empty.
  - cbn [includes] in H. apply orb_prop in H as [H|H].
    + pose proof (prefix_append _ _ b H) as H'. cbn [append] in H'.
      cbn [append includes]. now rewrite H'.
    + cbn [append]. apply includes_cons. now apply IH.
Qed.

Lemma includes_trim (s pat : string) :
  includes s pat = false -> includes (trim s) pat = false.
Proof.
  intros H. destruct (includes (trim s) pat) eqn:E; [|reflexivity].
  unfold trim in E. destruct (trimEnd_prefix (trimStart s)) as [q Hq].
  apply (includes_append _ q) in E. rewrite <- Hq in E.
  apply includes_trimStart in E. congruence.
Qed.

Lemma trimEnd_cons (c : ascii) (s : string) :
  trimEnd (String c s)
  = match trimEnd s with
    | EmptyString => if isWhiteSpace c then EmptyString else String c EmptyString
    | t => String c t
    end.
Proof. reflexivity. Qed.

Lemma trimEnd_idempotent (s : string) : trimEnd (trimEnd s) = trimEnd s.
Proof.
  induction s as [|c s IH]; [reflexivity|]. rewrite (trimEnd_cons c s).
  destruct (trimEnd s) as [|d t] eqn:E.
  - destruct (isWhiteSpace c) eqn:W; [reflexivity|].
    cbn [trimEnd]. now rewrite W.
  - rewrite trimEnd_cons, IH. reflexivity.
Qed.

Lemma trimStart_head (s : string) :
  match trimStart s with
  | EmptyString => True
  | String c _ => isWhiteSpace c = false
  end.
Proof.
  induction s as [|c s IH]; [exact I|]. cbn [trimStart].
  destruct (isWhiteSpace c) eqn:W; [exact IH | exact W].
Qed.

Lemma trim_idempotent (s : string) : trim (trim s) = trim s.
Proof.
  unfold trim. pose proof (trimStart_head s) as H.
  destruct (trimStart s) as [|c r]; [reflexivity|].
  assert (Hhead : exists r', trimEnd (String c r) = String c r').
  { rewrite trimEnd_cons. destruct (trimEnd r); [rewrite H|]; eauto. }
  destruct Hhead as [r' Hr]. rewrite Hr at 1. cbn [trimStart]. rewrite H.
  rewrite <- Hr. apply trimEnd_idempotent.
Qed.

(** Removing every code fence leaves none: a run of backticks keeps fewer
    than three. *)
Lemma fences_removed (n : nat) :
  forall s, String.length s <= n ->
    let r := replaceAllFrom "```" "" 0 s in
    includes r "```" = false
    /\ (prefix "``" r = true -> prefix "``" s = true)
    /\ (prefix "`" r = true -> prefix "`" s = true).
Proof.
  induction n as [|n IH]; intros s Hlen; cbv zeta.
  - destruct s; [|cbn in Hlen; lia]. now repeat split.
  - destruct s as [|c s']; [now repeat split|].
    cbn [String.length] in Hlen.
    destruct (prefix "```" (String c s')) eqn:P.
    + assert (Hs : exists s2, String c s' = String "`" (String "`" (String "`" s2)))
        by (eexists; apply prefix_split in P; exact P).
      destruct Hs as [s2 Hs]. injection Hs as -> ->.
      cbn [replaceAllFrom String.length Nat.sub append]. rewrite P.
      cbn [append replaceAllFrom].
      cbn [String.length] in Hlen.
      destruct (IH s2 ltac:(lia)) as (H1 & _ & _).
      split; [exact H1|]. split; intros _; reflexivity.
    + cbn [replaceAllFrom]. rewrite P.
      destruct (IH s' ltac:(lia)) as (H1 & H2 & H3).
      set (r := replaceAllFrom "```" "" 0 s') in *.
      assert (Hpre : forall p x, prefix (String "`" p) (String c x) = true ->
                                 c = "`"%char /\ prefix p x = true).
      { intros p x H. cbn [prefix] in H.
        destruct (ascii_dec "`" c); [now split | discriminate]. }
      assert (Hcons : forall p x, prefix p x = true ->
                                  prefix (String "`" p) (String "`" x) = true).
      { intros p x H. cbn [prefix].
        destruct (ascii_dec "`" "`"); [exact H | congruence]. }
      repeat split.
      * cbn [includes]. rewrite H1, orb_false_r.
        destruct (prefix "```" (String c r)) eqn:Q; [|reflexivity].
        apply Hpre in Q as [-> Q]. apply H2 in Q.
        apply Hcons in Q. congruence.
      * intros Q. apply Hpre in Q as [-> Q]. apply H3 in Q.
        now apply Hcons.
      * intros Q. apply Hpre in Q as [-> Q]. apply Hcons, prefix_empty.
Qed.

(** X15.  The text of the analysis result is clean.  Whatever the model
    answers, the text [analyzeContent] returns, as [rawText] and as
    [markdown], holds no code fence [```] and has no white space at
    either end. *)
Theorem analysis_text_clean (reply : Gemini.Reply) (kind : Gemini.InputKind)
        (d : Gemini.ExtractedData) :
  Gemini.analyzeContent reply kind = inl d ->
  includes (Gemini.rawText d) "```" = false
  /\ trim (Gemini.rawText d) = Gemini.rawText d
  /\ Gemini.markdown d = Gemini.rawText d.
Proof.
  destruct reply as [msg|t]; cbn [Gemini.analyzeContent]; [discriminate|].
  intros [= <-]. cbn [Gemini.markdown Gemini.rawText]. unfold Gemini.cleanup.
  repeat split.
  - apply includes_trim. unfold replaceAll.
    now destruct (fences_removed _ (removeAllCIFrom "```markdown" 0
                                      (Gemini.textOrDefault t))
                                 (Nat.le_refl _)) as (H & _ & _).
  - apply trim_idempotent.
Qed.


Lemma analysis_text_clean_witness :
  let d := Gemini.mkExtractedData "` | a |`` `" "` | a |`` `"
                                  "` | a |`` `..." "General Document" in
  includes (Gemini.rawText d) "```" = false
  /\ trim (Gemini.rawText d) = Gemini.rawText d
  /\ Gemini.markdown d = Gemini.rawText d.
Proof.
  exact (analysis_text_clean
           (Gemini.Response (Some " ````MarkDown``` | a |`` ` "))
           Gemini.PlainText _ eq_refl).
Defined.

(** ** Reading a Word document back *)

Lemma marker_line (marker t : string) :
  startsWith t marker = true -> marker +++ replaceFirst marker "" t = t.
Proof.
  unfold startsWith. intros H.
  rewrite (replaceFirst_prefix _ _ H). symmetry. now apply prefix_split.
Qed.

Lemma word_heading_source (st : Word.State) (t marker : string)
      (level : Word.HeadingLevel) (b a : nat) :
  Word.inTable st = false -> startsWith t marker = true ->
  headingMarker (Some level) = marker ->
  exists p re',
    Word.pushHeading st t marker level b a
    = Word.mkState (Word.children st ++ [Word.NParagraph p]) false
                   (Word.tableRows st) re'
    /\ paragraphSource p = t.
Proof.
  intros Hin Hp Hm. unfold Word.pushHeading.
  rewrite Word_flushIfInTable_out by assumption.
  destruct (Word.parseMarkdownToDocxChildren _ _) as [runs re'] eqn:E.
  eexists _, re'. rewrite Hin. split; [reflexivity|].
  unfold paragraphSource. cbn [Word.p_heading Word.p_children]. rewrite Hm.
  apply (f_equal fst) in E. cbn [fst] in E. subst runs.
  rewrite runs_source. now apply marker_line.
Qed.

(** The Word sink on a line that is not a table row, outside a table: one
    paragraph that reads back as the trimmed line, none for a blank
    line. *)
Lemma word_text_step_source (st : Word.State) (line : string) :
  notTableLine line -> Word.inTable st = false ->
  exists ps re',
    Word.step st line
    = Word.mkState (Word.children st ++ map Word.NParagraph ps) false
                   (Word.tableRows st) re'
    /\ map paragraphSource ps
       = (if isEmpty (trim line) then [] else [trim line]).
Proof.
  unfold notTableLine. intros Hnt Hin. unfold Word.step.
  assert (Hhead : forall marker,
             marker <> "" -> startsWith (trim line) marker = true ->
             isEmpty (trim line) = false).
  { intros marker Hne H. destruct (trim line); [|reflexivity].
    destruct marker; [congruence | discriminate]. }
  destruct (startsWith (trim line) "### ") eqn:H3;
    [|destruct (startsWith (trim line) "## ") eqn:H2;
      [|destruct (startsWith (trim line) "# ") eqn:H1]].
  1-3: match goal with
       | H : startsWith _ ?mk = true
         |- context [Word.pushHeading ?s ?l ?mk ?lv ?b ?a] =>
           destruct (word_heading_source s l mk lv b a Hin H eq_refl)
             as (p & re' & -> & Hsrc);
           exists [p], re'; split; [reflexivity|];
           rewrite (Hhead mk ltac:(discriminate) H);
           cbn [map]; now rewrite Hsrc
       end.
  rewrite Hnt, Word_flushIfInTable_out by assumption.
  rewrite isEmpty_length.
  destruct (String.length (trim line)) as [|n] eqn:L.
  - exists [], (Word.linkRegex_lastIndex st).
    cbn. rewrite app_nil_r. destruct st; cbn in *; now subst.
  - change (0 <? S n) with true. change (S n =? 0) with false. cbv iota.
    destruct (Word.parseMarkdownToDocxChildren _ _) as [runs re'] eqn:E.
    eexists [_], re'. rewrite Hin. split; [reflexivity|].
    cbn [map]. unfold paragraphSource. cbn [Word.p_heading Word.p_children].
    apply (f_equal fst) in E. cbn [fst] in E. subst runs.
    cbn [headingMarker append]. now rewrite runs_source.
Qed.

Lemma word_text_run_source (lines : list string) :
  Forall notTableLine lines ->
  forall st,
    Word.inTable st = false ->
    exists ps,
      Word.children (Word.run st lines)
      = Word.children st ++ map Word.NParagraph ps
      /\ Word.inTable (Word.run st lines) = false
      /\ map paragraphSource ps = map trim (nonBlankLines lines).
Proof.
  induction 1 as [|l lines Hl _ IH]; intros st Hin.
  - exists []. cbn. now rewrite app_nil_r.
  - cbn [Word.run fold_left]. fold (Word.run (Word.step st l) lines).
    destruct (word_text_step_source st l Hl Hin) as (ps & re' & Hstep & Hsrc).
    destruct (IH (Word.step st l)) as (ps' & Hc & Hi & Hsrc');
      [now rewrite Hstep|].
    assert (Hch : Word.children (Word.step st l)
                  = Word.children st ++ map Word.NParagraph ps)
      by now rewrite Hstep.
    exists (ps ++ ps'). rewrite Hc, Hch, map_app, <- app_assoc.
    split; [reflexivity | split; [exact Hi|]].
    rewrite map_app, Hsrc, Hsrc'. unfold nonBlankLines. cbn [filter].
    now destruct (isEmpty (trim l)).
Qed.

(** X16.  A text without tables reads back from its Word document.  When
    no line of the text is a table row, the document is the title followed
    by one paragraph per non-blank line, in order; writing each paragraph
    back as the marker of its heading level followed by the source of its
    runs gives the trimmed non-blank lines of the text: headings of the
    levels one to three keep their level, and no line is lost, merged or
    reordered. *)
Theorem word_text_round_trip (content filename : string) (re : nat) :
  Forall notTableLine (split "010" content) ->
  exists ps,
    Word.sections_children (fst (Word.exportToWord content filename re))
    = Word.NParagraph Word.titleParagraph :: map Word.NParagraph ps
    /\ map paragraphSource ps
       = map trim (nonBlankLines (split "010" content)).
Proof.
  intros Hall. unfold Word.exportToWord. cbn [fst Word.sections_children].
  destruct (word_text_run_source _ Hall (Word.init re) eq_refl)
    as (ps & Hc & Hi & Hsrc).
  exists ps. rewrite Word_flushIfInTable_out by assumption.
  rewrite Hc. now split.
Qed.

Lemma word_text_round_trip_witness :
  let content :=
    "# T" +++ newline +++ newline +++ "  see [a](u) now " +++ newline
    +++ "### h" in
  exists ps,
    wordExport content
    = Word.NParagraph Word.titleParagraph :: map Word.NParagraph ps
    /\ map paragraphSource ps = ["# T"; "see [a](u) now"; "### h"].
Proof.
  apply (word_text_round_trip
           ("# T" +++ newline +++ newline +++ "  see [a](u) now " +++ newline
            +++ "### h") defaultFilename 0).
  apply notTableLines_check. reflexivity.
Defined.
